(** * LightNovelScraper: the classification, formatting and fetch-retry core

    A shallow embedding of [LightNovelScraper.py] (the pattern-based
    variant, module [Main]) and [lightnovelScraper_Simple.py] (the
    separator-based variant, module [Simple]).

    Conventions of the embedding:
    - Python [str] values are [string]s (byte strings; a non-ASCII character
      is its UTF-8 byte sequence, so substring tests agree with Python's);
    - a BeautifulSoup element is a [node] of a small DOM; a parsed document
      (the [BeautifulSoup] object) is a forest [list node];
    - [BeautifulSoup(s, 'html.parser')] is the Section variable [html_parser];
      [Parser.parse_html] is a reference instance for well-formed fragments,
      on which the model runs end to end;
    - where the formatter changes a parsed paragraph in place, the elements
      are objects with an identity ([Live.obj]);
    - the global [Config] class is passed explicitly;
    - a Python [dict] is an association list in insertion order;
    - exceptions are values of [exn]; a function that may raise returns a
      [result];
    - wall-clock times and durations are exact rationals ([Q]), in seconds. *)

From Stdlib Require Import Bool List String Ascii Arith ZArith QArith Lia.
From Stdlib Require Import Qminmax DecimalString DecimalPos DecimalZ Sorted Lqa.
Import ListNotations.

Close Scope Q_scope.
Open Scope string_scope.
Open Scope list_scope.
Open Scope nat_scope.

(** String concatenation, kept apart from list append. *)
Infix "+++" := String.append (right associativity, at level 60).

(* ------------------------------------------------------------------ *)
(** ** Python string operations *)

Module Str.

(** Characters removed by [str.strip()] with no argument, within ASCII. *)
Definition is_space (c : ascii) : bool :=
  let n := nat_of_ascii c in
  ((9 <=? n) && (n <=? 13)) || ((28 <=? n) && (n <=? 32)).

(** [\d], within ASCII. *)
Definition is_digit (c : ascii) : bool :=
  let n := nat_of_ascii c in (48 <=? n) && (n <=? 57).

Definition is_alpha (c : ascii) : bool :=
  let n := nat_of_ascii c in
  ((65 <=? n) && (n <=? 90)) || ((97 <=? n) && (n <=? 122)).

Definition lower_char (c : ascii) : ascii :=
  let n := nat_of_ascii c in
  if (65 <=? n) && (n <=? 90) then ascii_of_nat (n + 32) else c.

(** [s.lower()], within ASCII. *)
Fixpoint lower (s : string) : string :=
  match s with
  | EmptyString => EmptyString
  | String c t => String (lower_char c) (lower t)
  end.

(** [s.startswith(p)] *)
Definition startswith (s p : string) : bool := prefix p s.

(** [s[n:]] *)
Fixpoint drop (n : nat) (s : string) : string :=
  match n, s with
  | O, _ => s
  | S k, EmptyString => EmptyString
  | S k, String _ t => drop k t
  end.

(** [needle in hay] *)
Fixpoint contains (needle hay : string) : bool :=
  if prefix needle hay then true
  else match hay with
       | EmptyString => false
       | String _ t => contains needle t
       end.

Fixpoint lstrip (s : string) : string :=
  match s with
  | EmptyString => EmptyString
  | String c t => if is_space c then lstrip t else s
  end.

Fixpoint rstrip (s : string) : string :=
  match s with
  | EmptyString => EmptyString
  | String c t =>
      match rstrip t with
      | EmptyString => if is_space c then EmptyString else String c EmptyString
      | t' => String c t'
      end
  end.

(** [s.strip()] *)
Definition strip (s : string) : string := rstrip (lstrip s).

(** [s.split(sep)[0]] for a one-character separator. *)
Fixpoint before_char (sep : ascii) (s : string) : string :=
  match s with
  | EmptyString => EmptyString
  | String c t => if Ascii.eqb c sep then EmptyString else String c (before_char sep t)
  end.

(** [sep.join(l)] *)
Definition join (sep : string) (l : list string) : string := String.concat sep l.

(** Truthiness of a string: [bool(s)]. *)
Definition nonempty (s : string) : bool :=
  match s with EmptyString => false | _ => true end.

(** The longest prefix of [s] made of characters satisfying [f], and the
    rest. *)
Fixpoint span (f : ascii -> bool) (s : string) : string * string :=
  match s with
  | EmptyString => (EmptyString, EmptyString)
  | String c t =>
      if f c then let '(a, b) := span f t in (String c a, b)
      else (EmptyString, s)
  end.

Definition newline : ascii := ascii_of_nat 10.

(** *** The two regular-expression substitutions of the source

    Both [re.sub(r'<sup>.*?</sup>', '', p)] and
    [re.sub(r'<!--sse-->.*?<!--/sse-->', '', s, flags=re.DOTALL)] have the
    shape  open . lazy-any . close  with an empty replacement. *)

(** Length of the text matched by [.*?close] at the start of [s], if it
    matches there: the lazy star stops at the first occurrence of [close],
    and (without DOTALL) cannot cross a newline. *)
Fixpoint lazy_until (dotall : bool) (close : string) (s : string) : option nat :=
  if prefix close s then Some (String.length close)
  else match s with
       | EmptyString => None
       | String c t =>
           if dotall || negb (Ascii.eqb c newline)
           then option_map S (lazy_until dotall close t)
           else None
       end.

(** Length of the match of  open.*?close  at the start of [s]. *)
Definition match_here (dotall : bool) (open close : string) (s : string) : option nat :=
  if prefix open s
  then option_map (Nat.add (String.length open))
         (lazy_until dotall close (drop (String.length open) s))
  else None.

(** [re.sub(open + '.*?' + close, '', s)]: leftmost non-overlapping matches
    are deleted.  [skip] is the number of characters of a match in progress
    still to delete. *)
Fixpoint sub_skip (dotall : bool) (open close : string) (skip : nat) (s : string) : string :=
  match s with
  | EmptyString => EmptyString
  | String c t =>
      match skip with
      | S k => sub_skip dotall open close k t
      | O =>
          match match_here dotall open close s with
          | Some (S k) => sub_skip dotall open close k t
          | _ => String c (sub_skip dotall open close 0 t)
          end
      end
  end.

Definition re_sub_delete (dotall : bool) (open close : string) (s : string) : string :=
  sub_skip dotall open close 0 s.

(** [$] of Python's [re]: the end of the string, or just before a final
    newline. *)
Definition at_dollar (s : string) : bool :=
  match s with
  | EmptyString => true
  | String c EmptyString => Ascii.eqb c newline
  | _ => false
  end.

(** [re.match(r'^\d+$', s)] *)
Definition match_digits (s : string) : bool :=
  let '(d, rest) := span is_digit s in nonempty d && at_dollar rest.

(** [re.match(r'^\d+\.?$', s)] *)
Definition match_digits_dot (s : string) : bool :=
  let '(d, rest) := span is_digit s in
  nonempty d &&
  (at_dollar rest ||
   match rest with
   | String "." rest' => at_dollar rest'
   | _ => false
   end).

(** [re.match(r'^chapter\s+\d+$', s)] *)
Definition match_chapter_digits (s : string) : bool :=
  if prefix "chapter" s then
    let '(w, rest) := span is_space (drop 7 s) in
    nonempty w && match_digits rest
  else false.

(** [re.search(r'chapter-(\d+)', s)]: group 1 of the leftmost match. *)
Fixpoint search_chapter_number (s : string) : option string :=
  let here :=
    if prefix "chapter-" s then
      let '(d, _) := span is_digit (drop 8 s) in
      if nonempty d then Some d else None
    else None in
  match here with
  | Some d => Some d
  | None => match s with
            | EmptyString => None
            | String _ t => search_chapter_number t
            end
  end.

End Str.

Import Str.

(* ------------------------------------------------------------------ *)
(** ** The element tree of BeautifulSoup *)

Module Html.

Definition attrs := list (string * string).

(** A page element: a [NavigableString], a [Comment] or a [Tag] with its
    name, attributes and contents.  A multi-valued attribute such as [class]
    is held as its values joined by spaces. *)
#[local] Unset Elimination Schemes.
Inductive node : Type :=
| Text (s : string)
| Comment (s : string)
| Elem (tag : string) (a : attrs) (kids : list node).
#[local] Set Elimination Schemes.

(** Induction over the nested tree. *)
Section NodeInd.
Variable P : node -> Prop.
Hypothesis HText : forall s, P (Text s).
Hypothesis HComment : forall s, P (Comment s).
Hypothesis HElem : forall tag a kids, Forall P kids -> P (Elem tag a kids).

Fixpoint node_ind' (n : node) : P n :=
  match n with
  | Text s => HText s
  | Comment s => HComment s
  | Elem tag a kids =>
      HElem tag a kids
        ((fix go (l : list node) : Forall P l :=
            match l with
            | [] => Forall_nil P
            | k :: l' => Forall_cons k (node_ind' k) (go l')
            end) kids)
  end.
End NodeInd.

(** [tag.get(name)] *)
Fixpoint get_attr (name : string) (a : attrs) : option string :=
  match a with
  | [] => None
  | (k, v) :: rest => if String.eqb k name then Some v else get_attr name rest
  end.

(** [el.text]: the concatenation of the strings below [el]; comments do not
    contribute.  (The strings of [script] and [style] elements, which recent
    versions of the library leave out as well, are not told apart.) *)
Fixpoint node_text (n : node) : string :=
  match n with
  | Text s => s
  | Comment _ => ""
  | Elem _ _ kids => String.concat "" (map node_text kids)
  end.

(** The elements below [n], in document order. *)
Fixpoint descendants (n : node) : list node :=
  match n with
  | Elem _ _ kids => flat_map (fun k => k :: descendants k) kids
  | _ => []
  end.

(** All the elements of a document, in document order. *)
Definition soup_nodes (doc : list node) : list node :=
  flat_map (fun k => k :: descendants k) doc.

Definition has_tag (names : list string) (n : node) : bool :=
  match n with
  | Elem tag _ _ => existsb (String.eqb tag) names
  | _ => false
  end.

(** [el.find_all(names)] on a tag, and on a document. *)
Definition find_all (names : list string) (n : node) : list node :=
  filter (has_tag names) (descendants n).

Definition soup_find_all (names : list string) (doc : list node) : list node :=
  filter (has_tag names) (soup_nodes doc).

(** The whitespace-separated tokens of a [class] attribute. *)
Fixpoint words_aux (cur : string) (s : string) : list string :=
  match s with
  | EmptyString => if nonempty cur then [cur] else []
  | String c t =>
      if is_space c
      then (if nonempty cur then [cur] else []) ++ words_aux "" t
      else words_aux (cur +++ String c "") t
  end.

Definition words (s : string) : list string := words_aux "" s.

Definition has_class (c : string) (n : node) : bool :=
  match n with
  | Elem _ a _ =>
      match get_attr "class" a with
      | Some v => existsb (String.eqb c) (words v)
      | None => false
      end
  | _ => false
  end.

Definition has_attr (name : string) (n : node) : bool :=
  match n with
  | Elem _ a _ => match get_attr name a with Some _ => true | None => false end
  | _ => false
  end.

Definition attr_is (name value : string) (n : node) : bool :=
  match n with
  | Elem _ a _ =>
      match get_attr name a with Some v => String.eqb v value | None => false end
  | _ => false
  end.

(** [soup.find(tag, class_=c)] and [soup.find(tag, id=i)]: the first match
    in document order. *)
Definition find_by_class (tag c : string) (doc : list node) : option node :=
  find (fun n => has_tag [tag] n && has_class c n) (soup_nodes doc).

Definition find_by_id (tag i : string) (doc : list node) : option node :=
  find (fun n => has_tag [tag] n && attr_is "id" i n) (soup_nodes doc).

(** The CSS selectors the two cleaners use. *)
Inductive selector : Type :=
| SelTag (tag : string)               (* [script] *)
| SelClass (c : string)               (* [.vm-placement] *)
| SelTagAttr (tag name : string).     (* [div[data-defid]] *)

Definition sel_matches (sel : selector) (n : node) : bool :=
  match sel with
  | SelTag tag => has_tag [tag] n
  | SelClass c => has_class c n
  | SelTagAttr tag name => has_tag [tag] n && has_attr name n
  end.

(** [for element in scope.select(sel): element.decompose()] on the contents
    of the scope: every matching element leaves the tree, with all below it. *)
Fixpoint decompose_in (sel : selector) (n : node) : node :=
  match n with
  | Elem tag a kids =>
      Elem tag a
        (flat_map (fun k => if sel_matches sel k then [] else [decompose_in sel k])
           kids)
  | _ => n
  end.

Definition decompose_soup (sel : selector) (doc : list node) : list node :=
  flat_map (fun k => if sel_matches sel k then [] else [decompose_in sel k]) doc.

(** *** Serialisation: [str(el)] with the default (minimal) formatter *)

Fixpoint escape_text (s : string) : string :=
  match s with
  | EmptyString => EmptyString
  | String c t =>
      (if Ascii.eqb c "&" then "&amp;"
       else if Ascii.eqb c "<" then "&lt;"
       else if Ascii.eqb c ">" then "&gt;"
       else String c "") +++ escape_text t
  end.

Fixpoint replace_char (c : ascii) (by_ : string) (s : string) : string :=
  match s with
  | EmptyString => EmptyString
  | String d t => (if Ascii.eqb c d then by_ else String d "") +++ replace_char c by_ t
  end.

Definition dquote : string := String (ascii_of_nat 34) "".
Definition squote : string := String (ascii_of_nat 39) "".

(** An attribute value is double-quoted, unless it holds a double quote. *)
Definition quoted_attribute_value (v : string) : string :=
  if contains dquote v then
    if contains squote v
    then dquote +++ replace_char (ascii_of_nat 34) "&quot;" v +++ dquote
    else squote +++ v +++ squote
  else dquote +++ v +++ dquote.

Definition render_attr (kv : string * string) : string :=
  " " +++ fst kv +++ "=" +++ quoted_attribute_value (escape_text (snd kv)).

(** The formatter writes the attributes sorted by name. *)
Fixpoint insert_attr (kv : string * string) (l : attrs) : attrs :=
  match l with
  | [] => [kv]
  | kv' :: rest =>
      if String.leb (fst kv) (fst kv') then kv :: l else kv' :: insert_attr kv rest
  end.

Definition sorted_attrs (a : attrs) : attrs := fold_right insert_attr [] a.

(** Tags written [<br/>] when they have no contents. *)
Definition void_tags : list string :=
  ["area"; "base"; "br"; "col"; "embed"; "hr"; "img"; "input"; "keygen";
   "link"; "menuitem"; "meta"; "param"; "source"; "track"; "wbr";
   "basefont"; "bgsound"; "command"; "frame"; "image"; "isindex"; "nextid";
   "spacer"].

Definition is_void (tag : string) : bool := existsb (String.eqb tag) void_tags.

Fixpoint render (n : node) : string :=
  match n with
  | Text s => escape_text s
  | Comment s => "<!--" +++ s +++ "-->"
  | Elem tag a kids =>
      let open := "<" +++ tag +++ String.concat "" (map render_attr (sorted_attrs a)) in
      match kids with
      | [] => if is_void tag then open +++ "/>" else open +++ "></" +++ tag +++ ">"
      | _ => open +++ ">" +++ String.concat "" (map render kids) +++ "</" +++ tag +++ ">"
      end
  end.

(** [str(soup)] *)
Definition render_soup (doc : list node) : string :=
  String.concat "" (map render doc).

End Html.

Import Html.

(* ------------------------------------------------------------------ *)
(** ** Python dictionaries with string keys, in insertion order *)

Module Dict.

Definition dict := list (string * string).

(** [k in d] *)
Definition mem (k : string) (d : dict) : bool :=
  existsb (fun kv => String.eqb (fst kv) k) d.

(** [d[k] = v]: an existing key keeps its place. *)
Fixpoint set (k v : string) (d : dict) : dict :=
  match d with
  | [] => [(k, v)]
  | (k', v') :: rest =>
      if String.eqb k' k then (k', v) :: rest else (k', v') :: set k v rest
  end.

Definition keys (d : dict) : list string := map fst d.

(** [bool(d)] *)
Definition nonempty (d : dict) : bool :=
  match d with [] => false | _ => true end.

End Dict.

(* ------------------------------------------------------------------ *)
(** ** A reference HTML parser

    [html.parser] is a collaborator of the program, not part of it: the
    model takes the parser as a parameter.  [parse_html] is an instance for
    well-formed markup (tags, quoted attributes, comments, the entities the
    serialiser writes), used to run the model on concrete pages. *)

Module Parser.

Inductive token : Type :=
| TkText (s : string)
| TkComment (s : string)
| TkOpen (tag : string) (a : attrs) (selfclose : bool)
| TkClose (tag : string).

(** The text before the first occurrence of [pat], and what follows it. *)
Fixpoint split_at (pat : string) (s : string) : option (string * string) :=
  if prefix pat s then Some ("", drop (String.length pat) s)
  else match s with
       | EmptyString => None
       | String c t =>
           match split_at pat t with
           | Some (a, b) => Some (String c a, b)
           | None => None
           end
       end.

Definition entities : list (string * string) :=
  [("&amp;", "&"); ("&lt;", "<"); ("&gt;", ">"); ("&quot;", dquote)].

Fixpoint entity_at (l : list (string * string)) (s : string) : option (nat * string) :=
  match l with
  | [] => None
  | (e, c) :: rest =>
      if prefix e s then Some (String.length e, c) else entity_at rest s
  end.

Fixpoint unescape_skip (skip : nat) (s : string) : string :=
  match s with
  | EmptyString => EmptyString
  | String c t =>
      match skip with
      | S k => unescape_skip k t
      | O =>
          match entity_at entities s with
          | Some (n, r) => r +++ unescape_skip (pred n) t
          | None => String c (unescape_skip 0 t)
          end
      end
  end.

Definition unescape (s : string) : string := unescape_skip 0 s.

Definition name_char (c : ascii) : bool :=
  negb (is_space c || Ascii.eqb c "=" || Ascii.eqb c "/").

(** The attributes written inside a start tag, after its name. *)
Fixpoint lex_attrs (fuel : nat) (s : string) : attrs :=
  match fuel with
  | O => []
  | S fuel' =>
      let s := lstrip s in
      let '(name, rest) := span name_char s in
      match name, rest with
      | EmptyString, EmptyString => []
      | EmptyString, String _ rest' => lex_attrs fuel' rest'
      | _, String "=" after =>
          match after with
          | String q body =>
              if Ascii.eqb q (ascii_of_nat 34) || Ascii.eqb q (ascii_of_nat 39) then
                match split_at (String q "") body with
                | Some (v, rest') => (lower name, unescape v) :: lex_attrs fuel' rest'
                | None => [(lower name, unescape body)]
                end
              else
                let '(v, rest') := span (fun c => negb (is_space c)) after in
                (lower name, unescape v) :: lex_attrs fuel' rest'
          | EmptyString => [(lower name, "")]
          end
      | _, _ => (lower name, "") :: lex_attrs fuel' rest
      end
  end.

Definition ends_with_slash (s : string) : bool :=
  match rstrip s with
  | EmptyString => false
  | r => String.eqb (drop (pred (String.length r)) r) "/"
  end.

Fixpoint lex (fuel : nat) (s : string) : list token :=
  match fuel with
  | O => []
  | S fuel' =>
      match s with
      | EmptyString => []
      | String c t =>
          if prefix "<!--" s then
            match split_at "-->" (drop 4 s) with
            | Some (body, rest) => TkComment body :: lex fuel' rest
            | None => [TkText (unescape s)]
            end
          else if prefix "</" s then
            match split_at ">" (drop 2 s) with
            | Some (name, rest) => TkClose (lower (strip name)) :: lex fuel' rest
            | None => [TkText (unescape s)]
            end
          else if Ascii.eqb c "<" &&
                  match t with String d _ => is_alpha d | _ => false end then
            match split_at ">" t with
            | Some (inside, rest) =>
                let '(name, atts) := span name_char inside in
                TkOpen (lower name) (lex_attrs (S (String.length atts)) atts)
                  (ends_with_slash inside)
                  :: lex fuel' rest
            | None => [TkText (unescape s)]
            end
          else
            let '(txt, rest) := span (fun d => negb (Ascii.eqb d "<")) t in
            TkText (unescape (String c txt)) :: lex fuel' rest
      end
  end.

(** An open element: its name, its attributes, and the contents of its
    parent collected so far (latest first). *)
Definition frame : Type := string * attrs * list node.

Fixpoint close_all (stack : list frame) (cur : list node) : list node :=
  match stack with
  | [] => rev cur
  | (tag, a, up) :: rest => close_all rest (Elem tag a (rev cur) :: up)
  end.

Fixpoint build (toks : list token) (stack : list frame) (cur : list node) : list node :=
  match toks with
  | [] => close_all stack cur
  | TkText s :: r => build r stack (Text s :: cur)
  | TkComment s :: r => build r stack (Comment s :: cur)
  | TkOpen tag a selfclose :: r =>
      if selfclose || is_void tag
      then build r stack (Elem tag a [] :: cur)
      else build r ((tag, a, cur) :: stack) []
  | TkClose tag :: r =>
      match stack with
      | (tag', a, up) :: rest =>
          if String.eqb tag' tag
          then build r rest (Elem tag' a (rev cur) :: up)
          else build r stack cur
      | [] => build r stack cur
      end
  end.

Definition parse_html (s : string) : list node :=
  build (lex (S (String.length s)) s) [] [].

End Parser.

(* ------------------------------------------------------------------ *)
(** ** What the two scrapers share *)

(** [class Config]: the global flags, passed explicitly. *)
Record Config : Type := {
  INCLUDE_FOOTNOTES : bool;
  INCLUDE_CHAPTER_NOTES : bool;
  SIMPLE_CHAPTER_NAMES : bool;
  DEBUG_MODE : bool
}.

(** The exceptions the program raises or receives from its libraries. *)
Inductive exn : Type :=
| RequestException                 (* network failure or timeout of a GET *)
| HTTPError (status : Z)           (* [response.raise_for_status()] *)
| ValueError (msg : string)
| ValidationError (msg : string)
| EOFError.                        (* [input()] at the end of standard input *)

(** The outcome of a call that may raise. *)
Inductive result (A : Type) : Type :=
| Return (a : A)
| Raise (e : exn).
Arguments Return {A} a.
Arguments Raise {A} e.

(** What a GET gives: an exception of [requests], or a status and a body. *)
Inductive http_result : Type :=
| ConnectionFailed
| Response (status : Z) (text : string).

(** The remote site: the [k]-th GET of the run, for a URL, takes some time
    and gives a result. *)
Definition server : Type := nat -> string -> Q * http_result.

(** What the fetcher does to the outside world, in order. *)
Inductive event : Type :=
| LimiterSleep (d : Q)   (* [time.sleep] inside [RateLimiter.wait] *)
| Get (url : string)
| BackoffSleep (d : Q).  (* [time.sleep] of the retry loop *)

(** [response.raise_for_status()] raises for 4xx and 5xx. *)
Definition raises_for_status (status : Z) : bool :=
  ((400 <=? status) && (status <? 600))%Z.

(** The chapter tuple [(chapter_title, content, after_separator, footnotes)]. *)
Record chapter : Type := {
  ch_title : string;
  ch_content : string;
  ch_notes : list string;
  ch_footnotes : Dict.dict
}.

(** [deque(maxlen=10).append(x)] *)
Definition deque_append (x : Q) (d : list Q) : list Q :=
  if 10 <=? List.length d then tl d ++ [x] else d ++ [x].

(** [d[-1]] of a non-empty deque; [None] when it is empty. *)
Definition deque_last (d : list Q) : option Q :=
  match rev d with
  | [] => None
  | x :: _ => Some x
  end.

(** *** Linking and stripping footnote markers

    The loop is the same text in both files
    ([_format_chapter_content], and lines 143-158 of the separator-based
    [get_chapter_content]). *)

(** The linking loop changes the parsed paragraph in place, while it walks
    the list of elements that [find_all] returned before the first change.
    What the list holds are the objects themselves, so the elements of the
    tree carry an identity here: a number for those the parser made, none for
    the anchors the loop makes, to which nothing refers. *)
Module Live.

#[local] Unset Elimination Schemes.
Inductive obj : Type :=
| OText (s : string)
| OComment (s : string)
| OElem (id : option nat) (tag : string) (a : attrs) (kids : list obj).
#[local] Set Elimination Schemes.

(** The tree of an object, identities forgotten. *)
Fixpoint erase (o : obj) : node :=
  match o with
  | OText s => Text s
  | OComment s => Comment s
  | OElem _ tag a kids => Elem tag a (map erase kids)
  end.

(** [o.text] *)
Definition otext (o : obj) : string := node_text (erase o).

Definition oid (o : obj) : option nat :=
  match o with
  | OElem id _ _ _ => id
  | _ => None
  end.

(** An object and all below it, in document order. *)
Fixpoint subtree (o : obj) : list obj :=
  o :: match o with
       | OElem _ _ _ kids => flat_map subtree kids
       | _ => []
       end.

(** The identities in use at an object and below it. *)
Fixpoint names (o : obj) : list nat :=
  match o with
  | OElem id _ _ kids =>
      match id with Some i => [i] | None => [] end ++ flat_map names kids
  | _ => []
  end.

(** The objects of a freshly parsed document: the elements are numbered in
    document order. *)
Fixpoint number (next : nat) (n : node) : obj * nat :=
  match n with
  | Text s => (OText s, next)
  | Comment s => (OComment s, next)
  | Elem tag a kids =>
      let '(kids', next') :=
        (fix number_kids (l : list node) (k : nat) : list obj * nat :=
           match l with
           | [] => ([], k)
           | x :: r =>
               let '(x', k1) := number k x in
               let '(r', k2) := number_kids r k1 in
               (x' :: r', k2)
           end) kids (S next) in
      (OElem (Some next) tag a kids', next')
  end.

Fixpoint number_all (l : list node) (k : nat) : list obj * nat :=
  match l with
  | [] => ([], k)
  | x :: r =>
      let '(x', k1) := number k x in
      let '(r', k2) := number_all r k1 in
      (x' :: r', k2)
  end.

Definition objects (doc : list node) : list obj := fst (number_all doc 0).

(** [soup.find_all(names)]: the matching objects, in document order. *)
Definition find_all (tags : list string) (doc : list obj) : list obj :=
  filter (fun o => has_tag tags (erase o)) (flat_map subtree doc).

(** The object named [i], as it now is in the tree. *)
Fixpoint lookup (i : nat) (o : obj) : option obj :=
  match o with
  | OElem id _ _ kids =>
      if match id with Some j => j =? i | None => false end then Some o
      else
        (fix lookup_kids (l : list obj) : option obj :=
           match l with
           | [] => None
           | k :: r =>
               match lookup i k with
               | Some found => Some found
               | None => lookup_kids r
               end
           end) kids
  | _ => None
  end.

Fixpoint lookup_in (i : nat) (l : list obj) : option obj :=
  match l with
  | [] => None
  | k :: r =>
      match lookup i k with
      | Some found => Some found
      | None => lookup_in i r
      end
  end.

(** [sup.wrap(soup_p.new_tag('a', href=href))] for the object named [i]: a
    new anchor takes its place and holds it. *)
Fixpoint wrap (i : nat) (href : string) (o : obj) : obj :=
  match o with
  | OElem id tag a kids =>
      if match id with Some j => j =? i | None => false end
      then OElem None "a" [("href", href)] [o]
      else OElem id tag a (map (wrap i href) kids)
  | _ => o
  end.

(** [for sup in soup_p.find_all('sup'): ref_num = sup.text.strip();
    if ref_num in footnotes: sup.wrap(...)] *)
Definition link_step (footnotes : Dict.dict) (soup_p : list obj) (sup : obj)
    : list obj :=
  match oid sup with
  | Some i =>
      match lookup_in i soup_p with
      | Some live =>
          let ref_num := strip (otext live) in
          if Dict.mem ref_num footnotes
          then map (wrap i ("#footnote-" +++ ref_num)) soup_p
          else soup_p
      | None => soup_p
      end
  | None => soup_p
  end.

Definition link_loop (footnotes : Dict.dict) (soup_p : list obj) : list obj :=
  fold_left (link_step footnotes) (find_all ["sup"] soup_p) soup_p.

End Live.

(** What the loop amounts to, on one element and all below it: each [<sup>]
    whose trimmed text is a key of the table ends up as the only content of
    a new anchor ([link_loop_refines] below). *)
Fixpoint link_sups (footnotes : Dict.dict) (n : node) : node :=
  match n with
  | Elem tag a kids =>
      let e := Elem tag a (map (link_sups footnotes) kids) in
      let ref_num := strip (node_text n) in
      if String.eqb tag "sup" && Dict.mem ref_num footnotes
      then Elem "a" [("href", "#footnote-" +++ ref_num)] [e]
      else e
  | _ => n
  end.

Section Formatter.

(** [BeautifulSoup(_, 'html.parser')] *)
Variable html_parser : string -> list node.

Definition format_paragraph (cfg : Config) (footnotes : Dict.dict) (p : string) : string :=
  if INCLUDE_FOOTNOTES cfg then
    let soup_p := Live.objects (html_parser p) in
    render_soup (map Live.erase (Live.link_loop footnotes soup_p))
  else
    re_sub_delete false "<sup>" "</sup>" p.

Definition format_chapter_content (cfg : Config) (paragraphs : list string)
    (footnotes : Dict.dict) : string :=
  join (String newline "") (map (format_paragraph cfg footnotes) paragraphs).

End Formatter.

Definition scheme_char (c : ascii) : bool :=
  is_alpha c || is_digit c || Ascii.eqb c "+" || Ascii.eqb c "-" || Ascii.eqb c ".".

(** The leading characters [urlsplit] strips (C0 controls and space), and
    those it removes everywhere (tab, carriage return, newline). *)
Definition c0_or_space (c : ascii) : bool := nat_of_ascii c <=? 32.

Definition unsafe_url_char (c : ascii) : bool :=
  let n := nat_of_ascii c in (n =? 9) || (n =? 10) || (n =? 13).

Fixpoint lstrip_c0 (s : string) : string :=
  match s with
  | EmptyString => EmptyString
  | String c t => if c0_or_space c then lstrip_c0 t else s
  end.

Fixpoint remove_chars (f : ascii -> bool) (s : string) : string :=
  match s with
  | EmptyString => EmptyString
  | String c t => if f c then remove_chars f t else String c (remove_chars f t)
  end.

(** [urlparse(url)], as far as the scheme and the network location: the
    scheme is what precedes the first colon when it is a letter followed by
    scheme characters, the location what follows [//] up to the next [/],
    [?] or [#].  [None] stands for the [ValueError] raised when only one of
    the brackets of an IPv6 host is there.  (The checks of what stands
    between the brackets and of non-ASCII hosts are not modelled.) *)
Definition urlparse (url : string) : option (string * string) :=
  let url := remove_chars unsafe_url_char (lstrip_c0 url) in
  let '(before, after) := span (fun c => negb (Ascii.eqb c ":")) url in
  let '(scheme, rest) :=
    match before, after with
    | String c0 _, String _ after' =>
        if is_alpha c0 && String.eqb (snd (span scheme_char before)) ""
        then (lower before, after')
        else ("", url)
    | _, _ => ("", url)
    end in
  if prefix "//" rest then
    let netloc :=
      fst (span (fun c => negb (Ascii.eqb c "/" || Ascii.eqb c "?" || Ascii.eqb c "#"))
             (drop 2 rest)) in
    if xorb (contains "[" netloc) (contains "]" netloc) then None
    else Some (scheme, netloc)
  else Some (scheme, "").

(** [validate_url]: [all([result.scheme, result.netloc])], and [False] when
    [urlparse] raises. *)
Definition validate_url (url : string) : bool :=
  match urlparse url with
  | Some (scheme, netloc) => nonempty scheme && nonempty netloc
  | None => false
  end.

(* ------------------------------------------------------------------ *)
(** ** LightNovelScraper.py: the pattern-based variant *)

Module Main.

(** [ScraperConstants] *)
Definition MAX_RETRIES : nat := 3.
Definition DEFAULT_REQUESTS_PER_SECOND : Q := 20 # 1.

(** *** RateLimiter *)

Record RateLimiter : Type := {
  rate : Q;
  min_interval : Q;
  last_request_times : list Q;
  failed_attempts : nat
}.

(** [RateLimiter.__init__] *)
Definition new_limiter (requests_per_second : Q) : RateLimiter :=
  {| rate := requests_per_second;
     min_interval := (1 / requests_per_second)%Q;
     last_request_times := [];
     failed_attempts := 0 |}.

(** [min(300, (2 ** self.failed_attempts) - 1)] *)
Definition backoff_penalty (failed : nat) : Z :=
  Z.min 300 (2 ^ Z.of_nat failed - 1).

(** The [wait_time] that [wait] computes when called at time [now]. *)
Definition wait_time (now : Q) (rl : RateLimiter) : Q :=
  let base :=
    match deque_last (last_request_times rl) with
    | Some last =>
        let elapsed := (now - last)%Q in
        Qmax 0 (min_interval rl - elapsed)
    | None => 0%Q
    end in
  if 0 <? failed_attempts rl
  then (base + inject_Z (backoff_penalty (failed_attempts rl)))%Q
  else base.

(** [wait]: the time slept ([None] when [wait_time] is not positive) and
    the limiter afterwards. *)
Definition wait (now : Q) (rl : RateLimiter) : option Q * RateLimiter :=
  let w := wait_time now rl in
  (if Qlt_le_dec 0 w then Some w else None,
   {| rate := rate rl;
      min_interval := min_interval rl;
      last_request_times := deque_append now (last_request_times rl);
      failed_attempts := failed_attempts rl |}).

Definition record_failure (rl : RateLimiter) : RateLimiter :=
  {| rate := rate rl;
     min_interval := min_interval rl;
     last_request_times := last_request_times rl;
     failed_attempts := failed_attempts rl + 1 |}.

Definition record_success (rl : RateLimiter) : RateLimiter :=
  {| rate := rate rl;
     min_interval := min_interval rl;
     last_request_times := last_request_times rl;
     failed_attempts := 0 |}.

(** *** The classifier *)

(** [_is_chapter_number] *)
Definition is_chapter_number (text : string) : bool :=
  let text := strip text in
  existsb (fun pattern => pattern (lower text))
    [match_digits; match_chapter_digits; match_digits_dot].

(** [_is_note_or_message] *)
Definition is_note_or_message (text : string) (p_element : node) : bool :=
  let strong_elements := find_all ["strong"; "b"] p_element in
  existsb
    (fun strong =>
       let strong_text := lower (strip (node_text strong)) in
       existsb (fun note_type => contains note_type strong_text)
         ["translator's note"; "translator note"; "chapter note"; "t/n"; "note"])
    strong_elements
  ||
  let text_lower := lower text in
  existsb (fun pattern => contains pattern text_lower)
    ["t/n:"; "tn:"; "t/l:"; "tl:"; "translator's note:"; "translator note:";
     "chapter note:"; "chapter note by"; "thanks for playing"; "as always"].

(** The four lists [_process_content] builds.  ([found_separator] and
    [in_main_content] are written but never read, and are left out.) *)
Record scan : Type := {
  paragraphs : list string;
  after_separator : list string;
  footnotes : Dict.dict;
  debug_notes : list string
}.

Definition scan0 : scan :=
  {| paragraphs := []; after_separator := []; footnotes := []; debug_notes := [] |}.

(** The four branches of the paragraph loop. *)
Inductive kind : Type := StartNote | Footnote | EndNote | Other.

Definition classify (text : string) (p : node) : kind :=
  if startswith text "T/L:" || startswith text "T/N:" then StartNote
  else if existsb (startswith text)
            ["1."; "2."; "3."; "4."; "5."; "6."; "7."; "8."; "9."]
          && contains ":" text then Footnote
  else if contains "T/N:" text || contains "Chapter Note:" text
          || contains "Thanks for playing" text || contains "As always" text
          || is_note_or_message text p then EndNote
  else Other.

(** One turn of [for p in content_div.find_all('p')]. *)
Definition scan_step (cfg : Config) (st : scan) (p : node) : scan :=
  let text := strip (node_text p) in
  if negb (nonempty text) then st
  else
    match classify text p with
    | StartNote =>
        {| paragraphs := paragraphs st;
           after_separator :=
             if INCLUDE_CHAPTER_NOTES cfg then after_separator st ++ [render p]
             else after_separator st;
           footnotes := footnotes st;
           debug_notes := debug_notes st ++ ["Start note: " +++ render p] |}
    | Footnote =>
        {| paragraphs := paragraphs st;
           after_separator := after_separator st;
           footnotes :=
             if INCLUDE_FOOTNOTES cfg
             then Dict.set (before_char "." text) text (footnotes st)
             else footnotes st;
           debug_notes := debug_notes st ++ ["Footnote: " +++ text] |}
    | EndNote =>
        {| paragraphs := paragraphs st;
           after_separator :=
             if INCLUDE_CHAPTER_NOTES cfg then after_separator st ++ [render p]
             else after_separator st;
           footnotes := footnotes st;
           debug_notes := debug_notes st ++ ["End note: " +++ render p] |}
    | Other =>
        if negb (is_chapter_number text)
        then {| paragraphs := paragraphs st ++ [render p];
                after_separator := after_separator st;
                footnotes := footnotes st;
                debug_notes := debug_notes st |}
        else st
    end.

(** The selectors [_clean_html_content] removes. *)
Definition ad_selectors : list selector :=
  [SelTag "script"; SelClass "CTGIiSmv"; SelClass "L-MHncuP";
   SelClass "vm-placement"; SelTagAttr "div" "data-defid";
   SelTagAttr "div" "data-mobid"].

Section WithParser.

Variable html_parser : string -> list node.

(** [_clean_html_content] *)
Definition clean_html_content (content_div : node) : list node :=
  let content_str := render content_div in
  let content_str := re_sub_delete true "<!--sse-->" "<!--/sse-->" content_str in
  let soup := html_parser content_str in
  fold_left (fun doc sel => decompose_soup sel doc) ad_selectors soup.

(** [_process_content] *)
Definition process_content (cfg : Config) (content_div : node) : scan :=
  let content_div := clean_html_content content_div in
  fold_left (scan_step cfg) (soup_find_all ["p"] content_div) scan0.

(** [_process_chapter_title] *)
Definition process_chapter_title (cfg : Config) (title_elem : option node)
    (url : string) : option string :=
  match title_elem with
  | None => None
  | Some el =>
      if SIMPLE_CHAPTER_NAMES cfg then
        match search_chapter_number url with
        | Some num => Some ("Chapter " +++ num)
        | None => Some (strip (node_text el))
        end
      else Some (strip (node_text el))
  end.

(** The body of the [try] block of one attempt, after the GET came back:
    the chapter, or the exception raised. *)
Definition attempt_body (cfg : Config) (url : string) (got : http_result)
    : exn + chapter :=
  match got with
  | ConnectionFailed => inl RequestException
  | Response status text =>
      if raises_for_status status then inl (HTTPError status)
      else if negb (nonempty (strip text)) then
        inl (ValueError "Empty response received")
      else
        let soup := html_parser text in
        let title_elem := find_by_class "span" "chapter-title" soup in
        match process_chapter_title cfg title_elem url with
        | None | Some EmptyString => inl (ValueError "Chapter title not found")
        | Some chapter_title =>
            match find_by_id "div" "chapter-container" soup with
            | None => inl (ValueError "Content container not found")
            | Some content_div =>
                let r := process_content cfg content_div in
                if List.length (paragraphs r) =? 0 then
                  inl (ValueError "No valid content found")
                else
                  let content :=
                    format_chapter_content html_parser cfg (paragraphs r) (footnotes r) in
                  inr {| ch_title := chapter_title;
                         ch_content := content;
                         ch_notes := after_separator r;
                         ch_footnotes := footnotes r |}
            end
        end
  end.

(** The scraper object and the world it acts on. *)
Record state : Type := {
  rate_limiter : RateLimiter;
  clock : Q;              (* [datetime.now()], in seconds *)
  gets : nat;             (* GETs issued so far *)
  trace : list event
}.

Definition sleep (ev : Q -> event) (d : Q) (st : state) : state :=
  {| rate_limiter := rate_limiter st;
     clock := (clock st + d)%Q;
     gets := gets st;
     trace := trace st ++ [ev d] |}.

Definition with_limiter (f : RateLimiter -> RateLimiter) (st : state) : state :=
  {| rate_limiter := f (rate_limiter st);
     clock := clock st;
     gets := gets st;
     trace := trace st |}.

(** [self.rate_limiter.wait()] *)
Definition limiter_wait (st : state) : state :=
  let '(slept, rl) := wait (clock st) (rate_limiter st) in
  let st := with_limiter (fun _ => rl) st in
  match slept with
  | Some d => sleep LimiterSleep d st
  | None => st
  end.

Variable site : server.

(** [self.session.get(url, timeout=...)] *)
Definition http_get (url : string) (st : state) : http_result * state :=
  let '(latency, got) := site (gets st) url in
  (got, {| rate_limiter := rate_limiter st;
           clock := (clock st + latency)%Q;
           gets := S (gets st);
           trace := trace st ++ [Get url] |}).

(** [for attempt in range(MAX_RETRIES)], from the attempts still to make. *)
Fixpoint retry_loop (cfg : Config) (url : string) (attempts : list nat)
    (st : state) : option chapter * state :=
  match attempts with
  | [] => (None, st)
  | attempt :: rest =>
      let st := limiter_wait st in
      let '(got, st) := http_get url st in
      match attempt_body cfg url got with
      | inr ch => (Some ch, with_limiter record_success st)
      | inl _ =>
          let st := with_limiter record_failure st in
          if attempt <? MAX_RETRIES - 1
          then retry_loop cfg url rest
                 (sleep BackoffSleep (inject_Z (Z.of_nat ((attempt + 1) * 5))) st)
          else (None, st)
      end
  end.

(** [get_chapter_content]; [None] is the tuple [(None, None, None, None)]. *)
Definition get_chapter_content (cfg : Config) (url : string) (st : state)
    : result (option chapter) * state :=
  if negb (validate_url url) then (Raise (ValidationError "Invalid chapter URL"), st)
  else
    let '(r, st) := retry_loop cfg url (seq 0 MAX_RETRIES) st in
    (Return r, st).

End WithParser.

(** *** The command line and the prompts *)

(** [argparse.Namespace] of [parse_arguments]; an option not given is
    [None] (a flag: [false]). *)
Record Args : Type := {
  arg_url : option string;
  arg_novel_id : option string;
  arg_start : option Z;
  arg_end : option Z;
  arg_title : option string;
  arg_debug : bool;
  arg_cover_url : option string;
  arg_author : option string;
  arg_translator : option string;
  arg_creator : option string;
  arg_simple_chapters : bool;
  arg_include_footnotes : bool;
  arg_include_notes : bool
}.

(** The dictionary [inputs]. *)
Record Inputs : Type := {
  base_url : string;
  novel_id : string;
  start_chapter : Z;
  end_chapter : Z;
  novel_title : string;
  cover_url : string;
  author : string;
  translator : string;
  created_by : string
}.

(** Code that reads standard input (the lines still to be read) and may
    raise. *)
Definition Console (A : Type) : Type := list string -> result A * list string.

Definition ret {A} (a : A) : Console A := fun stdin => (Return a, stdin).

Definition raise {A} (e : exn) : Console A := fun stdin => (Raise e, stdin).

Definition bind {A B} (c : Console A) (k : A -> Console B) : Console B :=
  fun stdin =>
    match c stdin with
    | (Return a, stdin') => k a stdin'
    | (Raise e, stdin') => (Raise e, stdin')
    end.

Notation "x <- c ;; k" := (bind c (fun x => k))
  (at level 61, c at next level, right associativity).

(** [input(prompt)] *)
Definition input : Console string :=
  fun stdin =>
    match stdin with
    | [] => (Raise EOFError, [])
    | line :: rest => (Return line, rest)
    end.

(** Truthiness of an optional string or integer argument. *)
Definition truthy_str (o : option string) : bool :=
  match o with Some s => nonempty s | None => false end.

Definition truthy_int (o : option Z) : bool :=
  match o with Some z => negb (z =? 0)%Z | None => false end.

Definition str_or (o : option string) (d : string) : string :=
  match o with Some s => s | None => d end.

Fixpoint digits_value (acc : Z) (s : string) : Z :=
  match s with
  | EmptyString => acc
  | String c t => digits_value (10 * acc + Z.of_nat (nat_of_ascii c - 48))%Z t
  end.

(** [int(s)] for decimal text: surrounding whitespace, an optional sign,
    digits (digit-group underscores are not modelled); [None] stands for the
    [ValueError]. *)
Definition parse_int (s : string) : option Z :=
  let s := strip s in
  let '(sign, body) :=
    match s with
    | String "-" t => ((-1)%Z, t)
    | String "+" t => (1%Z, t)
    | _ => (1%Z, s)
    end in
  let '(d, rest) := span is_digit body in
  if nonempty d && String.eqb rest "" then Some (sign * digits_value 0 d)%Z else None.

(** [get_yes_no_input] *)
Definition get_yes_no_input (default : bool) : Console bool :=
  line <- input ;;
  let response := lower (strip line) in
  if negb (nonempty response) then ret default
  else ret (startswith response "y").

(** [get_optional_input(prompt, default=...)], called without [arg_value]. *)
Definition get_optional_input (default : string) : Console string :=
  line <- input ;;
  let response := strip line in
  ret (if nonempty response then response else default).

(** One optional setting of [get_user_input], asked for when the argument
    was not given. *)
Definition optional_setting (arg : option string) (default : string)
    (otherwise : string) : Console string :=
  match arg with
  | None =>
      yes <- get_yes_no_input false ;;
      if yes then get_optional_input default else ret otherwise
  | Some v => ret v
  end.

(** [get_user_input]: the inputs and the flags it stores in [Config]. *)
Definition get_user_input (args : Args) (cfg : Config) : Console (Inputs * Config) :=
  base <-
    (if truthy_str (arg_url args) then ret (str_or (arg_url args) "")
     else line <- input ;; ret (strip line)) ;;
  if negb (nonempty base) then raise (ValidationError "Base URL cannot be empty") else
  let base := if String.eqb (drop (pred (String.length base)) base) "/"
              then base else base +++ "/" in
  novel <-
    (if truthy_str (arg_novel_id args) then ret (str_or (arg_novel_id args) "")
     else line <- input ;; ret (strip line)) ;;
  if negb (nonempty novel) then raise (ValidationError "Novel ID cannot be empty") else
  bounds <-
    (if truthy_int (arg_start args) && truthy_int (arg_end args) then
       ret (match arg_start args with Some z => z | None => 0%Z end,
            match arg_end args with Some z => z | None => 0%Z end)
     else
       line1 <- input ;;
       match parse_int line1 with
       | None => raise (ValidationError "Please enter valid chapter numbers")
       | Some start =>
           line2 <- input ;;
           match parse_int line2 with
           | None => raise (ValidationError "Please enter valid chapter numbers")
           | Some stop =>
               if (stop <? start)%Z then
                 raise (ValidationError
                          "Start chapter cannot be greater than end chapter")
               else ret (start, stop)
           end
       end) ;;
  title <-
    (if truthy_str (arg_title args) then ret (str_or (arg_title args) "")
     else line <- input ;; ret (strip line)) ;;
  if negb (nonempty title) then raise (ValidationError "Novel title cannot be empty") else
  opt <-
    (if truthy_str (arg_cover_url args) && truthy_str (arg_author args)
        && truthy_str (arg_translator args) && truthy_str (arg_creator args)
     then ret (str_or (arg_cover_url args) "", str_or (arg_author args) "",
               str_or (arg_translator args) "", str_or (arg_creator args) "")
     else
       cover <- optional_setting (arg_cover_url args) "" "" ;;
       auth <- optional_setting (arg_author args) "" "" ;;
       trans <- optional_setting (arg_translator args) "" "" ;;
       creator <- optional_setting (arg_creator args) "LightNovelScraper"
                    "LightNovelScraper" ;;
       ret (cover, auth, trans, creator)) ;;
  cfg' <-
    (if negb (arg_simple_chapters args || arg_include_footnotes args
              || arg_include_notes args) then
       simple <- get_yes_no_input false ;;
       foot <- get_yes_no_input false ;;
       notes <- get_yes_no_input false ;;
       ret {| INCLUDE_FOOTNOTES := foot; INCLUDE_CHAPTER_NOTES := notes;
              SIMPLE_CHAPTER_NAMES := simple; DEBUG_MODE := DEBUG_MODE cfg |}
     else
       ret {| INCLUDE_FOOTNOTES := arg_include_footnotes args;
              INCLUDE_CHAPTER_NOTES := arg_include_notes args;
              SIMPLE_CHAPTER_NAMES := arg_simple_chapters args;
              DEBUG_MODE := DEBUG_MODE cfg |}) ;;
  let '(cover, auth, trans, creator) := opt in
  ret ({| base_url := base; novel_id := novel;
          start_chapter := fst bounds; end_chapter := snd bounds;
          novel_title := title; cover_url := cover; author := auth;
          translator := trans; created_by := creator |}, cfg').

(** *** The driver *)

(** [str(n)] of an integer. *)
Definition string_of_Z (n : Z) : string := NilZero.string_of_int (Z.to_int n).

(** [range(start, stop)] *)
Definition zrange (start stop : Z) : list Z :=
  map (fun i => (start + Z.of_nat i)%Z) (seq 0 (Z.to_nat (stop - start))).

(** [ProgressTracker], without its display. *)
Record Progress : Type := {
  total : Z;
  current : nat;
  success : nat;
  failures : nat
}.

Definition progress_update (ok : bool) (p : Progress) : Progress :=
  {| total := total p;
     current := current p + 1;
     success := if ok then success p + 1 else success p;
     failures := if ok then failures p else failures p + 1 |}.

(** What the chapter loop accumulates: the chapters kept, the tracker, and
    the numbers of the chapters it warned about. *)
Record run : Type := {
  chapters_data : list chapter;
  progress : Progress;
  warnings : list Z
}.

Definition chapter_url (inputs : Inputs) (chapter_num : Z) : string :=
  base_url inputs +++ novel_id inputs +++ "/chapter-" +++ string_of_Z chapter_num.

Section Driver.

Variable html_parser : string -> list node.
Variable site : server.

(** [for chapter_num in range(start, end + 1)] of [main]. *)
Fixpoint chapter_loop (cfg : Config) (inputs : Inputs) (nums : list Z)
    (acc : run) (st : state) : result run * state :=
  match nums with
  | [] => (Return acc, st)
  | chapter_num :: rest =>
      let url := chapter_url inputs chapter_num in
      match get_chapter_content html_parser site cfg url st with
      | (Raise e, st) => (Raise e, st)
      | (Return got, st) =>
          let kept :=
            match got with
            | Some ch =>
                if nonempty (ch_title ch) && nonempty (ch_content ch)
                then Some ch else None
            | None => None
            end in
          match kept with
          | Some ch =>
              chapter_loop cfg inputs rest
                {| chapters_data := chapters_data acc ++ [ch];
                   progress := progress_update true (progress acc);
                   warnings := warnings acc |} st
          | None =>
              chapter_loop cfg inputs rest
                {| chapters_data := chapters_data acc;
                   progress := progress_update false (progress acc);
                   warnings := warnings acc ++ [chapter_num] |} st
          end
      end
  end.

(** How a run of [main] ends. *)
Inductive ending : Type :=
| Failed (e : exn)          (* [except Exception]: "Error: ..." *)
| AbortedByUser             (* the settings were not confirmed *)
| NoChapters                (* "No chapters were successfully scraped." *)
| Book (r : run).           (* the e-book is assembled from [r] *)

(** [main], from the parsed arguments to the point where the book is
    assembled.  The cover image is fetched with a plain GET; what becomes
    of the image does not matter here. *)
Definition main (args : Args) (stdin : list string) (st : state)
    : ending * state :=
  let cfg0 := {| INCLUDE_FOOTNOTES := false; INCLUDE_CHAPTER_NOTES := false;
                 SIMPLE_CHAPTER_NAMES := false; DEBUG_MODE := arg_debug args |} in
  match (got <- get_user_input args cfg0 ;;
         go <- get_yes_no_input true ;;
         ret (got, go)) stdin with
  | (Raise e, _) => (Failed e, st)
  | (Return (_, false), _) => (AbortedByUser, st)
  | (Return ((inputs, cfg), true), _) =>
      let tracker := {| total := (end_chapter inputs - start_chapter inputs + 1)%Z;
                        current := 0; success := 0; failures := 0 |} in
      let cover :=
        if nonempty (cover_url inputs) then
          if negb (validate_url (cover_url inputs))
          then (Raise (ValidationError "Invalid cover image URL"), st)
          else (Return tt, snd (http_get site (cover_url inputs) st))
        else (Return tt, st) in
      match cover with
      | (Raise e, st) => (Failed e, st)
      | (Return _, st) =>
          match chapter_loop cfg inputs
                  (zrange (start_chapter inputs) (end_chapter inputs + 1))
                  {| chapters_data := []; progress := tracker; warnings := [] |}
                  st with
          | (Raise e, st) => (Failed e, st)
          | (Return r, st) =>
              match chapters_data r with
              | [] => (NoChapters, st)
              | _ => (Book r, st)
              end
          end
      end
  end.

End Driver.

End Main.

(* ------------------------------------------------------------------ *)
(** ** lightnovelScraper_Simple.py: the separator-based variant *)

Module Simple.

Definition max_retries : nat := 3.

(** *** RateLimiter (no failure counter in this file) *)

Record RateLimiter : Type := {
  rate : Q;
  min_interval : Q;
  last_request_times : list Q
}.

Definition new_limiter (requests_per_second : Q) : RateLimiter :=
  {| rate := requests_per_second;
     min_interval := (1 / requests_per_second)%Q;
     last_request_times := [] |}.

(** [wait]: the time slept, if any, and the limiter afterwards. *)
Definition wait (now : Q) (rl : RateLimiter) : option Q * RateLimiter :=
  (match deque_last (last_request_times rl) with
   | Some last =>
       let elapsed := (now - last)%Q in
       if Qlt_le_dec elapsed (min_interval rl)
       then Some (Qmax 0 (min_interval rl - elapsed))
       else None
   | None => None
   end,
   {| rate := rate rl;
      min_interval := min_interval rl;
      last_request_times := deque_append now (last_request_times rl) |}).

(** *** The classifier: the paragraph loop of [get_chapter_content] *)

Record scan : Type := {
  paragraphs : list string;
  after_separator : list string;
  footnotes : Dict.dict;
  found_first_separator : bool;
  in_main_content : bool
}.

Definition scan0 : scan :=
  {| paragraphs := []; after_separator := []; footnotes := [];
     found_first_separator := false; in_main_content := true |}.

(** The footnote-return marker. *)
Definition return_marker : string := "↩".

(** [for ref in footnote_refs: if ref_num not in footnotes:
    footnotes[ref_num] = text] *)
Definition add_refs (text : string) (refs : list node) (d : Dict.dict) : Dict.dict :=
  fold_left
    (fun d ref =>
       let ref_num := strip (node_text ref) in
       if negb (Dict.mem ref_num d) then Dict.set ref_num text d else d)
    refs d.

(** One turn of [for p in content_div.find_all('p')]. *)
Definition scan_step (cfg : Config) (st : scan) (p : node) : scan :=
  let text := strip (node_text p) in
  if negb (nonempty text) then st
  else if String.eqb text "||" then
    if negb (found_first_separator st) then
      {| paragraphs := paragraphs st; after_separator := after_separator st;
         footnotes := footnotes st;
         found_first_separator := true;
         in_main_content := in_main_content st |}
    else
      {| paragraphs := paragraphs st; after_separator := after_separator st;
         footnotes := footnotes st;
         found_first_separator := found_first_separator st;
         in_main_content := false |}
  else if in_main_content st then
    {| paragraphs := paragraphs st ++ [render p];
       after_separator := after_separator st;
       footnotes := footnotes st;
       found_first_separator := found_first_separator st;
       in_main_content := in_main_content st |}
  else if contains return_marker text && INCLUDE_FOOTNOTES cfg then
    {| paragraphs := paragraphs st;
       after_separator := after_separator st;
       footnotes := add_refs text (find_all ["sup"] p) (footnotes st);
       found_first_separator := found_first_separator st;
       in_main_content := in_main_content st |}
  else if INCLUDE_CHAPTER_NOTES cfg then
    {| paragraphs := paragraphs st;
       after_separator := after_separator st ++ [text];
       footnotes := footnotes st;
       found_first_separator := found_first_separator st;
       in_main_content := in_main_content st |}
  else st.

(** The selector group of the clean-up. *)
Definition ad_selectors : list selector :=
  [SelTag "script"; SelTag "ins"; SelTag "iframe"; SelClass "adsbox";
   SelClass "ads"; SelClass "ad-container"; SelClass "aoyveLDZ";
   SelClass "vm-placement"; SelTagAttr "div" "data-defid"].

(** [for element in content_div.select(...): element.decompose()] *)
Definition clean (content_div : node) : node :=
  fold_left (fun n sel => decompose_in sel n) ad_selectors content_div.

(** The clean-up and the paragraph loop. *)
Definition classify_content (cfg : Config) (content_div : node) : scan :=
  fold_left (scan_step cfg) (find_all ["p"] (clean content_div)) scan0.

(** How one attempt ends: with an exception (caught by the loop), with the
    early [return None, None, None, None], or with the chapter. *)
Inductive attempt_end : Type :=
| Raised (e : exn)
| ReturnedNone
| Returned (ch : chapter).

Record state : Type := {
  rate_limiter : RateLimiter;
  clock : Q;
  gets : nat;
  trace : list event
}.

Definition sleep (ev : Q -> event) (d : Q) (st : state) : state :=
  {| rate_limiter := rate_limiter st;
     clock := (clock st + d)%Q;
     gets := gets st;
     trace := trace st ++ [ev d] |}.

(** [self.rate_limiter.wait()] *)
Definition limiter_wait (st : state) : state :=
  let '(slept, rl) := wait (clock st) (rate_limiter st) in
  let st := {| rate_limiter := rl; clock := clock st; gets := gets st;
               trace := trace st |} in
  match slept with
  | Some d => sleep LimiterSleep d st
  | None => st
  end.

Section WithParser.

Variable html_parser : string -> list node.

(** The body of the [try] block of one attempt, after the GET came back. *)
Definition attempt_body (cfg : Config) (url : string) (got : http_result)
    : attempt_end :=
  match got with
  | ConnectionFailed => Raised RequestException
  | Response status text =>
      if raises_for_status status then Raised (HTTPError status)
      else if negb (nonempty (strip text)) then
        Raised (ValueError "Empty response received from server")
      else
        let soup := html_parser text in
        let chapter_title :=
          match find_by_class "span" "chapter-title" soup with
          | Some title_elem =>
              if SIMPLE_CHAPTER_NAMES cfg then
                match search_chapter_number url with
                | Some chapter_num => Some ("Chapter " +++ chapter_num)
                | None => Some (strip (node_text title_elem))
                end
              else Some (strip (node_text title_elem))
          | None => None
          end in
        match chapter_title with
        | None | Some EmptyString => ReturnedNone
        | Some chapter_title =>
            match find_by_id "div" "chapter-container" soup with
            | None => ReturnedNone
            | Some content_div =>
                let r := classify_content cfg content_div in
                match paragraphs r with
                | [] => ReturnedNone
                | _ =>
                    Returned
                      {| ch_title := chapter_title;
                         ch_content :=
                           format_chapter_content html_parser cfg
                             (paragraphs r) (footnotes r);
                         ch_notes := after_separator r;
                         ch_footnotes := footnotes r |}
                end
            end
        end
  end.

Variable site : server.

(** [requests.get(url, ...)] *)
Definition http_get (url : string) (st : state) : http_result * state :=
  let '(latency, got) := site (gets st) url in
  (got, {| rate_limiter := rate_limiter st;
           clock := (clock st + latency)%Q;
           gets := S (gets st);
           trace := trace st ++ [Get url] |}).

(** [for attempt in range(self.max_retries)] *)
Fixpoint retry_loop (cfg : Config) (url : string) (attempts : list nat)
    (st : state) : option chapter * state :=
  match attempts with
  | [] => (None, st)
  | attempt :: rest =>
      let st := limiter_wait st in
      let '(got, st) := http_get url st in
      match attempt_body cfg url got with
      | Returned ch => (Some ch, st)
      | ReturnedNone => (None, st)
      | Raised _ =>
          if attempt <? max_retries - 1
          then retry_loop cfg url rest
                 (sleep BackoffSleep (inject_Z (Z.of_nat ((attempt + 1) * 5))) st)
          else (None, st)
      end
  end.

Definition get_chapter_content (cfg : Config) (url : string) (st : state)
    : option chapter * state :=
  retry_loop cfg url (seq 0 max_retries) st.

End WithParser.

End Simple.

(* ------------------------------------------------------------------ *)
(** ** Notions used in the statements *)

(** The durations of the retry loop's sleeps in a trace, in order. *)
Fixpoint backoff_sleeps (t : list event) : list Q :=
  match t with
  | [] => []
  | BackoffSleep d :: r => d :: backoff_sleeps r
  | _ :: r => backoff_sleeps r
  end.

(** The number of GETs in a trace. *)
Fixpoint count_gets (t : list event) : nat :=
  match t with
  | [] => 0
  | Get _ :: r => S (count_gets r)
  | _ :: r => count_gets r
  end.

(** A paragraph the loops look at: its trimmed text is not empty. *)
Definition nonblank (p : node) : bool := nonempty (strip (node_text p)).


(** A limiter as [__init__] builds it and the methods keep it. *)
Definition limiter_ok (rl : Main.RateLimiter) : Prop :=
  Main.min_interval rl = (1 / Main.rate rl)%Q.

(** The trimmed text of a paragraph, as both loops compute it. *)
Definition ptext (p : node) : string := strip (node_text p).

(** The paragraphs the pattern-based loop keeps as narrative, collects as
    notes when asked to, and reads as footnote definitions. *)
Definition main_is_narrative (p : node) : bool :=
  nonblank p &&
  match Main.classify (ptext p) p with
  | Main.Other => negb (Main.is_chapter_number (ptext p))
  | _ => false
  end.

Definition main_is_note (p : node) : bool :=
  nonblank p &&
  match Main.classify (ptext p) p with
  | Main.StartNote | Main.EndNote => true
  | _ => false
  end.

Definition main_is_footnote (p : node) : bool :=
  nonblank p &&
  match Main.classify (ptext p) p with
  | Main.Footnote => true
  | _ => false
  end.



(** The part of a scan state that decides what is narrative. *)
Definition simple_zone (st : Simple.scan) : list string * bool * bool :=
  (Simple.paragraphs st, Simple.found_first_separator st, Simple.in_main_content st).

(** A string of decimal digits. *)
Fixpoint all_digits (s : string) : bool :=
  match s with
  | EmptyString => true
  | String c t => is_digit c && all_digits t
  end.

(** How the pattern-based loop fills the footnote table from the paragraphs
    it reads as footnote definitions. *)
Definition main_footnote_table (ps : list node) : Dict.dict :=
  fold_left (fun d p => Dict.set (before_char "." (ptext p)) (ptext p) d)
    (filter main_is_footnote ps) [].


(** The flags, with naming and debugging off. *)
Definition flags (footnotes_on notes_on : bool) : Config :=
  {| INCLUDE_FOOTNOTES := footnotes_on; INCLUDE_CHAPTER_NOTES := notes_on;
     SIMPLE_CHAPTER_NAMES := false; DEBUG_MODE := false |}.

(** [<p>s</p>] *)
Definition para (s : string) : node := Elem "p" [] [Text s].

(** [<div id="chapter-container">...</div>] *)
Definition container (kids : list node) : node :=
  Elem "div" [("id", "chapter-container")] kids.

(** A [<sup>] whose trimmed text is a key of the footnote table: the
    condition under which the linking loop wraps it. *)
Definition known_sup (footnotes : Dict.dict) (n : node) : bool :=
  match n with
  | Elem tag _ _ => String.eqb tag "sup" && Dict.mem (ptext n) footnotes
  | _ => false
  end.


(** The [<sup>] elements at [n] and below it, in document order. *)
Definition sups (n : node) : list node :=
  filter (has_tag ["sup"]) (n :: descendants n).


(** An attempt of the pattern-based fetcher that ends in an exception. *)
Definition main_attempt_fails (html_parser : string -> list node) (cfg : Config)
    (url : string) (got : http_result) : bool :=
  match Main.attempt_body html_parser cfg url got with
  | inl _ => true
  | inr _ => false
  end.

(** A response that is fetched and parsed well, with a title and a content
    container, in which classification finds no narrative paragraph: for the
    pattern-based and for the separator-based fetcher. *)
Definition main_zero_narrative (html_parser : string -> list node) (cfg : Config)
    (url : string) (got : http_result) : bool :=
  match got with
  | ConnectionFailed => false
  | Response status text =>
      negb (raises_for_status status) && nonempty (strip text) &&
      let soup := html_parser text in
      match Main.process_chapter_title cfg
              (find_by_class "span" "chapter-title" soup) url,
            find_by_id "div" "chapter-container" soup with
      | Some (String _ _), Some content_div =>
          match Main.paragraphs (Main.process_content html_parser cfg content_div) with
          | [] => true
          | _ => false
          end
      | _, _ => false
      end
  end.

Definition simple_zero_narrative (html_parser : string -> list node) (cfg : Config)
    (url : string) (got : http_result) : bool :=
  match got with
  | ConnectionFailed => false
  | Response status text =>
      negb (raises_for_status status) && nonempty (strip text) &&
      let soup := html_parser text in
      match find_by_class "span" "chapter-title" soup,
            find_by_id "div" "chapter-container" soup with
      | Some title_elem, Some content_div =>
          nonempty
            (if SIMPLE_CHAPTER_NAMES cfg then
               match search_chapter_number url with
               | Some chapter_num => "Chapter " +++ chapter_num
               | None => strip (node_text title_elem)
               end
             else strip (node_text title_elem)) &&
          match Simple.paragraphs (Simple.classify_content cfg content_div) with
          | [] => true
          | _ => false
          end
      | _, _ => false
      end
  end.

(** The state in which a failed attempt of the pattern-based fetcher leaves
    things: after the limiter's wait, the GET and [record_failure]. *)
Definition main_failed_state (site : server) (url : string) (st : Main.state)
    : Main.state :=
  Main.with_limiter Main.record_failure
    (snd (Main.http_get site url (Main.limiter_wait st))).

(** What [RateLimiter.wait] adds to the trace, from a state of the
    pattern-based fetcher. *)
Definition main_limiter_events (st : Main.state) : list event :=
  match fst (Main.wait (Main.clock st) (Main.rate_limiter st)) with
  | Some d => [LimiterSleep d]
  | None => []
  end.

Definition is_limiter_sleep (e : event) : bool :=
  match e with LimiterSleep _ => true | _ => false end.

(** The duration of the retry loop's sleep after attempt number [attempt]. *)
Definition backoff_delay (attempt : nat) : Q :=
  inject_Z (Z.of_nat ((attempt + 1) * 5)).

(** What a run has added to the trace [t0] it started from, when it ends
    with the trace [t1]. *)
Definition events_since (t0 t1 : list event) : list event :=
  skipn (List.length t0) t1.

(** *** The linking loop seen from outside

    What the loop has done so far is a table of marks: the identity of each
    object it has wrapped, with the [href] of its anchor. *)

Definition marks : Type := list (nat * string).

Fixpoint mark_of (i : nat) (m : marks) : option string :=
  match m with
  | [] => None
  | (j, href) :: rest => if j =? i then Some href else mark_of i rest
  end.

(** The tree in which every marked object stands in its anchor. *)
Fixpoint wrap_marked (m : marks) (o : Live.obj) : Live.obj :=
  match o with
  | Live.OElem id tag a kids =>
      let e := Live.OElem id tag a (map (wrap_marked m) kids) in
      match id with
      | Some j =>
          match mark_of j m with
          | Some href => Live.OElem None "a" [("href", href)] [e]
          | None => e
          end
      | None => e
      end
  | _ => o
  end.

(** The marks the loop gives for a list of [<sup>] objects: one for each
    whose trimmed text is a key of the table. *)
Definition marks_of (footnotes : Dict.dict) (sups : list Live.obj) : marks :=
  flat_map
    (fun s =>
       match Live.oid s with
       | Some i =>
           if Dict.mem (strip (Live.otext s)) footnotes
           then [(i, "#footnote-" +++ strip (Live.otext s))]
           else []
       | None => []
       end)
    sups.

(** The identities of a list of objects, and those in use in a forest. *)
Definition ids_of (l : list Live.obj) : list nat :=
  flat_map (fun s => match Live.oid s with Some i => [i] | None => [] end) l.

Definition names_all (l : list Live.obj) : list nat := flat_map Live.names l.

(** Every element at [o] and below it has an identity. *)
Fixpoint all_named (o : Live.obj) : bool :=
  match o with
  | Live.OElem id _ _ kids =>
      match id with Some _ => true | None => false end && forallb all_named kids
  | _ => true
  end.

(** The [<sup>] objects at [o] and below it, in document order. *)
Definition live_sups (o : Live.obj) : list Live.obj :=
  filter (fun x => has_tag ["sup"] (Live.erase x)) (Live.subtree o).

(** The marks of the [<sup>] objects of a tree give the tree that
    [link_sups] describes, when the tree names every element once. *)
Definition marks_done (footnotes : Dict.dict) (o : Live.obj) : Prop :=
  NoDup (Live.names o) -> all_named o = true ->
  Live.erase (wrap_marked (marks_of footnotes (live_sups o)) o)
  = link_sups footnotes (Live.erase o).

(** *** Pages used as examples *)

(** A translator's note in bold, a footnote definition and one line of
    story. *)
Definition page_notes : node :=
  container
    [Elem "p" [] [Elem "strong" [] [Text "Translator's Note"]; Text ": hello"];
     para "1. word: meaning";
     para "The story begins."].

(** A chapter laid out with the [||] separators. *)
Definition page_separators : node :=
  container
    [para "Translated by X"; para "||"; para "Body"; para "||"; para "Thanks"].

(** The paragraph [<p>text<sup>1</sup></p>], as markup and as a tree. *)
Definition marked_markup : string := "<p>text<sup>1</sup></p>".

Definition marked_paragraph : node :=
  Elem "p" [] [Text "text"; Elem "sup" [] [Text "1"]].

(** [<a href="#footnote-1"><sup>1</sup></a>] *)
Definition linked_marker : string :=
  "<a href=" +++ dquote +++ "#footnote-1" +++ dquote +++ "><sup>1</sup></a>".



(** A page with a title and a content container that holds no paragraph. *)
Definition empty_page : string :=
  "<span class='chapter-title'>Chapter 2</span><div id='chapter-container'><div class='vm-placement'><p>advert</p></div></div>".

(** A page with one paragraph of story. *)
Definition story_page : string :=
  "<span class='chapter-title'>Chapter 1</span><div id='chapter-container'><p>Once upon a time.</p></div>".

(** Sites that answer every GET at once: with a given page, with a server
    error, and not at all. *)
Definition site_of (page : string) : server := fun _ _ => (0%Q, Response 200 page).

Definition site_error : server := fun _ _ => (0%Q, Response 503 "Service Unavailable").

Definition site_down : server := fun _ _ => (0%Q, ConnectionFailed).

(** The fetchers as their constructors leave them, at time 0. *)
Definition main_start : Main.state :=
  {| Main.rate_limiter := Main.new_limiter Main.DEFAULT_REQUESTS_PER_SECOND;
     Main.clock := 0%Q; Main.gets := 0; Main.trace := [] |}.

Definition simple_start : Simple.state :=
  {| Simple.rate_limiter := Simple.new_limiter (2 # 1)%Q;
     Simple.clock := 0%Q; Simple.gets := 0; Simple.trace := [] |}.

Definition good_url : string := "https://www.lightnovelworld.co/novel/abc/chapter-2".

(** Command lines: title, novel and bounds given, simple chapter names asked
    for (so that no flag is prompted for), the optional settings left to the
    prompts. *)
Definition args_for (url : string) (first last : Z) : Main.Args :=
  {| Main.arg_url := Some url;
     Main.arg_novel_id := Some "abc";
     Main.arg_start := Some first;
     Main.arg_end := Some last;
     Main.arg_title := Some "A Novel";
     Main.arg_debug := false;
     Main.arg_cover_url := None;
     Main.arg_author := None;
     Main.arg_translator := None;
     Main.arg_creator := None;
     Main.arg_simple_chapters := true;
     Main.arg_include_footnotes := false;
     Main.arg_include_notes := false |}.

(** The same without the bounds, which are then prompted for. *)
Definition args_without_bounds (url : string) : Main.Args :=
  {| Main.arg_url := Some url;
     Main.arg_novel_id := Some "abc";
     Main.arg_start := None;
     Main.arg_end := None;
     Main.arg_title := Some "A Novel";
     Main.arg_debug := false;
     Main.arg_cover_url := None;
     Main.arg_author := None;
     Main.arg_translator := None;
     Main.arg_creator := None;
     Main.arg_simple_chapters := true;
     Main.arg_include_footnotes := false;
     Main.arg_include_notes := false |}.

(** Answers at the prompts: no cover, author, translator or creator, and
    the settings confirmed. *)
Definition decline_and_confirm : list string := ["n"; "n"; "n"; "n"; ""].

(** [Config] as [main] has it when it calls [get_user_input]. *)
Definition config_at_start : Config :=
  {| INCLUDE_FOOTNOTES := false; INCLUDE_CHAPTER_NOTES := false;
     SIMPLE_CHAPTER_NAMES := false; DEBUG_MODE := false |}.

(** A site that serves [story_page] for chapter 1 and 3 and [empty_page]
    for chapter 2. *)
Definition site_with_gap : server :=
  fun _ url =>
    (0%Q, Response 200 (if contains "chapter-2" url then empty_page else story_page)).


(* ------------------------------------------------------------------ *)
(** ** The rest of the two programs: tracker display, e-book, second driver *)

(** [d.get(k)]: the value stored under [k], if any. *)
Fixpoint dict_get (k : string) (d : Dict.dict) : option string :=
  match d with
  | [] => None
  | (k', v) :: rest => if String.eqb k' k then Some v else dict_get k rest
  end.

(** [s * n]: the empty string when [n] is not positive. *)
Definition str_times (s : string) (n : Z) : string :=
  String.concat "" (repeat s (Z.to_nat n)).

(** [ProgressTracker._display_progress]: the bar between the two [|].
    [None] stands for the [ZeroDivisionError] of [self.current / self.total]
    when [total] is 0. *)
Definition progress_bar (p : Main.Progress) : option string :=
  if (Main.total p =? 0)%Z then None
  else
    let bar_length := 50%Z in
    let filled_length := (bar_length * Z.of_nat (Main.current p) / Main.total p)%Z in
    Some (str_times "=" filled_length +++ str_times "-" (bar_length - filled_length)).

(** [title.lower().replace(' ', '_')], of the book identifier and of the
    name of the file written. *)
Definition slug (title : string) : string := replace_char " " "_" (lower title).

(** [f'{idx:03d}'] for an index that is not negative. *)
Definition zfill3 (s : string) : string :=
  match String.length s with
  | 0 => "000" +++ s
  | 1 => "00" +++ s
  | 2 => "0" +++ s
  | _ => s
  end.

(** What both programs put into the book: the chapter documents. *)
Module Epub.

(** [epub.EpubHtml(title=..., file_name=..., lang='en')] with its content. *)
Record EpubHtml : Type := {
  title : string;
  file_name : string;
  content : string
}.

Definition quoted (s : string) : string := dquote +++ s +++ dquote.

(** [f'chap_{index:03d}.xhtml'] *)
Definition chapter_file (index : nat) : string :=
  "chap_" +++ zfill3 (Main.string_of_Z (Z.of_nat index)) +++ ".xhtml".

(** The paragraph written for one entry of the footnote table; the two
    files differ in the text of the return link. *)
Definition footnote_line (arrow : string) (kv : string * string) : string :=
  "<p id=" +++ quoted ("footnote-" +++ fst kv) +++ " class=" +++ quoted "footnote"
  +++ "><sup>" +++ fst kv +++ "</sup> " +++ snd kv
  +++ " <a href=" +++ quoted ("#ref-" +++ fst kv) +++ ">" +++ arrow +++ "</a></p>".

(** [EpubCreator._format_footnotes] *)
Definition format_footnotes (footnotes : Dict.dict) : list string :=
  ["<div class=" +++ quoted "footnotes" +++ ">"; "<hr/>"; "<h3>Footnotes</h3>"]
  ++ map (footnote_line "â†©") footnotes
  ++ ["</div>"].

(** [EpubCreator._format_chapter_notes]: the notes are written as they
    are. *)
Definition format_chapter_notes (notes : list string) : list string :=
  ["<div class=" +++ quoted "chapter-notes" +++ ">"; "<hr/>"; "<h3>Chapter Notes</h3>"]
  ++ notes
  ++ ["</div>"].

(** The list [chapter_content] of [EpubCreator.add_chapter]. *)
Definition chapter_lines (cfg : Config) (chapter_data : chapter) : list string :=
  ["<h1>" +++ ch_title chapter_data +++ "</h1>";
   "<div class=" +++ quoted "chapter-content" +++ ">";
   ch_content chapter_data]
  ++ (if INCLUDE_FOOTNOTES cfg && Dict.nonempty (ch_footnotes chapter_data)
      then format_footnotes (ch_footnotes chapter_data) else [])
  ++ (if INCLUDE_CHAPTER_NOTES cfg
         && match ch_notes chapter_data with [] => false | _ => true end
      then format_chapter_notes (ch_notes chapter_data) else [])
  ++ ["</div>"].

(** [EpubCreator.add_chapter] *)
Definition add_chapter (cfg : Config) (chapter_data : chapter) (index : nat)
    : EpubHtml :=
  {| title := ch_title chapter_data;
     file_name := chapter_file index;
     content := join (String newline "") (chapter_lines cfg chapter_data) |}.

(** [for idx, chapter_data in enumerate(chapters_data, 1)] of [main]. *)
Definition add_chapters (cfg : Config) (chapters_data : list chapter) : list EpubHtml :=
  map (fun ic => add_chapter cfg (snd ic) (fst ic))
    (combine (seq 1 (List.length chapters_data)) chapters_data).

(** An entry of the spine: the navigation document or a chapter. *)
Inductive spine_item : Type :=
| Nav
| Chapter (c : EpubHtml).

(** [self.book.spine = ['nav'] + chapters] *)
Definition spine (chapters : list EpubHtml) : list spine_item :=
  Nav :: map Chapter chapters.

(** The list [chapter_content] of the separator-based [create_epub]: each
    note is wrapped in a paragraph of its own. *)
Definition simple_chapter_lines (cfg : Config) (chapter_data : chapter) : list string :=
  ["<h1>" +++ ch_title chapter_data +++ "</h1>";
   "<div class=" +++ quoted "chapter-content" +++ ">";
   ch_content chapter_data]
  ++ (if INCLUDE_FOOTNOTES cfg && Dict.nonempty (ch_footnotes chapter_data)
      then ["<div class=" +++ quoted "footnotes" +++ ">"; "<hr/>"; "<h3>Footnotes</h3>"]
           ++ map (footnote_line Simple.return_marker) (ch_footnotes chapter_data)
           ++ ["</div>"]
      else [])
  ++ (if INCLUDE_CHAPTER_NOTES cfg
         && match ch_notes chapter_data with [] => false | _ => true end
         && (0 <? List.length (ch_notes chapter_data))
      then ["<div class=" +++ quoted "chapter-notes" +++ ">"; "<hr/>";
            "<h3>Chapter Notes</h3>"]
           ++ map (fun note => "<p class=" +++ quoted "note" +++ ">" +++ note +++ "</p>")
                (ch_notes chapter_data)
           ++ ["</div>"]
      else [])
  ++ ["</div>"].

(** The chapter documents of the separator-based [create_epub]. *)
Definition create_epub (cfg : Config) (chapters_data : list chapter) : list EpubHtml :=
  map (fun ic =>
         {| title := ch_title (snd ic);
            file_name := chapter_file (fst ic);
            content := join (String newline "") (simple_chapter_lines cfg (snd ic)) |})
    (combine (seq 1 (List.length chapters_data)) chapters_data).

End Epub.

(** *** [main] of the separator-based program *)

Module SimpleMain.

Local Notation "x <- c ;; k" := (Main.bind c (fun x => k))
  (at level 61, c at next level, right associativity).

(** [scraper.base_url] *)
Definition base_url : string := "https://www.lightnovelworld.co/novel/".

(** The flags as [main] reads them from [sys.argv]. *)
Definition config_of_argv (argv : list string) : Config :=
  {| INCLUDE_FOOTNOTES := negb (existsb (String.eqb "--no-footnotes") argv);
     INCLUDE_CHAPTER_NOTES := negb (existsb (String.eqb "--no-chapter-notes") argv);
     SIMPLE_CHAPTER_NAMES := existsb (String.eqb "--simple-chapters") argv;
     DEBUG_MODE := existsb (String.eqb "--debug") argv |}.

(** [try: c  except ValueError: handler] *)
Definition except_value_error {A : Type} (c handler : Main.Console A) : Main.Console A :=
  fun stdin =>
    match c stdin with
    | (Raise (ValueError _), stdin') => handler stdin'
    | r => r
    end.

(** [int(input(prompt))] *)
Definition int_input : Main.Console Z :=
  line <- Main.input ;;
  match Main.parse_int line with
  | Some z => Main.ret z
  | None => Main.raise (ValueError "invalid literal for int() with base 10")
  end.

Record Inputs : Type := {
  novel_id : string;
  start_chapter : Z;
  end_chapter : Z;
  novel_title : string
}.

(** The prompts of [main]. *)
Definition read_inputs : Main.Console Inputs :=
  line <- Main.input ;;
  let novel := strip line in
  if negb (nonempty novel) then Main.raise (ValueError "Novel ID cannot be empty") else
  bounds <-
    except_value_error
      (start <- int_input ;;
       stop <- int_input ;;
       if (stop <? start)%Z then
         Main.raise (ValueError "Start chapter cannot be greater than end chapter")
       else Main.ret (start, stop))
      (Main.raise (ValueError "Please enter valid chapter numbers")) ;;
  line <- Main.input ;;
  let title := strip line in
  if negb (nonempty title) then Main.raise (ValueError "Novel title cannot be empty") else
  Main.ret {| novel_id := novel; start_chapter := fst bounds;
              end_chapter := snd bounds; novel_title := title |}.

Definition chapter_url (novel : string) (chapter_num : Z) : string :=
  base_url +++ novel +++ "/chapter-" +++ Main.string_of_Z chapter_num.

(** What the chapter loop accumulates: the chapters kept, the two counters
    and the numbers of the chapters reported as failed. *)
Record run : Type := {
  chapters_data : list chapter;
  successful_requests : nat;
  total_requests : nat;
  failed : list Z
}.

Definition run0 : run :=
  {| chapters_data := []; successful_requests := 0; total_requests := 0; failed := [] |}.

Section Driver.

Variable html_parser : string -> list node.
Variable site : server.

(** [for chapter_num in range(start_chapter, end_chapter + 1)] *)
Fixpoint chapter_loop (cfg : Config) (novel : string) (nums : list Z)
    (acc : run) (st : Simple.state) : run * Simple.state :=
  match nums with
  | [] => (acc, st)
  | chapter_num :: rest =>
      let url := chapter_url novel chapter_num in
      let '(got, st) := Simple.get_chapter_content html_parser site cfg url st in
      let kept :=
        match got with
        | Some ch =>
            if nonempty (ch_title ch) && nonempty (ch_content ch)
            then Some ch else None
        | None => None
        end in
      match kept with
      | Some ch =>
          chapter_loop cfg novel rest
            {| chapters_data := chapters_data acc ++ [ch];
               successful_requests := successful_requests acc + 1;
               total_requests := total_requests acc + 1;
               failed := failed acc |} st
      | None =>
          chapter_loop cfg novel rest
            {| chapters_data := chapters_data acc;
               successful_requests := successful_requests acc;
               total_requests := total_requests acc + 1;
               failed := failed acc ++ [chapter_num] |} st
      end
  end.

(** How a run of [main] ends. *)
Inductive ending : Type :=
| Failed (e : exn)          (* [except Exception]: "Error: ..." *)
| NoChapters (r : run)      (* "No chapters were scraped successfully." *)
| Created (epub_filename : string) (book : list Epub.spine_item) (r : run).

(** [main], as far as the call of [epub.write_epub]. *)
Definition main (argv : list string) (stdin : list string) (st : Simple.state)
    : ending * Simple.state :=
  let cfg := config_of_argv argv in
  match read_inputs stdin with
  | (Raise e, _) => (Failed e, st)
  | (Return inputs, _) =>
      let '(r, st) :=
        chapter_loop cfg (novel_id inputs)
          (Main.zrange (start_chapter inputs) (end_chapter inputs + 1)) run0 st in
      match chapters_data r with
      | [] => (NoChapters r, st)
      | _ =>
          (Created (slug (novel_title inputs) +++ ".epub")
             (Epub.spine (Epub.create_epub cfg (chapters_data r))) r, st)
      end
  end.

End Driver.

End SimpleMain.

(** *** Notions used in the further statements *)

(** [RateLimiter.wait] called at each of the times of a list, in turn. *)
Definition main_waits (times : list Q) (rl : Main.RateLimiter) : Main.RateLimiter :=
  fold_left (fun rl now => snd (Main.wait now rl)) times rl.

(** The last [n] elements of a list. *)
Definition last_n {A : Type} (n : nat) (l : list A) : list A :=
  skipn (List.length l - n) l.

(** No element below [n], and no element of a document, matches one of the
    selectors. *)
Definition unmatched (sels : list selector) (k : node) : bool :=
  negb (existsb (fun sel => sel_matches sel k) sels).

Definition ad_free (sels : list selector) (n : node) : bool :=
  forallb (unmatched sels) (descendants n).

Definition soup_ad_free (sels : list selector) (doc : list node) : bool :=
  forallb (unmatched sels) (soup_nodes doc).

(** The text of a string is made of the characters [f] accepts. *)
Fixpoint all_chars (f : ascii -> bool) (s : string) : bool :=
  match s with
  | EmptyString => true
  | String c t => f c && all_chars f t
  end.

(** A chapter the drivers keep: title and content are not empty. *)
Definition kept_chapter (ch : chapter) : bool :=
  nonempty (ch_title ch) && nonempty (ch_content ch).


(** An attempt of the separator-based fetcher that ends in an exception. *)
Definition simple_attempt_raises (html_parser : string -> list node) (cfg : Config)
    (url : string) (got : http_result) : bool :=
  match Simple.attempt_body html_parser cfg url got with
  | Simple.Raised _ => true
  | _ => false
  end.

(** What is left below an element after the removal of a selector was
    there before, and was not matched. *)
Definition comes_from_before (sel : selector) (n : node) : Prop :=
  forall k, In k (descendants (decompose_in sel n)) ->
  exists d, In d (descendants n) /\ sel_matches sel d = false /\ k = decompose_in sel d.


(** A character that [urlsplit] takes as part of a path segment: no
    control character or space, and none of the delimiters. *)
Definition url_plain (c : ascii) : bool :=
  negb (c0_or_space c) &&
  negb (Ascii.eqb c ":" || Ascii.eqb c "/" || Ascii.eqb c "?" || Ascii.eqb c "#"
        || Ascii.eqb c "[" || Ascii.eqb c "]").

(** Whether [validate_url] accepts a URL made of [stem], a slash and one
    more path segment: the stem decides.  It must give a scheme and, after
    the colon, either one slash (the segment is then taken as the location)
    or two slashes and a location that is not empty. *)
Definition valid_before_segment (stem : string) : bool :=
  let u := remove_chars unsafe_url_char (lstrip_c0 stem) in
  let '(before, after) := span (fun c => negb (Ascii.eqb c ":")) u in
  match before, after with
  | String c0 _, String _ after' =>
      is_alpha c0 && String.eqb (snd (span scheme_char before)) "" &&
      match after' with
      | EmptyString => false
      | String c1 after'' =>
          Ascii.eqb c1 "/" &&
          match after'' with
          | EmptyString => true
          | String c2 after3 =>
              Ascii.eqb c2 "/" &&
              let netloc :=
                fst (span (fun c => negb (Ascii.eqb c "/" || Ascii.eqb c "?"
                                          || Ascii.eqb c "#")) after3) in
              negb (xorb (contains "[" netloc) (contains "]" netloc))
              && nonempty netloc
          end
      end
  | _, _ => false
  end.

(* ------------------------------------------------------------------ *)
(** ** RateLimiter *)

Lemma deque_last_snoc (d : list Q) (x : Q) : deque_last (d ++ [x]) = Some x.
Proof.
  unfold deque_last. rewrite rev_app_distr. reflexivity.
Qed.

Lemma deque_last_append (d : list Q) (x : Q) : deque_last (deque_append x d) = Some x.
Proof.
  unfold deque_append. destruct (10 <=? List.length d); apply deque_last_snoc.
Qed.

Lemma deque_append_bounded (d : list Q) (x : Q) :
  List.length d <= 10 -> List.length (deque_append x d) <= 10.
Proof.
  intros Hd. unfold deque_append.
  destruct (Nat.leb_spec 10 (List.length d)) as [Hfull | Hroom].
  - rewrite length_app. destruct d as [| y d']; simpl in *; lia.
  - rewrite length_app. simpl. lia.
Qed.

Lemma limiter_ok_new (r : Q) : limiter_ok (Main.new_limiter r).
Proof. reflexivity. Qed.

Lemma limiter_ok_wait (now : Q) (rl : Main.RateLimiter) :
  limiter_ok rl -> limiter_ok (snd (Main.wait now rl)).
Proof. unfold limiter_ok. simpl. auto. Qed.

Lemma limiter_ok_record (rl : Main.RateLimiter) :
  limiter_ok rl ->
  limiter_ok (Main.record_failure rl) /\ limiter_ok (Main.record_success rl).
Proof. unfold limiter_ok. simpl. auto. Qed.

(** The penalty is [2^n - 1] up to eight failures, and the cap afterwards. *)
Lemma backoff_penalty_cases (failed : nat) :
  (failed <= 8 -> Main.backoff_penalty failed = (2 ^ Z.of_nat failed - 1)%Z) /\
  (9 <= failed -> Main.backoff_penalty failed = 300%Z).
Proof.
  unfold Main.backoff_penalty. split; intros H.
  - apply Z.min_r.
    assert (2 ^ Z.of_nat failed <= 2 ^ 8)%Z
      by (apply Z.pow_le_mono_r; lia).
    change (2 ^ 8)%Z with 256%Z in *. lia.
  - apply Z.min_l.
    assert (2 ^ 9 <= 2 ^ Z.of_nat failed)%Z
      by (apply Z.pow_le_mono_r; lia).
    change (2 ^ 9)%Z with 512%Z in *. lia.
Qed.

Lemma backoff_penalty_pos (failed : nat) :
  0 < failed -> (1 <= Main.backoff_penalty failed <= 300)%Z.
Proof.
  intros H. unfold Main.backoff_penalty.
  assert (2 ^ 1 <= 2 ^ Z.of_nat failed)%Z by (apply Z.pow_le_mono_r; lia).
  change (2 ^ 1)%Z with 2%Z in *. lia.
Qed.

(** C5.  [RateLimiter.wait] computes [max(0, 1/rate - elapsed)], where
    [elapsed] is the time since the last recorded request (zero when none is
    recorded), plus [min(300, 2^failed_attempts - 1)] whenever the failure
    counter is positive; it sleeps that long when it is positive, and records
    the time of the call as the last request.  [record_success] sets the
    counter to zero and [record_failure] adds one to it. *)
Theorem C5_rate_limiter_contract (now : Q) (rl : Main.RateLimiter)
    (Hok : limiter_ok rl) :
  let base :=
    match deque_last (Main.last_request_times rl) with
    | Some last => Qmax 0 (1 / Main.rate rl - (now - last))
    | None => 0%Q
    end in
  let penalty :=
    if 0 <? Main.failed_attempts rl
    then inject_Z (Z.min 300 (2 ^ Z.of_nat (Main.failed_attempts rl) - 1))
    else 0%Q in
  (Main.wait_time now rl == base + penalty)%Q /\
  fst (Main.wait now rl) =
    (if Qlt_le_dec 0 (Main.wait_time now rl)
     then Some (Main.wait_time now rl) else None) /\
  deque_last (Main.last_request_times (snd (Main.wait now rl))) = Some now /\
  Main.failed_attempts (snd (Main.wait now rl)) = Main.failed_attempts rl /\
  Main.failed_attempts (Main.record_success rl) = 0 /\
  Main.failed_attempts (Main.record_failure rl) = Main.failed_attempts rl + 1.
Proof.
  intros base penalty. repeat split.
  - unfold Main.wait_time, base, penalty, Main.backoff_penalty.
    rewrite Hok.
    destruct (0 <? Main.failed_attempts rl).
    + reflexivity.
    + symmetry. apply Qplus_0_r.
  - simpl. apply deque_last_append.
Qed.

(** C5 at a limiter with one recorded request and two failures: 1/20 s
    after a request at time 10, the wait is 1/20 - 1/50 + 3 seconds. *)
Lemma C5_rate_limiter_contract_witness :
  let rl := {| Main.rate := (20 # 1)%Q; Main.min_interval := (1 / (20 # 1))%Q;
               Main.last_request_times := [(10 # 1)%Q];
               Main.failed_attempts := 2 |} in
  limiter_ok rl /\
  (Main.wait_time (501 # 50) rl == (1 # 20) - (1 # 50) + 3)%Q.
Proof.
  intros rl. split; [reflexivity |].
  destruct (C5_rate_limiter_contract (501 # 50) rl eq_refl) as [H _].
  rewrite H. vm_compute. reflexivity.
Defined.

(* ------------------------------------------------------------------ *)
(** ** The pattern-based classifier *)

Section MainScan.

Variable cfg : Config.

Ltac step_cases p :=
  unfold Main.scan_step, main_is_narrative, main_is_note, main_is_footnote,
    nonblank, ptext;
  destruct (nonempty (strip (node_text p))); simpl;
  [ destruct (Main.classify (strip (node_text p)) p); simpl;
    try destruct (Main.is_chapter_number (strip (node_text p))); simpl
  | ].

Lemma main_step_paragraphs (st : Main.scan) (p : node) :
  Main.paragraphs (Main.scan_step cfg st p) =
  Main.paragraphs st ++ (if main_is_narrative p then [render p] else []).
Proof. step_cases p; now rewrite ?app_nil_r. Qed.

Lemma main_step_notes (st : Main.scan) (p : node) :
  Main.after_separator (Main.scan_step cfg st p) =
  Main.after_separator st ++
    (if INCLUDE_CHAPTER_NOTES cfg && main_is_note p then [render p] else []).
Proof.
  step_cases p; destruct (INCLUDE_CHAPTER_NOTES cfg); simpl;
    now rewrite ?app_nil_r.
Qed.

Lemma main_step_footnotes (st : Main.scan) (p : node) :
  Main.footnotes (Main.scan_step cfg st p) =
  if INCLUDE_FOOTNOTES cfg && main_is_footnote p
  then Dict.set (before_char "." (ptext p)) (ptext p) (Main.footnotes st)
  else Main.footnotes st.
Proof.
  step_cases p; destruct (INCLUDE_FOOTNOTES cfg); reflexivity.
Qed.

Lemma main_scan_paragraphs (ps : list node) (st : Main.scan) :
  Main.paragraphs (fold_left (Main.scan_step cfg) ps st) =
  Main.paragraphs st ++ map render (filter main_is_narrative ps).
Proof.
  revert st. induction ps as [| p ps IH]; intros st; simpl.
  - now rewrite app_nil_r.
  - rewrite IH, main_step_paragraphs, <- app_assoc.
    destruct (main_is_narrative p); reflexivity.
Qed.

Lemma main_scan_notes (ps : list node) (st : Main.scan) :
  Main.after_separator (fold_left (Main.scan_step cfg) ps st) =
  Main.after_separator st ++
    (if INCLUDE_CHAPTER_NOTES cfg then map render (filter main_is_note ps) else []).
Proof.
  revert st. induction ps as [| p ps IH]; intros st; simpl.
  - destruct (INCLUDE_CHAPTER_NOTES cfg); now rewrite app_nil_r.
  - rewrite IH, main_step_notes, <- app_assoc.
    destruct (INCLUDE_CHAPTER_NOTES cfg); simpl; [| reflexivity].
    destruct (main_is_note p); reflexivity.
Qed.

Lemma main_scan_footnotes (ps : list node) (st : Main.scan) :
  Main.footnotes (fold_left (Main.scan_step cfg) ps st) =
  if INCLUDE_FOOTNOTES cfg
  then fold_left
         (fun d p => Dict.set (before_char "." (ptext p)) (ptext p) d)
         (filter main_is_footnote ps) (Main.footnotes st)
  else Main.footnotes st.
Proof.
  revert st. induction ps as [| p ps IH]; intros st; simpl.
  - destruct (INCLUDE_FOOTNOTES cfg); reflexivity.
  - rewrite IH, main_step_footnotes.
    destruct (INCLUDE_FOOTNOTES cfg); simpl; [| reflexivity].
    destruct (main_is_footnote p); reflexivity.
Qed.

Lemma main_step_debug_notes (cfg' : Config) (st st' : Main.scan) (p : node) :
  Main.debug_notes st = Main.debug_notes st' ->
  Main.debug_notes (Main.scan_step cfg st p) =
  Main.debug_notes (Main.scan_step cfg' st' p).
Proof.
  intros H. unfold Main.scan_step.
  destruct (nonempty (strip (node_text p))); simpl; [| exact H].
  destruct (Main.classify (strip (node_text p)) p); simpl;
    try (now rewrite H).
  destruct (Main.is_chapter_number (strip (node_text p))); simpl; exact H.
Qed.

Lemma main_scan_debug_notes (cfg' : Config) (ps : list node) (st st' : Main.scan) :
  Main.debug_notes st = Main.debug_notes st' ->
  Main.debug_notes (fold_left (Main.scan_step cfg) ps st) =
  Main.debug_notes (fold_left (Main.scan_step cfg') ps st').
Proof.
  revert st st'. induction ps as [| p ps IH]; intros st st' H; simpl.
  - exact H.
  - apply IH, main_step_debug_notes, H.
Qed.

End MainScan.

(* ------------------------------------------------------------------ *)
(** ** The separator-based classifier *)

Section SimpleScan.

Variable cfg : Config.







(** With a flag off, nothing is collected for it. *)
Lemma simple_step_flags_off (st : Simple.scan) (p : node) :
  (INCLUDE_CHAPTER_NOTES cfg = false ->
   Simple.after_separator (Simple.scan_step cfg st p) = Simple.after_separator st) /\
  (INCLUDE_FOOTNOTES cfg = false ->
   Simple.footnotes (Simple.scan_step cfg st p) = Simple.footnotes st).
Proof.
  unfold Simple.scan_step.
  destruct (nonempty (strip (node_text p))); simpl; [| auto].
  destruct (String.eqb (strip (node_text p)) "||"); simpl.
  { destruct (Simple.found_first_separator st); simpl; auto. }
  destruct (Simple.in_main_content st); simpl; [auto |].
  destruct (contains Simple.return_marker (strip (node_text p)));
    destruct (INCLUDE_FOOTNOTES cfg); destruct (INCLUDE_CHAPTER_NOTES cfg);
    simpl; split; intros H; try discriminate; reflexivity.
Qed.

Lemma simple_scan_flags_off (ps : list node) (st : Simple.scan) :
  (INCLUDE_CHAPTER_NOTES cfg = false ->
   Simple.after_separator (fold_left (Simple.scan_step cfg) ps st) =
   Simple.after_separator st) /\
  (INCLUDE_FOOTNOTES cfg = false ->
   Simple.footnotes (fold_left (Simple.scan_step cfg) ps st) = Simple.footnotes st).
Proof.
  revert st. induction ps as [| p ps IH]; intros st; simpl; [auto |].
  destruct (IH (Simple.scan_step cfg st p)) as [IHa IHf].
  destruct (simple_step_flags_off st p) as [Ha Hf].
  split; intros H; [rewrite IHa, Ha | rewrite IHf, Hf]; auto.
Qed.

(** What is narrative does not depend on the flags. *)
Lemma simple_step_zone (cfg' : Config) (st st' : Simple.scan) (p : node) :
  simple_zone st = simple_zone st' ->
  simple_zone (Simple.scan_step cfg st p) = simple_zone (Simple.scan_step cfg' st' p).
Proof.
  destruct st as [ps af fn found main], st' as [ps' af' fn' found' main'].
  unfold simple_zone. simpl. intros H. injection H as Hp Hf Hm. subst.
  unfold Simple.scan_step. simpl.
  destruct (nonempty (strip (node_text p))); simpl; [| reflexivity].
  destruct (String.eqb (strip (node_text p)) "||"); simpl.
  { destruct found'; reflexivity. }
  destruct main'; simpl; [reflexivity |].
  destruct (contains Simple.return_marker (strip (node_text p)));
    destruct (INCLUDE_FOOTNOTES cfg); destruct (INCLUDE_CHAPTER_NOTES cfg);
    destruct (INCLUDE_FOOTNOTES cfg'); destruct (INCLUDE_CHAPTER_NOTES cfg');
    reflexivity.
Qed.

Lemma simple_scan_zone (cfg' : Config) (ps : list node) (st st' : Simple.scan) :
  simple_zone st = simple_zone st' ->
  simple_zone (fold_left (Simple.scan_step cfg) ps st) =
  simple_zone (fold_left (Simple.scan_step cfg') ps st').
Proof.
  revert st st'. induction ps as [| p ps IH]; intros st st' H; simpl.
  - exact H.
  - apply IH, simple_step_zone, H.
Qed.

End SimpleScan.

(* ------------------------------------------------------------------ *)
(** ** Bare numbers *)















(* ------------------------------------------------------------------ *)
(** ** The flags and what is collected *)

(** C1 (amended).  The flags do not change what is narrative (nor, in the
    pattern-based variant, the debug notes), but they do gate collection: in
    the pattern-based variant the notes are the note paragraphs when
    INCLUDE_CHAPTER_NOTES is on and empty when it is off, and the footnote
    table is filled from the footnote definitions when INCLUDE_FOOTNOTES is on
    and empty when it is off; in the separator-based variant, too, a flag
    that is off leaves its collection empty. *)
Theorem C1_flags_gate_collection
    (html_parser : string -> list node) (cfg cfg' : Config) (content_div : node) :
  let ps := soup_find_all ["p"] (Main.clean_html_content html_parser content_div) in
  let r := Main.process_content html_parser cfg content_div in
  let r' := Main.process_content html_parser cfg' content_div in
  let s := Simple.classify_content cfg content_div in
  let s' := Simple.classify_content cfg' content_div in
  Main.paragraphs r = Main.paragraphs r' /\
  Main.debug_notes r = Main.debug_notes r' /\
  Main.after_separator r =
    (if INCLUDE_CHAPTER_NOTES cfg then map render (filter main_is_note ps) else []) /\
  Main.footnotes r =
    (if INCLUDE_FOOTNOTES cfg then main_footnote_table ps else []) /\
  Simple.paragraphs s = Simple.paragraphs s' /\
  (if INCLUDE_CHAPTER_NOTES cfg then True else Simple.after_separator s = []) /\
  (if INCLUDE_FOOTNOTES cfg then True else Simple.footnotes s = []).
Proof.
  intros ps r r' s s'. subst r r' s s'. unfold Main.process_content. fold ps.
  repeat split.
  - now rewrite !main_scan_paragraphs.
  - now apply main_scan_debug_notes.
  - now rewrite main_scan_notes.
  - now rewrite main_scan_footnotes.
  - unfold Simple.classify_content.
    pose proof (simple_scan_zone cfg cfg'
                  (find_all ["p"] (Simple.clean content_div))
                  Simple.scan0 Simple.scan0 eq_refl) as H.
    unfold simple_zone in H. congruence.
  - destruct (INCLUDE_CHAPTER_NOTES cfg) eqn:E; [exact I |].
    unfold Simple.classify_content.
    now rewrite (proj1 (simple_scan_flags_off cfg _ Simple.scan0) E).
  - destruct (INCLUDE_FOOTNOTES cfg) eqn:E; [exact I |].
    unfold Simple.classify_content.
    now rewrite (proj2 (simple_scan_flags_off cfg _ Simple.scan0) E).
Qed.

(** C1 as stated fails: on [page_notes] the classifier returns the note and
    the footnote with the flags on, and neither with the flags off. *)
Lemma C1_counterexample :
  let on := Main.process_content Parser.parse_html (flags true true) page_notes in
  let off := Main.process_content Parser.parse_html (flags false false) page_notes in
  Main.after_separator on = ["<p><strong>Translator's Note</strong>: hello</p>"] /\
  Main.footnotes on = [("1", "1. word: meaning")] /\
  Main.after_separator off = [] /\
  Main.footnotes off = [] /\
  Main.after_separator on <> Main.after_separator off /\
  Main.footnotes on <> Main.footnotes off.
Proof. repeat split; try reflexivity; vm_compute; discriminate. Qed.

(* ------------------------------------------------------------------ *)
(** ** The zones of the separator-based variant *)




(* ------------------------------------------------------------------ *)
(** ** Linking and stripping footnote markers *)

Lemma append_empty_r (s : string) : s +++ "" = s.
Proof. induction s; simpl; congruence. Qed.

Lemma append_assoc (a b c : string) : (a +++ b) +++ c = a +++ (b +++ c).
Proof. induction a; simpl; congruence. Qed.

(** Joining keeps the order of the pieces. *)
Lemma join_app (sep : string) (l1 l2 : list string) :
  l1 <> [] -> l2 <> [] ->
  join sep (l1 ++ l2) = join sep l1 +++ sep +++ join sep l2.
Proof.
  intros H1 H2. induction l1 as [| x l1 IH]; [contradiction |].
  destruct l1 as [| y l1].
  - simpl. destruct l2; [contradiction | reflexivity].
  - change (join sep ((x :: y :: l1) ++ l2))
      with (x +++ sep +++ join sep ((y :: l1) ++ l2)).
    rewrite IH by discriminate.
    change (join sep (x :: y :: l1)) with (x +++ sep +++ join sep (y :: l1)).
    now rewrite !append_assoc.
Qed.

Section Linking.

Variable footnotes : Dict.dict.

Local Abbreviation link := (link_sups footnotes).

Lemma link_elem (tag : string) (a : attrs) (kids : list node) :
  link (Elem tag a kids) =
  if known_sup footnotes (Elem tag a kids)
  then Elem "a" [("href", "#footnote-" +++ ptext (Elem tag a kids))]
         [Elem tag a (map link kids)]
  else Elem tag a (map link kids).
Proof. reflexivity. Qed.






End Linking.

(* ------------------------------------------------------------------ *)
(** ** The linking loop, in place *)

Section ObjInd.

Variable P : Live.obj -> Prop.
Hypothesis HText : forall s, P (Live.OText s).
Hypothesis HComment : forall s, P (Live.OComment s).
Hypothesis HElem : forall id tag a kids, Forall P kids -> P (Live.OElem id tag a kids).

Lemma obj_ind' (o : Live.obj) : P o.
Proof.
  revert o. fix IH 1. intros [s | s | id tag a kids].
  - apply HText.
  - apply HComment.
  - apply HElem. induction kids as [| k kids IHkids]; constructor.
    + apply IH.
    + exact IHkids.
Qed.

End ObjInd.

(** *** Numbering *)

Lemma number_elem (k : nat) (tag : string) (a : attrs) (kids : list node) :
  Live.number k (Elem tag a kids) =
  (Live.OElem (Some k) tag a (fst (Live.number_all kids (S k))),
   snd (Live.number_all kids (S k))).
Proof.
  cbn [Live.number].
  match goal with
  | |- (let '(kids', next') := ?f kids (S k) in _) = _ =>
      assert (H : forall l j, f l j = Live.number_all l j)
  end.
  { induction l as [| x r IHr]; intros j; [reflexivity |].
    cbn [Live.number_all]. destruct (Live.number j x) as [x' k1].
    rewrite IHr. reflexivity. }
  rewrite H. now destruct (Live.number_all kids (S k)).
Qed.

Lemma in_names_all (l : list Live.obj) (i : nat) :
  In i (names_all l) <-> exists k, In k l /\ In i (Live.names k).
Proof. unfold names_all. rewrite in_flat_map. reflexivity. Qed.

(** Numbering forgets nothing, names every element, and uses each number
    of a range once. *)
Lemma number_spec (n : node) (k : nat) :
  Live.erase (fst (Live.number k n)) = n /\
  all_named (fst (Live.number k n)) = true /\
  k <= snd (Live.number k n) /\
  (forall i, In i (Live.names (fst (Live.number k n))) ->
             k <= i < snd (Live.number k n)) /\
  NoDup (Live.names (fst (Live.number k n))).
Proof.
  revert k. induction n as [s | s | tag a kids IH] using node_ind'; intros k.
  - simpl. repeat split; auto; try contradiction. constructor.
  - simpl. repeat split; auto; try contradiction. constructor.
  - rewrite number_elem. cbn [fst snd Live.erase all_named Live.names].
    assert (Hall : forall j,
               map Live.erase (fst (Live.number_all kids j)) = kids /\
               forallb all_named (fst (Live.number_all kids j)) = true /\
               j <= snd (Live.number_all kids j) /\
               (forall i, In i (names_all (fst (Live.number_all kids j))) ->
                          j <= i < snd (Live.number_all kids j)) /\
               NoDup (names_all (fst (Live.number_all kids j)))).
    { induction IH as [| x r Hx _ IHr]; intros j.
      - simpl. repeat split; auto; try contradiction. constructor.
      - cbn [Live.number_all].
        destruct (Hx j) as (Ex & Nx & Lx & Rx & Dx).
        destruct (Live.number j x) as [x' k1]. cbn [fst snd] in *.
        destruct (IHr k1) as (Er & Nr & Lr & Rr & Dr).
        destruct (Live.number_all r k1) as [r' k2]. cbn [fst snd] in *.
        unfold names_all in *. cbn [map forallb flat_map].
        rewrite Ex, Er, Nx, Nr.
        split; [reflexivity |]. split; [reflexivity |]. split; [lia |]. split.
        + intros i Hi. apply in_app_iff in Hi. destruct Hi as [Hi | Hi].
          * apply Rx in Hi. lia.
          * apply Rr in Hi. lia.
        + apply NoDup_app; [exact Dx | exact Dr |].
          intros i Hi Hi'. apply Rx in Hi. apply Rr in Hi'. lia. }
    destruct (Hall (S k)) as (E & N & L & R & D).
    rewrite E, N. fold (names_all (fst (Live.number_all kids (S k)))).
    split; [reflexivity |]. split; [reflexivity |]. split; [lia |]. split.
    + intros i [Hi | Hi]; [lia |]. apply R in Hi. lia.
    + cbn [app]. constructor; [| exact D].
      intros Hi. apply R in Hi. lia.
Qed.

Lemma objects_spec (doc : list node) :
  map Live.erase (Live.objects doc) = doc /\
  forallb all_named (Live.objects doc) = true /\
  NoDup (names_all (Live.objects doc)).
Proof.
  unfold Live.objects.
  assert (Hall : forall j,
             map Live.erase (fst (Live.number_all doc j)) = doc /\
             forallb all_named (fst (Live.number_all doc j)) = true /\
             j <= snd (Live.number_all doc j) /\
             (forall i, In i (names_all (fst (Live.number_all doc j))) ->
                        j <= i < snd (Live.number_all doc j)) /\
             NoDup (names_all (fst (Live.number_all doc j)))).
  { induction doc as [| x r IHr]; intros j.
    - simpl. repeat split; auto; try contradiction. constructor.
    - cbn [Live.number_all].
      destruct (number_spec x j) as (Ex & Nx & Lx & Rx & Dx).
      destruct (Live.number j x) as [x' k1]. cbn [fst snd] in *.
      destruct (IHr k1) as (Er & Nr & Lr & Rr & Dr).
      destruct (Live.number_all r k1) as [r' k2]. cbn [fst snd] in *.
      unfold names_all in *. cbn [map forallb flat_map].
      rewrite Ex, Er, Nx, Nr.
      split; [reflexivity |]. split; [reflexivity |]. split; [lia |]. split.
      + intros i Hi. apply in_app_iff in Hi. destruct Hi as [Hi | Hi].
        * apply Rx in Hi. lia.
        * apply Rr in Hi. lia.
      + apply NoDup_app; [exact Dx | exact Dr |].
        intros i Hi Hi'. apply Rx in Hi. apply Rr in Hi'. lia. }
  destruct (Hall 0) as (E & N & _ & _ & D). auto.
Qed.

(** *** Marks *)

Lemma mark_of_app (i : nat) (m1 m2 : marks) :
  mark_of i (m1 ++ m2) =
  match mark_of i m1 with
  | Some href => Some href
  | None => mark_of i m2
  end.
Proof.
  induction m1 as [| [j h] m1 IH]; simpl; [reflexivity |].
  destruct (j =? i); [reflexivity | exact IH].
Qed.

Lemma mark_of_none (i : nat) (m : marks) :
  ~ In i (map fst m) -> mark_of i m = None.
Proof.
  induction m as [| [j h] m IH]; simpl; [reflexivity |].
  intros H. destruct (Nat.eqb_spec j i) as [-> | _].
  - exfalso. apply H. now left.
  - apply IH. intros Hi. apply H. now right.
Qed.

Lemma marks_of_app (footnotes : Dict.dict) (l1 l2 : list Live.obj) :
  marks_of footnotes (l1 ++ l2) = marks_of footnotes l1 ++ marks_of footnotes l2.
Proof. unfold marks_of. apply flat_map_app. Qed.

Lemma ids_of_app (l1 l2 : list Live.obj) : ids_of (l1 ++ l2) = ids_of l1 ++ ids_of l2.
Proof. unfold ids_of. apply flat_map_app. Qed.

(** The loop marks only objects of its list. *)
Lemma marks_of_ids (footnotes : Dict.dict) (l : list Live.obj) (i : nat) :
  In i (map fst (marks_of footnotes l)) -> In i (ids_of l).
Proof.
  induction l as [| s l IH]; [auto |].
  change (s :: l) with ([s] ++ l). rewrite marks_of_app, ids_of_app, map_app.
  intros H. apply in_app_iff in H. apply in_app_iff.
  destruct H as [H | H]; [left | right; auto].
  unfold marks_of, ids_of in *. simpl in *.
  destruct (Live.oid s) as [j |]; [| contradiction].
  destruct (Dict.mem _ footnotes); simpl in *; [| contradiction]. exact H.
Qed.

(** The identities of the objects of a tree are its names. *)
Lemma ids_of_subtree (o : Live.obj) : ids_of (Live.subtree o) = Live.names o.
Proof.
  induction o as [s | s | id tag a kids IH] using obj_ind'; try reflexivity.
  cbn [Live.subtree Live.names].
  change (ids_of (?x :: ?l)) with (ids_of ([x] ++ l)). rewrite ids_of_app.
  f_equal; [unfold ids_of; simpl; now rewrite app_nil_r |].
  induction IH as [| k kids Hk _ IHkids]; [reflexivity |].
  cbn [flat_map]. now rewrite ids_of_app, Hk, IHkids.
Qed.

Lemma ids_of_forest (l : list Live.obj) :
  ids_of (flat_map Live.subtree l) = names_all l.
Proof.
  induction l as [| k l IH]; [reflexivity |].
  unfold names_all in *. cbn [flat_map].
  now rewrite ids_of_app, ids_of_subtree, IH.
Qed.

Lemma ids_of_filter_in (f : Live.obj -> bool) (l : list Live.obj) (i : nat) :
  In i (ids_of (filter f l)) -> In i (ids_of l).
Proof.
  induction l as [| s l IH]; [auto |].
  cbn [filter]. change (s :: l) with ([s] ++ l). rewrite ids_of_app.
  destruct (f s).
  - change (s :: filter f l) with ([s] ++ filter f l). rewrite ids_of_app.
    intros H. apply in_app_iff in H. apply in_app_iff. destruct H; auto.
  - intros H. apply in_app_iff. auto.
Qed.

Lemma ids_of_filter_nodup (f : Live.obj -> bool) (l : list Live.obj) :
  NoDup (ids_of l) -> NoDup (ids_of (filter f l)).
Proof.
  induction l as [| s l IH]; [auto |].
  cbn [filter]. change (s :: l) with ([s] ++ l). rewrite ids_of_app.
  intros H. apply NoDup_app_remove_l in H as Hl.
  destruct (f s); [| auto].
  change (s :: filter f l) with ([s] ++ filter f l). rewrite ids_of_app.
  assert (Hs : NoDup (ids_of [s])) by (apply NoDup_app_remove_r in H; exact H).
  apply NoDup_app; [exact Hs | auto |].
  intros i Hi Hi'. apply ids_of_filter_in in Hi'.
  revert Hi Hi'. clear - H. revert i.
  induction (ids_of [s]) as [| j js IHjs]; intros i Hi Hi'; [contradiction |].
  simpl in H. inversion H as [| ? ? Hnot Hrest]; subst.
  destruct Hi as [-> | Hi].
  - apply Hnot. apply in_app_iff. now right.
  - now apply (IHjs Hrest i).
Qed.

(** *** What wrapping keeps *)

Section Marked.

Variable m : marks.

Local Abbreviation wm := (wrap_marked m).

Lemma wrap_marked_elem (id : option nat) (tag : string) (a : attrs)
    (kids : list Live.obj) :
  wm (Live.OElem id tag a kids) =
  match match id with Some j => mark_of j m | None => None end with
  | Some href =>
      Live.OElem None "a" [("href", href)] [Live.OElem id tag a (map wm kids)]
  | None => Live.OElem id tag a (map wm kids)
  end.
Proof. destruct id as [j |]; [| reflexivity]. cbn [wrap_marked].
  destruct (mark_of j m); reflexivity.
Qed.

Lemma wrap_marked_text (o : Live.obj) : Live.otext (wm o) = Live.otext o.
Proof.
  unfold Live.otext.
  induction o as [s | s | id tag a kids IH] using obj_ind'; try reflexivity.
  assert (Hk : map node_text (map Live.erase (map wm kids))
               = map node_text (map Live.erase kids)).
  { rewrite !map_map. apply map_ext_Forall. exact IH. }
  rewrite wrap_marked_elem.
  destruct (match id with Some j => mark_of j m | None => None end);
    simpl; now rewrite Hk.
Qed.

Lemma inner_text (id : option nat) (tag : string) (a : attrs) (kids : list Live.obj) :
  Live.otext (Live.OElem id tag a (map wm kids)) = Live.otext (Live.OElem id tag a kids).
Proof.
  unfold Live.otext. simpl. f_equal. rewrite !map_map.
  apply map_ext. intros k. apply (wrap_marked_text k).
Qed.

Lemma lookup_elem (i : nat) (id : option nat) (tag : string) (a : attrs)
    (kids : list Live.obj) :
  Live.lookup i (Live.OElem id tag a kids) =
  if match id with Some j => j =? i | None => false end
  then Some (Live.OElem id tag a kids)
  else Live.lookup_in i kids.
Proof.
  cbn [Live.lookup].
  destruct (match id with Some j => j =? i | None => false end); [reflexivity |].
  induction kids as [| k r IHr]; [reflexivity |].
  cbn [Live.lookup_in]. destruct (Live.lookup i k); [reflexivity | exact IHr].
Qed.

(** The object named [i] is found after the wraps as before, with the same
    text. *)
Lemma lookup_wrap_marked (i : nat) (o : Live.obj) :
  match Live.lookup i o with
  | Some e => exists e', Live.lookup i (wm o) = Some e' /\ Live.otext e' = Live.otext e
  | None => Live.lookup i (wm o) = None
  end.
Proof.
  induction o as [s | s | id tag a kids IH] using obj_ind'; try reflexivity.
  assert (Hkids : match Live.lookup_in i kids with
                  | Some e => exists e', Live.lookup_in i (map wm kids) = Some e'
                                         /\ Live.otext e' = Live.otext e
                  | None => Live.lookup_in i (map wm kids) = None
                  end).
  { induction IH as [| k r Hk _ IHr]; [reflexivity |].
    cbn [Live.lookup_in map].
    destruct (Live.lookup i k) as [e |].
    - destruct Hk as (e' & He' & Ht). rewrite He'. eauto.
    - rewrite Hk. exact IHr. }
  assert (Hinner : match Live.lookup i (Live.OElem id tag a kids) with
                   | Some e =>
                       exists e', Live.lookup i (Live.OElem id tag a (map wm kids)) = Some e'
                                  /\ Live.otext e' = Live.otext e
                   | None => Live.lookup i (Live.OElem id tag a (map wm kids)) = None
                   end).
  { rewrite !lookup_elem.
    destruct (match id with Some j => j =? i | None => false end).
    - eexists. split; [reflexivity | apply inner_text].
    - exact Hkids. }
  rewrite wrap_marked_elem.
  destruct (match id with Some j => mark_of j m | None => None end);
    [| exact Hinner].
  rewrite (lookup_elem i None). cbn [Live.lookup_in].
  destruct (Live.lookup i (Live.OElem id tag a kids)) as [e |].
  - destruct Hinner as (e' & He' & Ht). rewrite He'. eauto.
  - now rewrite Hinner.
Qed.

Lemma lookup_in_wrap_marked (i : nat) (l : list Live.obj) :
  match Live.lookup_in i l with
  | Some e => exists e', Live.lookup_in i (map wm l) = Some e'
                         /\ Live.otext e' = Live.otext e
  | None => Live.lookup_in i (map wm l) = None
  end.
Proof.
  induction l as [| k r IHr]; [reflexivity |].
  cbn [Live.lookup_in map].
  pose proof (lookup_wrap_marked i k) as Hk.
  destruct (Live.lookup i k) as [e |].
  - destruct Hk as (e' & He' & Ht). rewrite He'. eauto.
  - rewrite Hk. exact IHr.
Qed.

End Marked.

(** *** Identities are unique *)

Lemma subtree_names (o s : Live.obj) (i : nat) :
  In s (Live.subtree o) -> Live.oid s = Some i -> In i (Live.names o).
Proof.
  intros Hs Hi. rewrite <- ids_of_subtree. unfold ids_of.
  apply in_flat_map. exists s. split; [exact Hs |]. rewrite Hi. now left.
Qed.

Lemma forest_names (l : list Live.obj) (s : Live.obj) (i : nat) :
  In s (flat_map Live.subtree l) -> Live.oid s = Some i -> In i (names_all l).
Proof.
  intros Hs Hi. rewrite <- ids_of_forest. unfold ids_of.
  apply in_flat_map. exists s. split; [exact Hs |]. rewrite Hi. now left.
Qed.

(** A name that is not in use is not found. *)
Lemma lookup_unused (i : nat) (o : Live.obj) :
  ~ In i (Live.names o) -> Live.lookup i o = None.
Proof.
  induction o as [s | s | id tag a kids IH] using obj_ind'; try reflexivity.
  intros Hi. rewrite lookup_elem. cbn [Live.names] in Hi.
  assert (Hid : match id with Some j => j =? i | None => false end = false).
  { destruct id as [j |]; [| reflexivity].
    apply Nat.eqb_neq. intros ->. apply Hi. now left. }
  rewrite Hid.
  assert (Hk : ~ In i (flat_map Live.names kids))
    by (intros H; apply Hi; apply in_app_iff; now right).
  clear Hi Hid. induction IH as [| k r Hk' _ IHr]; [reflexivity |].
  cbn [Live.lookup_in]. cbn [flat_map] in Hk.
  rewrite Hk' by (intros H; apply Hk; apply in_app_iff; now left).
  apply IHr. intros H. apply Hk. apply in_app_iff. now right.
Qed.

(** When no name is used twice, looking a name up gives the object that
    bears it. *)
Lemma lookup_unique (o s : Live.obj) (i : nat) :
  NoDup (Live.names o) ->
  In s (Live.subtree o) -> Live.oid s = Some i ->
  Live.lookup i o = Some s.
Proof.
  revert s. induction o as [t | t | id tag a kids IH] using obj_ind';
    intros s Hnd Hs Hi.
  - destruct Hs as [<- | []]. discriminate.
  - destruct Hs as [<- | []]. discriminate.
  - rewrite lookup_elem. cbn [Live.subtree] in Hs. destruct Hs as [<- | Hs].
    + simpl in Hi. subst id. now rewrite Nat.eqb_refl.
    + assert (Hin : In i (flat_map Live.names kids))
        by (apply (forest_names kids s i Hs Hi)).
      cbn [Live.names] in Hnd.
      assert (Hid : match id with Some j => j =? i | None => false end = false).
      { destruct id as [j |]; [| reflexivity].
        apply Nat.eqb_neq. intros ->. simpl in Hnd.
        inversion Hnd as [| ? ? Hnot _]. contradiction. }
      rewrite Hid.
      assert (Hndk : NoDup (flat_map Live.names kids))
        by (apply NoDup_app_remove_l in Hnd; exact Hnd).
      clear Hnd Hid Hin.
      induction IH as [| k r Hk _ IHr]; [contradiction |].
      cbn [flat_map] in Hs, Hndk. cbn [Live.lookup_in].
      apply in_app_iff in Hs. destruct Hs as [Hs | Hs].
      * rewrite (Hk s); auto. apply NoDup_app_remove_r in Hndk. exact Hndk.
      * rewrite lookup_unused.
        -- apply IHr; [exact Hs |]. apply NoDup_app_remove_l in Hndk. exact Hndk.
        -- intros Hik. pose proof (forest_names r s i Hs Hi) as Hir.
           clear - Hndk Hik Hir. unfold names_all in Hir.
           induction (Live.names k) as [| j js IHjs]; [contradiction |].
           simpl in Hndk. inversion Hndk as [| ? ? Hnot Hrest]; subst.
           destruct Hik as [-> | Hik].
           ++ apply Hnot. apply in_app_iff. now right.
           ++ now apply IHjs.
Qed.

Lemma nodup_app_disjoint (A : Type) (l1 l2 : list A) (x : A) :
  NoDup (l1 ++ l2) -> In x l1 -> In x l2 -> False.
Proof.
  induction l1 as [| y l1 IH]; intros Hnd H1 H2; [contradiction |].
  simpl in Hnd. inversion Hnd as [| ? ? Hnot Hrest]; subst.
  destruct H1 as [-> | H1].
  - apply Hnot. apply in_app_iff. now right.
  - now apply IH.
Qed.

Lemma lookup_in_unique (l : list Live.obj) (s : Live.obj) (i : nat) :
  NoDup (names_all l) ->
  In s (flat_map Live.subtree l) -> Live.oid s = Some i ->
  Live.lookup_in i l = Some s.
Proof.
  unfold names_all. induction l as [| k r IHr]; intros Hnd Hs Hi; [contradiction |].
  cbn [flat_map] in Hs, Hnd. cbn [Live.lookup_in].
  apply in_app_iff in Hs. destruct Hs as [Hs | Hs].
  - rewrite (lookup_unique k s i); auto.
    apply NoDup_app_remove_r in Hnd. exact Hnd.
  - rewrite lookup_unused.
    + apply IHr; auto. apply NoDup_app_remove_l in Hnd. exact Hnd.
    + intros Hik. apply (nodup_app_disjoint _ _ _ i Hnd Hik).
      exact (forest_names r s i Hs Hi).
Qed.

(** *** One wrap more *)

(** A mark for a name that a tree does not use changes nothing in it. *)
Lemma wrap_marked_unused (m : marks) (i : nat) (href : string) (o : Live.obj) :
  ~ In i (Live.names o) ->
  wrap_marked (m ++ [(i, href)]) o = wrap_marked m o.
Proof.
  induction o as [s | s | id tag a kids IH] using obj_ind'; try reflexivity.
  intros Hi. cbn [Live.names] in Hi.
  assert (Hk : map (wrap_marked (m ++ [(i, href)])) kids = map (wrap_marked m) kids).
  { assert (Hik : ~ In i (flat_map Live.names kids))
      by (intros H; apply Hi; apply in_app_iff; now right).
    clear Hi. induction IH as [| k r Hk _ IHr]; [reflexivity |].
    cbn [map flat_map] in *. f_equal.
    - apply Hk. intros H. apply Hik. apply in_app_iff. now left.
    - apply IHr. intros H. apply Hik. apply in_app_iff. now right. }
  rewrite !wrap_marked_elem, Hk.
  destruct id as [j |]; [| reflexivity].
  rewrite mark_of_app. destruct (mark_of j m); [reflexivity |].
  simpl. destruct (Nat.eqb_spec i j) as [-> | _]; [| reflexivity].
  exfalso. apply Hi. now left.
Qed.

(** Wrapping the object named [i] adds its mark. *)
Lemma wrap_wrap_marked (m : marks) (i : nat) (href : string) (o : Live.obj) :
  NoDup (Live.names o) ->
  mark_of i m = None ->
  Live.wrap i href (wrap_marked m o) = wrap_marked (m ++ [(i, href)]) o.
Proof.
  intros Hnd Hm.
  induction o as [s | s | id tag a kids IH] using obj_ind'; try reflexivity.
  cbn [Live.names] in Hnd.
  assert (Hndk : NoDup (flat_map Live.names kids))
    by (apply NoDup_app_remove_l in Hnd; exact Hnd).
  assert (Hk : map (Live.wrap i href) (map (wrap_marked m) kids)
               = map (wrap_marked (m ++ [(i, href)])) kids).
  { clear Hnd. induction IH as [| k r Hk _ IHr]; [reflexivity |].
    cbn [map flat_map] in *. f_equal.
    - apply Hk. apply NoDup_app_remove_r in Hndk. exact Hndk.
    - apply IHr. apply NoDup_app_remove_l in Hndk. exact Hndk. }
  rewrite !wrap_marked_elem. destruct id as [j |].
  - rewrite mark_of_app. destruct (Nat.eqb_spec j i) as [-> | Hji].
    + rewrite Hm. cbn [mark_of]. rewrite Nat.eqb_refl.
      cbn [Live.wrap]. rewrite Nat.eqb_refl. f_equal. f_equal. f_equal.
      assert (Hik : ~ In i (flat_map Live.names kids))
        by (simpl in Hnd; inversion Hnd; assumption).
      clear - Hik. induction kids as [| k r IHr]; [reflexivity |].
      cbn [map flat_map] in *. f_equal.
      * symmetry. apply wrap_marked_unused.
        intros H. apply Hik. apply in_app_iff. now left.
      * apply IHr. intros H. apply Hik. apply in_app_iff. now right.
    + assert (Hlast : mark_of j [(i, href)] = None).
      { simpl. destruct (Nat.eqb_spec i j); [congruence | reflexivity]. }
      rewrite Hlast.
      assert (Hji' : (j =? i) = false) by now apply Nat.eqb_neq.
      destruct (mark_of j m); cbn [Live.wrap map]; rewrite ?Hji'; cbn [Live.wrap map];
        rewrite ?Hji', Hk; reflexivity.
  - cbn [Live.wrap]. now rewrite Hk.
Qed.

(** *** The loop *)

Lemma wrap_marked_nil (o : Live.obj) : wrap_marked [] o = o.
Proof.
  induction o as [s | s | id tag a kids IH] using obj_ind'; try reflexivity.
  rewrite wrap_marked_elem.
  assert (Hk : map (wrap_marked []) kids = kids).
  { rewrite <- (map_id kids) at 2. apply map_ext_Forall. exact IH. }
  rewrite Hk. now destruct id.
Qed.

(** After the loop has gone through a list of objects of the document, the
    tree is the document with their marks. *)
Lemma link_steps_marked (footnotes : Dict.dict) (doc : list Live.obj)
    (l : list Live.obj) (m : marks) :
  NoDup (names_all doc) ->
  (forall s, In s l -> In s (flat_map Live.subtree doc)) ->
  NoDup (ids_of l) ->
  (forall i, In i (ids_of l) -> mark_of i m = None) ->
  fold_left (Live.link_step footnotes) l (map (wrap_marked m) doc)
  = map (wrap_marked (m ++ marks_of footnotes l)) doc.
Proof.
  intros Hdoc. revert m. induction l as [| s l IH]; intros m Hin Hnd Hfree.
  - simpl. now rewrite app_nil_r.
  - cbn [fold_left].
    change (s :: l) with ([s] ++ l) in Hnd, Hfree |- *.
    rewrite ids_of_app in Hnd, Hfree. rewrite marks_of_app.
    assert (Hl : NoDup (ids_of l)) by (apply NoDup_app_remove_l in Hnd; exact Hnd).
    assert (Hinl : forall s', In s' l -> In s' (flat_map Live.subtree doc))
      by (intros s' Hs'; apply Hin; now right).
    unfold Live.link_step at 2.
    destruct (Live.oid s) as [i |] eqn:Hid.
    2: { unfold marks_of at 1. simpl. rewrite Hid. simpl.
         apply IH; auto. intros j Hj. apply Hfree. apply in_app_iff. now right. }
    assert (Hi : In i (ids_of [s])) by (unfold ids_of; simpl; rewrite Hid; now left).
    pose proof (lookup_in_unique doc s i Hdoc (Hin s (or_introl eq_refl)) Hid) as Hfound.
    pose proof (lookup_in_wrap_marked m i doc) as Hlive. rewrite Hfound in Hlive.
    destruct Hlive as (live & Hlive & Htext). rewrite Hlive, Htext.
    assert (Hs : marks_of footnotes [s]
                 = if Dict.mem (strip (Live.otext s)) footnotes
                   then [(i, "#footnote-" +++ strip (Live.otext s))] else []).
    { unfold marks_of. simpl. rewrite Hid, app_nil_r. reflexivity. }
    rewrite Hs.
    destruct (Dict.mem (strip (Live.otext s)) footnotes).
    + rewrite map_map.
      assert (Hwrap : map (fun o => Live.wrap i ("#footnote-" +++ strip (Live.otext s))
                                      (wrap_marked m o)) doc
                      = map (wrap_marked
                               (m ++ [(i, "#footnote-" +++ strip (Live.otext s))])) doc).
      { apply map_ext_in. intros o Ho. apply wrap_wrap_marked.
        - clear - Hdoc Ho. unfold names_all in Hdoc.
          induction doc as [| k r IHr]; [contradiction |].
          cbn [flat_map] in Hdoc. destruct Ho as [-> | Ho].
          + apply NoDup_app_remove_r in Hdoc. exact Hdoc.
          + apply IHr; [| exact Ho]. apply NoDup_app_remove_l in Hdoc. exact Hdoc.
        - apply Hfree. apply in_app_iff. now left. }
      rewrite Hwrap, IH; auto.
      * now rewrite <- app_assoc.
      * intros j Hj. rewrite mark_of_app.
        rewrite Hfree by (apply in_app_iff; now right).
        simpl. destruct (Nat.eqb_spec i j) as [-> | _]; [| reflexivity].
        exfalso. exact (nodup_app_disjoint _ _ _ j Hnd Hi Hj).
    + simpl. apply IH; auto.
      intros j Hj. apply Hfree. apply in_app_iff. now right.
Qed.

(** *** The marks of the whole loop *)

(** Marks for names a tree does not use do not matter to it. *)
Lemma wrap_marked_ext (m m' : marks) (o : Live.obj) :
  (forall i, In i (Live.names o) -> mark_of i m = mark_of i m') ->
  wrap_marked m o = wrap_marked m' o.
Proof.
  induction o as [s | s | id tag a kids IH] using obj_ind'; try reflexivity.
  intros Hm. cbn [Live.names] in Hm.
  assert (Hk : map (wrap_marked m) kids = map (wrap_marked m') kids).
  { assert (Hmk : forall i, In i (flat_map Live.names kids) ->
                    mark_of i m = mark_of i m')
      by (intros i Hi; apply Hm; apply in_app_iff; now right).
    clear Hm. induction IH as [| k r Hk _ IHr]; [reflexivity |].
    cbn [map flat_map] in *. f_equal.
    - apply Hk. intros i Hi. apply Hmk. apply in_app_iff. now left.
    - apply IHr. intros i Hi. apply Hmk. apply in_app_iff. now right. }
  rewrite !wrap_marked_elem, Hk. destruct id as [j |]; [| reflexivity].
  rewrite (Hm j) by now left. reflexivity.
Qed.

Lemma marks_of_unused (footnotes : Dict.dict) (l : list Live.obj) (i : nat) :
  ~ In i (ids_of l) -> mark_of i (marks_of footnotes l) = None.
Proof.
  intros H. apply mark_of_none. intros Hi. apply H.
  now apply (marks_of_ids footnotes).
Qed.

Lemma live_sups_ids (o : Live.obj) (i : nat) :
  In i (ids_of (live_sups o)) -> In i (Live.names o).
Proof.
  intros H. rewrite <- ids_of_subtree. now apply ids_of_filter_in in H.
Qed.

Lemma find_all_cons (k : Live.obj) (r : list Live.obj) :
  Live.find_all ["sup"] (k :: r) = live_sups k ++ Live.find_all ["sup"] r.
Proof. unfold Live.find_all, live_sups. cbn [flat_map]. apply filter_app. Qed.

Lemma find_all_ids (l : list Live.obj) (i : nat) :
  In i (ids_of (Live.find_all ["sup"] l)) -> In i (names_all l).
Proof.
  intros H. rewrite <- ids_of_forest. now apply ids_of_filter_in in H.
Qed.

Section Final.

Variable footnotes : Dict.dict.

Local Abbreviation done := (marks_done footnotes).

(** From the trees of a forest to the forest, whatever marks surround those
    of the forest. *)
Lemma forest_done (l : list Live.obj) (before after : marks) :
  Forall done l ->
  NoDup (names_all l) ->
  forallb all_named l = true ->
  (forall i, In i (names_all l) -> mark_of i before = None) ->
  (forall i, In i (names_all l) -> mark_of i after = None) ->
  map (fun o => Live.erase
                  (wrap_marked
                     (before ++ marks_of footnotes (Live.find_all ["sup"] l) ++ after) o)) l
  = map (fun o => link_sups footnotes (Live.erase o)) l.
Proof.
  intros Hdone. revert before.
  induction Hdone as [| k r Hk _ IHr]; intros before Hnd Hnamed Hb Ha;
    [reflexivity |].
  unfold names_all in *. cbn [flat_map] in Hnd, Hb, Ha.
  cbn [forallb] in Hnamed. apply andb_true_iff in Hnamed.
  destruct Hnamed as [Hnk Hnr].
  assert (Hndk : NoDup (Live.names k))
    by (apply NoDup_app_remove_r in Hnd; exact Hnd).
  assert (Hndr : NoDup (flat_map Live.names r))
    by (apply NoDup_app_remove_l in Hnd; exact Hnd).
  cbn [map]. rewrite find_all_cons, marks_of_app. f_equal.
  - rewrite <- (Hk Hndk Hnk). f_equal. apply wrap_marked_ext.
    intros i Hi. rewrite !mark_of_app.
    rewrite Hb by (apply in_app_iff; now left).
    destruct (mark_of i (marks_of footnotes (live_sups k))); [reflexivity |].
    rewrite marks_of_unused.
    + apply Ha. apply in_app_iff. now left.
    + intros Hir. apply find_all_ids in Hir.
      exact (nodup_app_disjoint _ _ _ i Hnd Hi Hir).
  - rewrite <- app_assoc, app_assoc. apply IHr; auto.
    + intros i Hi. rewrite mark_of_app.
      rewrite Hb by (apply in_app_iff; now right).
      apply marks_of_unused. intros Hik. apply live_sups_ids in Hik.
      exact (nodup_app_disjoint _ _ _ i Hnd Hik Hi).
    + intros i Hi. apply Ha. apply in_app_iff. now right.
Qed.

Lemma tree_done (o : Live.obj) : done o.
Proof.
  unfold marks_done.
  induction o as [s | s | id tag a kids IH] using obj_ind'; try (intros _ _; reflexivity).
  intros Hnd Hnamed. cbn [all_named] in Hnamed.
  apply andb_true_iff in Hnamed. destruct Hnamed as [Hid Hnk].
  destruct id as [j |]; [clear Hid | discriminate].
  cbn [Live.names] in Hnd. simpl app in Hnd.
  assert (Hj : ~ In j (names_all kids)) by (inversion Hnd; assumption).
  assert (Hndk : NoDup (names_all kids)) by (inversion Hnd; assumption).
  set (o := Live.OElem (Some j) tag a kids).
  assert (Hsups : live_sups o
                  = (if has_tag ["sup"] (Live.erase o) then [o] else [])
                    ++ Live.find_all ["sup"] kids).
  { unfold live_sups, Live.find_all. unfold o. cbn [Live.subtree filter].
    destruct (has_tag ["sup"] (Live.erase (Live.OElem (Some j) tag a kids)));
      reflexivity. }
  rewrite Hsups, marks_of_app.
  set (own := marks_of footnotes (if has_tag ["sup"] (Live.erase o) then [o] else [])).
  assert (Hkids : map Live.erase
                    (map (wrap_marked
                            (own ++ marks_of footnotes (Live.find_all ["sup"] kids))) kids)
                  = map (link_sups footnotes) (map Live.erase kids)).
  { rewrite !map_map.
    rewrite <- (forest_done kids own [] IH Hndk Hnk).
    - now rewrite app_nil_r.
    - intros i Hi. apply mark_of_none. intros Hown. apply marks_of_ids in Hown.
      destruct (has_tag ["sup"] (Live.erase o)); [| contradiction].
      unfold ids_of in Hown. simpl in Hown. destruct Hown as [<- | []].
      contradiction.
    - reflexivity. }
  assert (Hown : mark_of j own
                 = if String.eqb tag "sup" && Dict.mem (strip (Live.otext o)) footnotes
                   then Some ("#footnote-" +++ strip (Live.otext o)) else None).
  { unfold own, marks_of. unfold o at 1. cbn [Live.erase has_tag existsb].
    rewrite orb_false_r.
    destruct (String.eqb tag "sup"); [| reflexivity].
    cbn [flat_map andb]. unfold o at 1. cbn [Live.oid].
    destruct (Dict.mem (strip (Live.otext o)) footnotes); [| reflexivity].
    cbn [app mark_of]. now rewrite Nat.eqb_refl. }
  unfold o at 1. rewrite wrap_marked_elem. rewrite mark_of_app.
  rewrite (marks_of_unused footnotes (Live.find_all ["sup"] kids) j)
    by (intros H; apply Hj; now apply find_all_ids).
  rewrite Hown.
  change (Live.erase o) with (Elem tag a (map Live.erase kids)).
  cbn [link_sups].
  change (node_text (Elem tag a (map Live.erase kids))) with (Live.otext o).
  destruct (String.eqb tag "sup" && Dict.mem (strip (Live.otext o)) footnotes);
    cbn [Live.erase map]; now rewrite Hkids.
Qed.

(** The loop, run on the objects of a parsed document, leaves the tree that
    [link_sups] describes. *)
Lemma link_loop_refines (doc : list node) :
  map Live.erase (Live.link_loop footnotes (Live.objects doc))
  = map (link_sups footnotes) doc.
Proof.
  destruct (objects_spec doc) as (Herase & Hnamed & Hnd).
  set (objs := Live.objects doc) in *.
  unfold Live.link_loop.
  rewrite <- (map_id objs) at 2.
  rewrite (map_ext _ (wrap_marked []) (fun o => eq_sym (wrap_marked_nil o))).
  rewrite link_steps_marked.
  - rewrite map_map. cbn [app].
    pose proof (forest_done objs [] []
                  (proj2 (Forall_forall _ _) (fun o _ => tree_done o))
                  Hnd Hnamed (fun _ _ => eq_refl) (fun _ _ => eq_refl)) as Hdone.
    cbn [app] in Hdone. rewrite app_nil_r in Hdone. rewrite Hdone.
    rewrite <- Herase. now rewrite map_map.
  - exact Hnd.
  - intros s Hs. unfold Live.find_all in Hs. apply filter_In in Hs. tauto.
  - unfold Live.find_all. apply ids_of_filter_nodup.
    rewrite ids_of_forest. exact Hnd.
  - reflexivity.
Qed.

End Final.



(** C6.  For the paragraph [<p>text<sup>1</sup></p>] and a footnote table
    holding the key 1: with footnotes enabled the output is the paragraph
    with the marker wrapped in [<a href="#footnote-1">]; with footnotes
    disabled it is [<p>text</p>], without marker or anchor.  The formatted
    paragraphs are joined with newlines in the order given. *)
Theorem C6_footnote_round_trip
    (html_parser : string -> list node) (on off : Config) (footnotes : Dict.dict) :
  INCLUDE_FOOTNOTES on = true ->
  INCLUDE_FOOTNOTES off = false ->
  Dict.mem "1" footnotes = true ->
  html_parser marked_markup = [marked_paragraph] ->
  let linked := format_paragraph html_parser on footnotes marked_markup in
  let stripped := format_paragraph html_parser off footnotes marked_markup in
  linked = "<p>text" +++ linked_marker +++ "</p>" /\
  contains linked_marker linked = true /\
  stripped = "<p>text</p>" /\
  contains "text" stripped = true /\
  contains "<sup" stripped = false /\
  contains "<a" stripped = false /\
  (forall cfg p, format_chapter_content html_parser cfg [p] footnotes
                 = format_paragraph html_parser cfg footnotes p) /\
  (forall cfg ps qs, ps <> [] -> qs <> [] ->
     format_chapter_content html_parser cfg (ps ++ qs) footnotes
     = format_chapter_content html_parser cfg ps footnotes
       +++ String newline ""
       +++ format_chapter_content html_parser cfg qs footnotes).
Proof.
  intros Hon Hoff Hkey Hparse linked stripped.
  assert (Hl : linked = "<p>text" +++ linked_marker +++ "</p>").
  { unfold linked, format_paragraph. rewrite Hon, Hparse. cbv zeta.
    rewrite link_loop_refines.
    unfold marked_paragraph. cbn [map link_sups node_text].
    change (strip (String.concat "" ["1"])) with "1".
    change (String.eqb "p" "sup") with false.
    change (String.eqb "sup" "sup") with true.
    rewrite Hkey. reflexivity. }
  assert (Hs : stripped = "<p>text</p>").
  { unfold stripped, format_paragraph. rewrite Hoff. reflexivity. }
  rewrite Hl, Hs. repeat split.
  - intros cfg ps qs Hps Hqs. unfold format_chapter_content.
    rewrite map_app. apply join_app.
    + destruct ps; [contradiction | discriminate].
    + destruct qs; [contradiction | discriminate].
Qed.

(** C6 with the reference parser, and a chapter of two paragraphs. *)
Lemma C6_footnote_round_trip_witness :
  format_paragraph Parser.parse_html (flags true false) [("1", "one")] marked_markup
    = "<p>text" +++ linked_marker +++ "</p>" /\
  format_paragraph Parser.parse_html (flags false false) [("1", "one")] marked_markup
    = "<p>text</p>" /\
  format_chapter_content Parser.parse_html (flags false false)
    (["<p>a</p>"] ++ [marked_markup]) [("1", "one")]
    = "<p>a</p>" +++ String newline "" +++ "<p>text</p>".
Proof.
  destruct (C6_footnote_round_trip Parser.parse_html (flags true false)
              (flags false false) [("1", "one")] eq_refl eq_refl eq_refl eq_refl)
    as (Hl & _ & Hs & _ & _ & _ & _ & Hjoin).
  split; [exact Hl |]. split; [exact Hs |].
  rewrite Hjoin by discriminate. reflexivity.
Defined.

(* ------------------------------------------------------------------ *)
(** ** The retry loop of the pattern-based fetcher *)

Lemma backoff_sleeps_app (t u : list event) :
  backoff_sleeps (t ++ u) = backoff_sleeps t ++ backoff_sleeps u.
Proof.
  induction t as [| e t IH]; simpl; [reflexivity |].
  destruct e; simpl; now rewrite IH.
Qed.

Lemma count_gets_app (t u : list event) :
  count_gets (t ++ u) = count_gets t + count_gets u.
Proof.
  induction t as [| e t IH]; simpl; [reflexivity |].
  destruct e; simpl; now rewrite IH.
Qed.

Lemma events_since_app (t new : list event) : events_since t (t ++ new) = new.
Proof.
  unfold events_since. induction t as [| e t IH]; simpl; auto.
Qed.

Lemma limiter_events_quiet (st : Main.state) :
  backoff_sleeps (main_limiter_events st) = [] /\
  count_gets (main_limiter_events st) = 0 /\
  forallb is_limiter_sleep (main_limiter_events st) = true.
Proof.
  unfold main_limiter_events.
  destruct (fst (Main.wait (Main.clock st) (Main.rate_limiter st))); auto.
Qed.

(** [wait] touches neither the GET count nor the failure counter; it may add
    one sleep to the trace. *)
Lemma limiter_wait_frame (st : Main.state) :
  Main.gets (Main.limiter_wait st) = Main.gets st /\
  Main.failed_attempts (Main.rate_limiter (Main.limiter_wait st))
    = Main.failed_attempts (Main.rate_limiter st) /\
  Main.trace (Main.limiter_wait st) = Main.trace st ++ main_limiter_events st.
Proof.
  unfold Main.limiter_wait, main_limiter_events, Main.wait. simpl.
  destruct (Qlt_le_dec 0 (Main.wait_time (Main.clock st) (Main.rate_limiter st)));
    simpl; rewrite ?app_nil_r; auto.
Qed.

Lemma wait_time_includes_penalty (now : Q) (rl : Main.RateLimiter) :
  0 < Main.failed_attempts rl ->
  (inject_Z (Main.backoff_penalty (Main.failed_attempts rl))
   <= Main.wait_time now rl)%Q.
Proof.
  intros Hf. unfold Main.wait_time.
  apply Nat.ltb_lt in Hf. rewrite Hf.
  set (pen := inject_Z (Main.backoff_penalty (Main.failed_attempts rl))).
  rewrite <- (Qplus_0_l pen) at 1.
  apply Qplus_le_compat; [| apply Qle_refl].
  destruct (deque_last (Main.last_request_times rl)); [| apply Qle_refl].
  apply Q.le_max_l.
Qed.

(** After three more failures the penalty is at least seven seconds. *)
Lemma penalty_after_three (failed : nat) :
  (7 <= Main.backoff_penalty (failed + 3))%Z.
Proof.
  destruct (backoff_penalty_cases (failed + 3)) as [Hlow Hhigh].
  destruct (Nat.le_gt_cases (failed + 3) 8) as [H | H].
  - rewrite Hlow by exact H.
    assert (2 ^ 3 <= 2 ^ Z.of_nat (failed + 3))%Z
      by (apply Z.pow_le_mono_r; lia).
    change (2 ^ 3)%Z with 8%Z in *. lia.
  - rewrite Hhigh by lia. lia.
Qed.

Section MainFetch.

Variable html_parser : string -> list node.
Variable site : server.
Variable cfg : Config.
Variable url : string.

Local Abbreviation loop := (Main.retry_loop html_parser site cfg url).
Local Abbreviation failed_state := (main_failed_state site url).

Lemma http_get_frame (st : Main.state) :
  fst (Main.http_get site url st) = snd (site (Main.gets st) url) /\
  Main.gets (snd (Main.http_get site url st)) = S (Main.gets st) /\
  Main.rate_limiter (snd (Main.http_get site url st)) = Main.rate_limiter st /\
  Main.trace (snd (Main.http_get site url st)) = Main.trace st ++ [Get url].
Proof.
  unfold Main.http_get. destruct (site (Main.gets st) url); simpl; auto.
Qed.

Lemma sleep_frame (ev : Q -> event) (d : Q) (st : Main.state) :
  Main.gets (Main.sleep ev d st) = Main.gets st /\
  Main.rate_limiter (Main.sleep ev d st) = Main.rate_limiter st /\
  Main.trace (Main.sleep ev d st) = Main.trace st ++ [ev d].
Proof. auto. Qed.

Lemma failed_state_frame (st : Main.state) :
  Main.gets (failed_state st) = S (Main.gets st) /\
  Main.failed_attempts (Main.rate_limiter (failed_state st))
    = Main.failed_attempts (Main.rate_limiter st) + 1 /\
  Main.trace (failed_state st)
    = Main.trace st ++ main_limiter_events st ++ [Get url].
Proof.
  unfold main_failed_state.
  destruct (http_get_frame (Main.limiter_wait st)) as (_ & Hg & Hr & Ht).
  destruct (limiter_wait_frame st) as (Hg' & Hf' & Ht').
  simpl. rewrite Hg, Hr, Ht, Hg', Hf', Ht', <- app_assoc. auto.
Qed.

(** One turn of the loop, when the attempt raises: every exception is
    handled alike. *)
Lemma retry_failed (attempt : nat) (rest : list nat) (st : Main.state) :
  main_attempt_fails html_parser cfg url (snd (site (Main.gets st) url)) = true ->
  loop (attempt :: rest) st =
  if attempt <? Main.MAX_RETRIES - 1
  then loop rest (Main.sleep BackoffSleep (backoff_delay attempt) (failed_state st))
  else (None, failed_state st).
Proof.
  unfold main_attempt_fails. intros Hfail.
  unfold main_failed_state. cbn [Main.retry_loop].
  destruct (http_get_frame (Main.limiter_wait st)) as (Hgot & _).
  destruct (limiter_wait_frame st) as (Hg & _).
  destruct (Main.http_get site url (Main.limiter_wait st)) as [got st2].
  simpl in Hgot. rewrite Hg in Hgot. subst got.
  destruct (Main.attempt_body html_parser cfg url (snd (site (Main.gets st) url)));
    [reflexivity | discriminate].
Qed.

(** One turn of the loop, when the attempt gives a chapter. *)
Lemma retry_succeeded (attempt : nat) (rest : list nat) (st : Main.state)
    (ch : chapter) :
  Main.attempt_body html_parser cfg url (snd (site (Main.gets st) url)) = inr ch ->
  loop (attempt :: rest) st =
  (Some ch,
   Main.with_limiter Main.record_success
     (snd (Main.http_get site url (Main.limiter_wait st)))).
Proof.
  intros Hok. cbn [Main.retry_loop].
  destruct (http_get_frame (Main.limiter_wait st)) as (Hgot & _).
  destruct (limiter_wait_frame st) as (Hg & _).
  destruct (Main.http_get site url (Main.limiter_wait st)) as [got st2].
  simpl in Hgot. rewrite Hg in Hgot. subst got. now rewrite Hok.
Qed.

(** Whatever happens, the loop only adds to the trace: at most one GET per
    attempt still to make, and sleeps of the retry loop that follow the
    attempts made, each below the last one. *)
Lemma retry_loop_events (attempts : list nat) (st : Main.state) :
  exists new k,
    Main.trace (snd (loop attempts st)) = Main.trace st ++ new /\
    Main.gets (snd (loop attempts st)) = Main.gets st + count_gets new /\
    count_gets new <= List.length attempts /\
    backoff_sleeps new = map backoff_delay (firstn k attempts) /\
    Forall (fun a => a < Main.MAX_RETRIES - 1) (firstn k attempts).
Proof.
  revert st. induction attempts as [| attempt rest IH]; intros st.
  - exists [], 0. simpl. rewrite app_nil_r. auto.
  - destruct (Main.attempt_body html_parser cfg url (snd (site (Main.gets st) url)))
      as [e | ch] eqn:Hbody.
    + assert (Hfail : main_attempt_fails html_parser cfg url
                        (snd (site (Main.gets st) url)) = true)
        by (unfold main_attempt_fails; now rewrite Hbody).
      rewrite (retry_failed attempt rest st Hfail).
      destruct (failed_state_frame st) as (Hg & _ & Ht).
      destruct (limiter_events_quiet st) as (Hb & Hc & _).
      destruct (Nat.ltb_spec attempt (Main.MAX_RETRIES - 1)) as [Hlt | Hge].
      * destruct (IH (Main.sleep BackoffSleep (backoff_delay attempt)
                        (failed_state st)))
          as (new & k & IHt & IHg & IHc & IHb & IHF).
        exists (main_limiter_events st ++ [Get url]
                ++ [BackoffSleep (backoff_delay attempt)] ++ new), (S k).
        rewrite IHt, IHg.
        destruct (sleep_frame BackoffSleep (backoff_delay attempt) (failed_state st))
          as (Hsg & _ & Hst).
        rewrite Hst, Hsg, Ht, Hg.
        rewrite !backoff_sleeps_app, !count_gets_app, Hb, Hc. simpl.
        rewrite <- !app_assoc. simpl.
        repeat split; try lia.
        -- now rewrite IHb.
        -- constructor; assumption.
      * exists (main_limiter_events st ++ [Get url]), 0.
        simpl snd. rewrite Ht, Hg.
        rewrite !backoff_sleeps_app, !count_gets_app, Hb, Hc. simpl.
        repeat split; try lia. constructor.
    + rewrite (retry_succeeded attempt rest st ch Hbody). simpl snd.
      destruct (http_get_frame (Main.limiter_wait st)) as (_ & Hg & _ & Ht).
      destruct (limiter_wait_frame st) as (Hg' & _ & Ht').
      destruct (limiter_events_quiet st) as (Hb & Hc & _).
      exists (main_limiter_events st ++ [Get url]), 0.
      change (Main.trace (Main.with_limiter Main.record_success ?s))
        with (Main.trace s).
      change (Main.gets (Main.with_limiter Main.record_success ?s))
        with (Main.gets s).
      rewrite Ht, Hg, Ht', Hg', <- app_assoc.
      rewrite !backoff_sleeps_app, !count_gets_app, Hb, Hc. simpl.
      repeat split; try lia. constructor.
Qed.

End MainFetch.

(** A run for a valid URL starts with the limiter's wait and a GET. *)
Lemma get_chapter_content_first_events
    (html_parser : string -> list node) (site : server) (cfg : Config)
    (url : string) (st : Main.state) :
  validate_url url = true ->
  exists more,
    Main.trace (snd (Main.get_chapter_content html_parser site cfg url st))
    = Main.trace st ++ main_limiter_events st ++ Get url :: more.
Proof.
  intros Hvalid. unfold Main.get_chapter_content. rewrite Hvalid. cbn [negb].
  cbv iota. change (seq 0 Main.MAX_RETRIES) with [0; 1; 2].
  destruct (Main.attempt_body html_parser cfg url (snd (site (Main.gets st) url)))
    as [e | ch] eqn:Hbody.
  - assert (Hfail : main_attempt_fails html_parser cfg url
                      (snd (site (Main.gets st) url)) = true)
      by (unfold main_attempt_fails; now rewrite Hbody).
    rewrite (retry_failed html_parser site cfg url 0 [1; 2] st Hfail).
    change (0 <? Main.MAX_RETRIES - 1) with true. cbv iota.
    destruct (retry_loop_events html_parser site cfg url [1; 2]
                (Main.sleep BackoffSleep (backoff_delay 0)
                   (main_failed_state site url st)))
      as (new & k & Ht & _).
    destruct (Main.retry_loop html_parser site cfg url [1; 2]
                (Main.sleep BackoffSleep (backoff_delay 0)
                   (main_failed_state site url st))) as [r st1].
    cbn [snd] in *. rewrite Ht.
    destruct (sleep_frame BackoffSleep (backoff_delay 0)
                (main_failed_state site url st)) as (_ & _ & Hs).
    destruct (failed_state_frame site url st) as (_ & _ & Hf).
    rewrite Hs, Hf. exists (BackoffSleep (backoff_delay 0) :: new).
    rewrite <- !app_assoc. reflexivity.
  - rewrite (retry_succeeded html_parser site cfg url 0 [1; 2] st ch Hbody).
    cbn [snd].
    change (Main.trace (Main.with_limiter Main.record_success ?s))
      with (Main.trace s).
    destruct (http_get_frame site url (Main.limiter_wait st)) as (_ & _ & _ & Ht).
    destruct (limiter_wait_frame st) as (_ & _ & Ht').
    rewrite Ht, Ht'. exists []. rewrite <- app_assoc. reflexivity.
Qed.

Lemma backoff_prefix_linear (k : nat) :
  Forall (fun a => a < Main.MAX_RETRIES - 1) (firstn k (seq 0 Main.MAX_RETRIES)) ->
  exists j, j <= 2 /\ firstn k (seq 0 Main.MAX_RETRIES) = seq 0 j.
Proof.
  intros H. destruct k as [| [| [| k]]]; simpl in *.
  - exists 0. auto.
  - exists 1. auto.
  - exists 2. auto.
  - exfalso. inversion H as [| ? ? _ Ha]. inversion Ha as [| ? ? _ Hb].
    inversion Hb as [| ? ? Hc _]. unfold Main.MAX_RETRIES in Hc. lia.
Qed.

Lemma events_since_self (t : list event) : events_since t t = [].
Proof.
  rewrite <- (app_nil_r t) at 2. apply events_since_app.
Qed.

Lemma backoff_prefix_sorted (k : nat) :
  Forall (fun a => a < Main.MAX_RETRIES - 1) (firstn k (seq 0 Main.MAX_RETRIES)) ->
  StronglySorted Qlt (map backoff_delay (firstn k (seq 0 Main.MAX_RETRIES))).
Proof.
  intros H. destruct k as [| [| [| k]]]; simpl in *.
  - constructor.
  - repeat constructor.
  - repeat constructor.
  - exfalso. inversion H as [| ? ? _ Ha]. inversion Ha as [| ? ? _ Hb].
    inversion Hb as [| ? ? Hc _]. unfold Main.MAX_RETRIES in Hc. lia.
Qed.

(** Three failed attempts in a row, for a valid URL. *)
Lemma main_three_failures
    (html_parser : string -> list node) (site : server) (cfg : Config)
    (url : string) (st : Main.state) :
  validate_url url = true ->
  (forall k, k < 3 ->
     main_attempt_fails html_parser cfg url (snd (site (Main.gets st + k) url)) = true) ->
  let run := Main.get_chapter_content html_parser site cfg url st in
  let new := events_since (Main.trace st) (Main.trace (snd run)) in
  fst run = Return None /\
  count_gets new = 3 /\
  backoff_sleeps new = [(5 # 1)%Q; (10 # 1)%Q] /\
  (exists before, new = before ++ [Get url]) /\
  Main.failed_attempts (Main.rate_limiter (snd run))
    = Main.failed_attempts (Main.rate_limiter st) + 3.
Proof.
  intros Hvalid Hfail run new.
  assert (H0 : main_attempt_fails html_parser cfg url
                 (snd (site (Main.gets st) url)) = true).
  { rewrite <- (Nat.add_0_r (Main.gets st)). apply Hfail. lia. }
  set (s1 := Main.sleep BackoffSleep (backoff_delay 0)
               (main_failed_state site url st)).
  assert (Hg1 : Main.gets s1 = Main.gets st + 1).
  { change (Main.gets s1) with (Main.gets (main_failed_state site url st)).
    destruct (failed_state_frame site url st) as (E & _). rewrite E. lia. }
  assert (H1 : main_attempt_fails html_parser cfg url
                 (snd (site (Main.gets s1) url)) = true).
  { rewrite Hg1. apply Hfail. lia. }
  set (s2 := Main.sleep BackoffSleep (backoff_delay 1)
               (main_failed_state site url s1)).
  assert (Hg2 : Main.gets s2 = Main.gets st + 2).
  { change (Main.gets s2) with (Main.gets (main_failed_state site url s1)).
    destruct (failed_state_frame site url s1) as (E & _). rewrite E. lia. }
  assert (H2 : main_attempt_fails html_parser cfg url
                 (snd (site (Main.gets s2) url)) = true).
  { rewrite Hg2. apply Hfail. lia. }
  assert (Hrun : run = (Return None, main_failed_state site url s2)).
  { subst run. unfold Main.get_chapter_content. rewrite Hvalid. simpl negb.
    cbv iota. change (seq 0 Main.MAX_RETRIES) with [0; 1; 2].
    rewrite (retry_failed html_parser site cfg url 0 [1; 2] st H0).
    change (0 <? Main.MAX_RETRIES - 1) with true. cbv iota. fold s1.
    rewrite (retry_failed html_parser site cfg url 1 [2] s1 H1).
    change (1 <? Main.MAX_RETRIES - 1) with true. cbv iota. fold s2.
    rewrite (retry_failed html_parser site cfg url 2 [] s2 H2).
    reflexivity. }
  assert (Htrace : Main.trace (main_failed_state site url s2)
                   = Main.trace st
                     ++ (main_limiter_events st ++ [Get url]
                         ++ [BackoffSleep (5 # 1)%Q]
                         ++ main_limiter_events s1 ++ [Get url]
                         ++ [BackoffSleep (10 # 1)%Q]
                         ++ main_limiter_events s2) ++ [Get url]).
  { destruct (failed_state_frame site url s2) as (_ & _ & E2).
    destruct (failed_state_frame site url s1) as (_ & _ & E1).
    destruct (failed_state_frame site url st) as (_ & _ & E0).
    rewrite E2.
    assert (T2 : Main.trace s2
                 = Main.trace (main_failed_state site url s1)
                   ++ [BackoffSleep (10 # 1)%Q]) by reflexivity.
    assert (T1 : Main.trace s1
                 = Main.trace (main_failed_state site url st)
                   ++ [BackoffSleep (5 # 1)%Q]) by reflexivity.
    rewrite T2, E1, T1, E0. rewrite <- !app_assoc. reflexivity. }
  assert (Hfailed : Main.failed_attempts
                      (Main.rate_limiter (main_failed_state site url s2))
                    = Main.failed_attempts (Main.rate_limiter st) + 3).
  { destruct (failed_state_frame site url s2) as (_ & E2 & _).
    destruct (failed_state_frame site url s1) as (_ & E1 & _).
    destruct (failed_state_frame site url st) as (_ & E0 & _).
    rewrite E2.
    change (Main.rate_limiter s2)
      with (Main.rate_limiter (main_failed_state site url s1)).
    rewrite E1.
    change (Main.rate_limiter s1)
      with (Main.rate_limiter (main_failed_state site url st)).
    rewrite E0. lia. }
  assert (Hnew : new = (main_limiter_events st ++ [Get url]
                        ++ [BackoffSleep (5 # 1)%Q]
                        ++ main_limiter_events s1 ++ [Get url]
                        ++ [BackoffSleep (10 # 1)%Q]
                        ++ main_limiter_events s2) ++ [Get url]).
  { subst new. rewrite Hrun. simpl snd. rewrite Htrace.
    apply events_since_app. }
  destruct (limiter_events_quiet st) as (Hb0 & Hc0 & _).
  destruct (limiter_events_quiet s1) as (Hb1 & Hc1 & _).
  destruct (limiter_events_quiet s2) as (Hb2 & Hc2 & _).
  split; [now rewrite Hrun |].
  split; [rewrite Hnew, !count_gets_app, Hc0, Hc1, Hc2; reflexivity |].
  split; [rewrite Hnew, !backoff_sleeps_app, Hb0, Hb1, Hb2; reflexivity |].
  split; [eexists; exact Hnew |].
  now rewrite Hrun.
Qed.

(** C4.  [get_chapter_content] issues at most three GETs, whatever the site
    answers; the sleeps of its retry loop are at most two, the one after
    attempt number [i] (from 0) lasts [(i + 1) * 5] seconds, and they are
    strictly increasing.  When the URL is valid and all three attempts fail,
    it issues exactly three GETs, sleeps 5 and then 10 seconds between them,
    ends on the third GET with no sleep after it and returns the all-None
    outcome; each failure is recorded in the limiter, whose next wait
    therefore sleeps, for the ordinary interval plus
    [min(300, 2^failed - 1)], at least 7 seconds: the next chapter starts
    with that sleep. *)
Theorem C4_retry_backoff
    (html_parser : string -> list node) (site : server) (cfg : Config)
    (url : string) (st : Main.state) :
  let run := Main.get_chapter_content html_parser site cfg url st in
  let st' := snd run in
  let new := events_since (Main.trace st) (Main.trace st') in
  Main.trace st' = Main.trace st ++ new /\
  Main.gets st' = Main.gets st + count_gets new /\
  count_gets new <= 3 /\
  (exists j, j <= 2 /\ backoff_sleeps new = map backoff_delay (seq 0 j)) /\
  StronglySorted Qlt (backoff_sleeps new) /\
  (validate_url url = true ->
   (forall k, k < 3 ->
      main_attempt_fails html_parser cfg url (snd (site (Main.gets st + k) url)) = true) ->
   fst run = Return None /\
   count_gets new = 3 /\
   backoff_sleeps new = [(5 # 1)%Q; (10 # 1)%Q] /\
   (exists before, new = before ++ [Get url]) /\
   Main.failed_attempts (Main.rate_limiter st')
     = Main.failed_attempts (Main.rate_limiter st) + 3 /\
   (forall now : Q,
      let rl := Main.rate_limiter st' in
      fst (Main.wait now rl) = Some (Main.wait_time now rl) /\
      (inject_Z (Main.backoff_penalty (Main.failed_attempts rl))
       <= Main.wait_time now rl)%Q /\
      (7 <= Main.backoff_penalty (Main.failed_attempts rl))%Z) /\
   (forall next_url : string,
      validate_url next_url = true ->
      exists d more,
        Main.trace (snd (Main.get_chapter_content html_parser site cfg next_url st'))
        = Main.trace st' ++ LimiterSleep d :: Get next_url :: more /\
        (7 <= d)%Q)).
Proof.
  intros run st' new.
  assert (Hgen : Main.trace st' = Main.trace st ++ new /\
                 Main.gets st' = Main.gets st + count_gets new /\
                 count_gets new <= 3 /\
                 (exists j, j <= 2 /\ backoff_sleeps new = map backoff_delay (seq 0 j)) /\
                 StronglySorted Qlt (backoff_sleeps new)).
  { subst new st' run. unfold Main.get_chapter_content.
    destruct (validate_url url); cbn [negb]; cbv iota.
    - destruct (retry_loop_events html_parser site cfg url
                  (seq 0 Main.MAX_RETRIES) st)
        as (ev & k & Ht & Hg & Hc & Hb & HF).
      destruct (backoff_prefix_linear k HF) as (j & Hj & Hpre).
      pose proof (backoff_prefix_sorted k HF) as Hsorted.
      rewrite <- Hb in Hsorted. rewrite Hpre in Hb.
      destruct (Main.retry_loop html_parser site cfg url (seq 0 Main.MAX_RETRIES) st)
        as [r st1].
      cbn [snd] in *. rewrite Ht, events_since_app.
      split; [reflexivity |]. split; [exact Hg |]. split; [exact Hc |]. split.
      + exists j. split; [exact Hj | exact Hb].
      + exact Hsorted.
    - cbn [snd]. rewrite events_since_self, app_nil_r. simpl.
      split; [reflexivity |]. split; [lia |]. split; [lia |]. split.
      + exists 0. auto.
      + constructor. }
  destruct Hgen as (Ht & Hg & Hc & Hlin & Hs).
  split; [exact Ht |]. split; [exact Hg |]. split; [exact Hc |].
  split; [exact Hlin |]. split; [exact Hs |].
  intros Hvalid Hfail.
  destruct (main_three_failures html_parser site cfg url st Hvalid Hfail)
    as (Hr & Hn & Hb & Hlast & Hfailed).
  fold run in Hr, Hn, Hb, Hlast, Hfailed. fold st' in Hn, Hb, Hlast, Hfailed.
  fold new in Hn, Hb, Hlast.
  repeat (split; [assumption |]).
  assert (Hwait : forall now : Q,
            fst (Main.wait now (Main.rate_limiter st'))
              = Some (Main.wait_time now (Main.rate_limiter st')) /\
            (inject_Z (Main.backoff_penalty
                         (Main.failed_attempts (Main.rate_limiter st')))
             <= Main.wait_time now (Main.rate_limiter st'))%Q /\
            (7 <= Main.backoff_penalty
                    (Main.failed_attempts (Main.rate_limiter st')))%Z).
  { intros now.
    pose proof (wait_time_includes_penalty now (Main.rate_limiter st')) as Hpen.
    pose proof (penalty_after_three (Main.failed_attempts (Main.rate_limiter st)))
      as Hseven.
    rewrite Hfailed in *.
    specialize (Hpen ltac:(lia)).
    split; [| split; assumption].
    unfold Main.wait. simpl fst.
    destruct (Qlt_le_dec 0 _) as [Hpos | Hle]; [reflexivity | exfalso].
    assert (Hq : (inject_Z 7 <= inject_Z (Main.backoff_penalty
                    (Main.failed_attempts (Main.rate_limiter st) + 3)))%Q)
      by (rewrite <- Zle_Qle; assumption).
    assert (Hlt : (0 < inject_Z 7)%Q) by reflexivity.
    eapply Qlt_not_le; [| exact Hle].
    eapply Qlt_le_trans; [exact Hlt |]. eapply Qle_trans; eassumption. }
  split; [exact Hwait |].
  intros next_url Hnext.
  destruct (get_chapter_content_first_events html_parser site cfg next_url st' Hnext)
    as (more & Hmore).
  destruct (Hwait (Main.clock st')) as (Hsleeps & Hpen & Hseven).
  unfold main_limiter_events in Hmore. rewrite Hsleeps in Hmore.
  exists (Main.wait_time (Main.clock st') (Main.rate_limiter st')), more.
  split; [exact Hmore |].
  eapply Qle_trans; [| exact Hpen].
  change 7%Q with (inject_Z 7). rewrite <- Zle_Qle. exact Hseven.
Qed.

(** C4 against a site that answers 503 to every GET. *)
Lemma C4_retry_backoff_witness :
  let run := Main.get_chapter_content Parser.parse_html site_error
               (flags false false) good_url main_start in
  validate_url good_url = true /\
  fst run = Return None /\
  count_gets (Main.trace (snd run)) = 3 /\
  backoff_sleeps (Main.trace (snd run)) = [(5 # 1)%Q; (10 # 1)%Q] /\
  Main.failed_attempts (Main.rate_limiter (snd run)) = 3.
Proof.
  intros run.
  destruct (C4_retry_backoff Parser.parse_html site_error (flags false false)
              good_url main_start) as (_ & _ & _ & _ & _ & H).
  destruct (H eq_refl (fun k _ => eq_refl)) as (Hr & Hn & Hb & _ & Hf & _).
  split; [reflexivity |]. split; [exact Hr |].
  split; [exact Hn |]. split; [exact Hb | exact Hf].
Defined.

(* ------------------------------------------------------------------ *)
(** ** A chapter without narrative *)

(** In the pattern-based variant it raises, like any other failure. *)
Lemma main_zero_narrative_raises
    (html_parser : string -> list node) (cfg : Config) (url : string)
    (got : http_result) :
  main_zero_narrative html_parser cfg url got = true ->
  Main.attempt_body html_parser cfg url got
  = inl (ValueError "No valid content found").
Proof.
  unfold main_zero_narrative, Main.attempt_body.
  destruct got as [| status text]; [discriminate |].
  destruct (raises_for_status status); [discriminate |].
  destruct (nonempty (strip text)); [| discriminate]. simpl.
  destruct (Main.process_chapter_title cfg
              (find_by_class "span" "chapter-title" (html_parser text)) url)
    as [[| c title] |]; try discriminate.
  destruct (find_by_id "div" "chapter-container" (html_parser text))
    as [content_div |]; [| discriminate].
  destruct (Main.paragraphs (Main.process_content html_parser cfg content_div));
    [reflexivity | discriminate].
Qed.

(** In the separator-based variant the attempt returns the all-None tuple. *)
Lemma simple_zero_narrative_returns
    (html_parser : string -> list node) (cfg : Config) (url : string)
    (got : http_result) :
  simple_zero_narrative html_parser cfg url got = true ->
  Simple.attempt_body html_parser cfg url got = Simple.ReturnedNone.
Proof.
  unfold simple_zero_narrative, Simple.attempt_body.
  destruct got as [| status text]; [discriminate |].
  destruct (raises_for_status status); [discriminate |].
  destruct (nonempty (strip text)); [| discriminate]. simpl.
  destruct (find_by_class "span" "chapter-title" (html_parser text))
    as [title_elem |]; [| discriminate].
  destruct (find_by_id "div" "chapter-container" (html_parser text))
    as [content_div |]; [| discriminate].
  intros H. apply andb_true_iff in H. destruct H as [Htitle Hps].
  destruct (Simple.paragraphs (Simple.classify_content cfg content_div));
    [| discriminate].
  destruct (SIMPLE_CHAPTER_NAMES cfg).
  - destruct (search_chapter_number url); [reflexivity |].
    destruct (strip (node_text title_elem)); reflexivity.
  - destruct (strip (node_text title_elem)); reflexivity.
Qed.

(** The retry loop of the pattern-based variant does not look at the kind of
    failure: against two sites that take the same time to answer and whose
    answers all fail, it does the same. *)
Lemma main_failures_alike
    (html_parser : string -> list node) (site site' : server) (cfg : Config)
    (url : string) (attempts : list nat) (st : Main.state) :
  (forall k, fst (site k url) = fst (site' k url)) ->
  (forall k, main_attempt_fails html_parser cfg url (snd (site k url)) = true) ->
  (forall k, main_attempt_fails html_parser cfg url (snd (site' k url)) = true) ->
  Main.retry_loop html_parser site cfg url attempts st
  = Main.retry_loop html_parser site' cfg url attempts st.
Proof.
  intros Htime Hfail Hfail'. revert st.
  induction attempts as [| attempt rest IH]; intros st; [reflexivity |].
  rewrite (retry_failed html_parser site cfg url attempt rest st (Hfail _)).
  rewrite (retry_failed html_parser site' cfg url attempt rest st (Hfail' _)).
  assert (Hsame : main_failed_state site url st = main_failed_state site' url st).
  { unfold main_failed_state, Main.http_get.
    specialize (Htime (Main.gets (Main.limiter_wait st))).
    destruct (site (Main.gets (Main.limiter_wait st)) url) as [l g].
    destruct (site' (Main.gets (Main.limiter_wait st)) url) as [l' g'].
    simpl in Htime. subst l'. reflexivity. }
  rewrite Hsame. destruct (attempt <? Main.MAX_RETRIES - 1); [apply IH | reflexivity].
Qed.

Lemma simple_limiter_wait_frame (st : Simple.state) :
  Simple.gets (Simple.limiter_wait st) = Simple.gets st /\
  exists w, Simple.trace (Simple.limiter_wait st) = Simple.trace st ++ w /\
            backoff_sleeps w = [] /\ count_gets w = 0.
Proof.
  unfold Simple.limiter_wait.
  destruct (Simple.wait (Simple.clock st) (Simple.rate_limiter st)) as [[d |] rl];
    simpl.
  - split; [reflexivity |]. exists [LimiterSleep d]. auto.
  - split; [reflexivity |]. exists []. rewrite app_nil_r. auto.
Qed.

(** C3 (amended).  In the pattern-based variant an attempt in which
    classification yields no narrative paragraph raises, and the retry loop
    handles it as it handles every failure: it records the failure, sleeps
    and tries again while attempts remain, so that three such attempts make
    three GETs with sleeps of 5 and 10 seconds and end in the all-None
    outcome, exactly as against a site that only fails to answer.  In the
    separator-based variant such an attempt returns the all-None outcome at
    once: one GET, no sleep of the retry loop, no further attempt. *)
Theorem C3_zero_narrative_retry
    (html_parser : string -> list node) (site : server) (cfg : Config)
    (url : string) :
  (forall (st : Main.state) (attempt : nat) (rest : list nat),
     main_zero_narrative html_parser cfg url (snd (site (Main.gets st) url)) = true ->
     Main.retry_loop html_parser site cfg url (attempt :: rest) st =
     if attempt <? Main.MAX_RETRIES - 1
     then Main.retry_loop html_parser site cfg url rest
            (Main.sleep BackoffSleep (backoff_delay attempt)
               (main_failed_state site url st))
     else (None, main_failed_state site url st)) /\
  (forall st : Main.state,
     validate_url url = true ->
     (forall k, main_zero_narrative html_parser cfg url (snd (site k url)) = true) ->
     let run := Main.get_chapter_content html_parser site cfg url st in
     let new := events_since (Main.trace st) (Main.trace (snd run)) in
     fst run = Return None /\
     count_gets new = 3 /\
     backoff_sleeps new = [(5 # 1)%Q; (10 # 1)%Q] /\
     Main.failed_attempts (Main.rate_limiter (snd run))
       = Main.failed_attempts (Main.rate_limiter st) + 3 /\
     run = Main.get_chapter_content html_parser
             (fun k u => (fst (site k u), ConnectionFailed)) cfg url st) /\
  (forall st : Simple.state,
     simple_zero_narrative html_parser cfg url (snd (site (Simple.gets st) url)) = true ->
     let run := Simple.get_chapter_content html_parser site cfg url st in
     let new := events_since (Simple.trace st) (Simple.trace (snd run)) in
     fst run = None /\
     count_gets new = 1 /\
     backoff_sleeps new = [] /\
     Simple.gets (snd run) = S (Simple.gets st)).
Proof.
  split; [| split].
  - intros st attempt rest Hzero. apply retry_failed.
    unfold main_attempt_fails.
    now rewrite (main_zero_narrative_raises _ _ _ _ Hzero).
  - intros st Hvalid Hzero run new.
    assert (Hfail : forall k,
               main_attempt_fails html_parser cfg url (snd (site k url)) = true).
    { intros k. unfold main_attempt_fails.
      now rewrite (main_zero_narrative_raises _ _ _ _ (Hzero k)). }
    destruct (main_three_failures html_parser site cfg url st Hvalid
                (fun k _ => Hfail _)) as (Hr & Hn & Hb & _ & Hf).
    repeat (split; [assumption |]).
    subst run. unfold Main.get_chapter_content. rewrite Hvalid. simpl negb.
    cbv iota.
    rewrite (main_failures_alike html_parser site
               (fun k u => (fst (site k u), ConnectionFailed)) cfg url
               (seq 0 Main.MAX_RETRIES) st); auto.
  - intros st Hzero run new.
    pose proof (simple_zero_narrative_returns _ _ _ _ Hzero) as Hbody.
    destruct (simple_limiter_wait_frame st) as (Hg & w & Ht & Hb & Hc).
    assert (Hrun : run = (None, snd (Simple.http_get site url (Simple.limiter_wait st)))).
    { subst run. unfold Simple.get_chapter_content.
      change (seq 0 Simple.max_retries) with [0; 1; 2].
      cbn [Simple.retry_loop]. unfold Simple.http_get. rewrite Hg.
      destruct (site (Simple.gets st) url) as [latency got]. simpl in Hbody.
      now rewrite Hbody. }
    assert (Htrace : Simple.trace (snd run) = Simple.trace st ++ w ++ [Get url]).
    { rewrite Hrun. unfold Simple.http_get.
      destruct (site (Simple.gets (Simple.limiter_wait st)) url). simpl.
      now rewrite Ht, <- app_assoc. }
    subst new. rewrite Htrace, events_since_app.
    rewrite count_gets_app, backoff_sleeps_app, Hb, Hc.
    split; [now rewrite Hrun |]. split; [reflexivity |]. split; [reflexivity |].
    rewrite Hrun. unfold Simple.http_get.
    destruct (site (Simple.gets (Simple.limiter_wait st)) url). simpl.
    now rewrite Hg.
Qed.

(** C3 on [empty_page], for both fetchers. *)
Lemma C3_zero_narrative_retry_witness :
  let main_run := Main.get_chapter_content Parser.parse_html (site_of empty_page)
                    (flags false false) good_url main_start in
  let simple_run := Simple.get_chapter_content Parser.parse_html (site_of empty_page)
                      (flags false false) good_url simple_start in
  main_zero_narrative Parser.parse_html (flags false false) good_url
    (Response 200 empty_page) = true /\
  simple_zero_narrative Parser.parse_html (flags false false) good_url
    (Response 200 empty_page) = true /\
  fst main_run = Return None /\
  count_gets (Main.trace (snd main_run)) = 3 /\
  fst simple_run = None /\
  count_gets (Simple.trace (snd simple_run)) = 1.
Proof.
  intros main_run simple_run.
  destruct (C3_zero_narrative_retry Parser.parse_html (site_of empty_page)
              (flags false false) good_url) as (_ & Hmain & Hsimple).
  destruct (Hmain main_start eq_refl (fun _ => eq_refl)) as (Hr & Hn & _).
  destruct (Hsimple simple_start eq_refl) as (Hr' & Hn' & _).
  split; [reflexivity |]. split; [reflexivity |].
  split; [exact Hr |]. split; [exact Hn |]. split; [exact Hr' | exact Hn'].
Defined.

(** C3 as stated fails in the separator-based variant: against a site that
    serves [empty_page] it gives up after one GET, whereas against a site in
    error it makes three. *)
Lemma C3_counterexample :
  let empty_run := Simple.get_chapter_content Parser.parse_html (site_of empty_page)
                     (flags false false) good_url simple_start in
  let error_run := Simple.get_chapter_content Parser.parse_html site_error
                     (flags false false) good_url simple_start in
  simple_zero_narrative Parser.parse_html (flags false false) good_url
    (Response 200 empty_page) = true /\
  fst empty_run = None /\
  Simple.trace (snd empty_run) = [Get good_url] /\
  fst error_run = None /\
  count_gets (Simple.trace (snd error_run)) = 3 /\
  backoff_sleeps (Simple.trace (snd error_run)) = [(5 # 1)%Q; (10 # 1)%Q].
Proof. repeat split; vm_compute; reflexivity. Qed.

(* ------------------------------------------------------------------ *)
(** ** The chapter-fetch boundary *)

(** For a valid URL [get_chapter_content] returns: the chapter, or the
    all-None outcome. *)
Lemma get_chapter_content_returns
    (html_parser : string -> list node) (site : server) (cfg : Config)
    (url : string) (st : Main.state) :
  validate_url url = true ->
  Main.get_chapter_content html_parser site cfg url st =
  (Return (fst (Main.retry_loop html_parser site cfg url (seq 0 Main.MAX_RETRIES) st)),
   snd (Main.retry_loop html_parser site cfg url (seq 0 Main.MAX_RETRIES) st)).
Proof.
  intros Hvalid. unfold Main.get_chapter_content. rewrite Hvalid. cbn [negb].
  cbv iota.
  now destruct (Main.retry_loop html_parser site cfg url (seq 0 Main.MAX_RETRIES) st).
Qed.

(** For an invalid one it raises, before any attempt. *)
Lemma get_chapter_content_raises
    (html_parser : string -> list node) (site : server) (cfg : Config)
    (url : string) (st : Main.state) :
  validate_url url = false ->
  Main.get_chapter_content html_parser site cfg url st =
  (Raise (ValidationError "Invalid chapter URL"), st).
Proof.
  intros Hbad. unfold Main.get_chapter_content. now rewrite Hbad.
Qed.

Lemma progress_update_counts (ok : bool) (p : Main.Progress) :
  Main.current (Main.progress_update ok p) = Main.current p + 1 /\
  Main.success (Main.progress_update ok p)
    = Main.success p + (if ok then 1 else 0) /\
  Main.failures (Main.progress_update ok p)
    = Main.failures p + (if ok then 0 else 1).
Proof. destruct ok; simpl; repeat split; lia. Qed.





(* ------------------------------------------------------------------ *)
(** ** The chapter bounds *)

(** C9 (the code departs from it).  With [--start 5 --end 3] on the command
    line [get_user_input] raises nothing and returns the bounds as given:
    the run goes on to the chapter loop, which has nothing to visit, and ends
    with "No chapters were successfully scraped" instead of a validation
    error.  The same bounds typed at the prompts raise ValidationError. *)
Theorem C9_command_line_bounds_unchecked
    (html_parser : string -> list node) (site : server) (st : Main.state) :
  (exists inputs cfg rest,
     Main.get_user_input (args_for "https://example.com/novel" 5 3)
       config_at_start decline_and_confirm = (Return (inputs, cfg), rest) /\
     Main.start_chapter inputs = 5%Z /\
     Main.end_chapter inputs = 3%Z) /\
  Main.main html_parser site (args_for "https://example.com/novel" 5 3)
    decline_and_confirm st = (Main.NoChapters, st) /\
  fst (Main.get_user_input (args_without_bounds "https://example.com/novel")
         config_at_start ("5" :: "3" :: decline_and_confirm))
  = Raise (ValidationError "Start chapter cannot be greater than end chapter").
Proof.
  split; [| split].
  - vm_compute. eexists. eexists. eexists. repeat split.
  - reflexivity.
  - reflexivity.
Qed.

(* ------------------------------------------------------------------ *)
(** ** Further properties: the rate limiter *)

Lemma last_n_snoc (A : Type) (n : nat) (l : list A) (x : A) :
  last_n (S n) (l ++ [x]) = last_n n l ++ [x].
Proof.
  unfold last_n. rewrite length_app. simpl.
  replace (List.length l + 1 - S n) with (List.length l - n) by lia.
  rewrite skipn_app.
  replace (List.length l - n - List.length l) with 0 by lia. reflexivity.
Qed.

Lemma last_n_last_n (A : Type) (m n : nat) (l : list A) :
  m <= n -> last_n m (last_n n l) = last_n m l.
Proof.
  intros Hmn. unfold last_n. rewrite length_skipn, skipn_skipn. f_equal. lia.
Qed.

Lemma last_n_length (A : Type) (n : nat) (l : list A) :
  List.length (last_n n l) = Nat.min n (List.length l).
Proof. unfold last_n. rewrite length_skipn. lia. Qed.

Lemma deque_append_last_n (d : list Q) (x : Q) :
  List.length d <= 10 -> deque_append x d = last_n 10 (d ++ [x]).
Proof.
  intros Hd. rewrite last_n_snoc. unfold deque_append, last_n.
  destruct (Nat.leb_spec 10 (List.length d)) as [Hfull | Hroom].
  - replace (List.length d - 9) with 1 by lia.
    destruct d; simpl in *; [lia | reflexivity].
  - replace (List.length d - 9) with 0 by lia. reflexivity.
Qed.

Lemma deque_last_last_n (n : nat) (l : list Q) :
  deque_last (last_n (S n) l) = deque_last l.
Proof.
  destruct l as [| y l'] using rev_ind; [reflexivity |].
  rewrite last_n_snoc, !deque_last_snoc. reflexivity.
Qed.

Lemma main_waits_history (times hist : list Q) (rl : Main.RateLimiter) :
  Main.last_request_times rl = last_n 10 hist ->
  Main.last_request_times (main_waits times rl) = last_n 10 (hist ++ times) /\
  Main.failed_attempts (main_waits times rl) = Main.failed_attempts rl /\
  Main.min_interval (main_waits times rl) = Main.min_interval rl.
Proof.
  revert hist rl. induction times as [| now times IH]; intros hist rl Hrl.
  - simpl. rewrite app_nil_r. auto.
  - unfold main_waits. simpl. fold (main_waits times (snd (Main.wait now rl))).
    destruct (IH (hist ++ [now]) (snd (Main.wait now rl))) as (H1 & H2 & H3).
    + simpl. rewrite Hrl, deque_append_last_n
        by (rewrite last_n_length; lia).
      rewrite !last_n_snoc, last_n_last_n by lia. reflexivity.
    + rewrite <- app_assoc in H1. simpl in H1. auto.
Qed.

(** X1.  The limiter remembers the times of the ten latest calls of [wait],
    oldest first, whatever the number of calls; the time it measures the
    next interval from is that of the latest call, and calls of [wait] alone
    never touch the failure counter. *)
Theorem limiter_keeps_ten_latest (r : Q) (times : list Q) :
  let rl := main_waits times (Main.new_limiter r) in
  Main.last_request_times rl = last_n 10 times /\
  List.length (Main.last_request_times rl) = Nat.min 10 (List.length times) /\
  deque_last (Main.last_request_times rl) = deque_last times /\
  Main.failed_attempts rl = 0 /\
  limiter_ok rl.
Proof.
  intros rl.
  destruct (main_waits_history times [] (Main.new_limiter r) eq_refl)
    as (H1 & H2 & H3).
  fold rl in H1, H2, H3. simpl in H1.
  repeat split.
  - exact H1.
  - rewrite H1. apply last_n_length.
  - rewrite H1. apply deque_last_last_n.
  - exact H2.
  - unfold limiter_ok. rewrite H3. unfold rl.
    assert (Hrate : forall ts l, Main.rate (main_waits ts l) = Main.rate l).
    { induction ts as [| t ts IHts]; intros l; [reflexivity |].
      unfold main_waits in *. simpl. rewrite IHts. reflexivity. }
    rewrite Hrate. reflexivity.
Qed.

Lemma backoff_penalty_range (n : nat) :
  (0 <= Main.backoff_penalty n <= 300)%Z.
Proof.
  assert (Hpos : (0 < 2 ^ Z.of_nat n)%Z) by (apply Z.pow_pos_nonneg; lia).
  unfold Main.backoff_penalty. lia.
Qed.

(** X2.  The penalty added after failures is never negative and never above
    300 seconds, does not decrease with the number of failures, doubles
    (plus one second) with each failure up to the eighth, and is the cap of
    300 seconds exactly from the ninth failure on. *)
Theorem backoff_penalty_schedule (n : nat) :
  (0 <= Main.backoff_penalty n <= 300)%Z /\
  (Main.backoff_penalty n <= Main.backoff_penalty (S n))%Z /\
  (Main.backoff_penalty n = 300%Z <-> 9 <= n) /\
  (n <= 7 -> Main.backoff_penalty (S n) = (2 * Main.backoff_penalty n + 1)%Z).
Proof.
  destruct (backoff_penalty_cases n) as [Hlow Hhigh].
  destruct (backoff_penalty_cases (S n)) as [Hlow' Hhigh'].
  assert (Hpos : (0 < 2 ^ Z.of_nat n)%Z) by (apply Z.pow_pos_nonneg; lia).
  assert (Hstep : (2 ^ Z.of_nat (S n) = 2 * 2 ^ Z.of_nat n)%Z).
  { rewrite Nat2Z.inj_succ, Z.pow_succ_r by lia. reflexivity. }
  assert (Hrange : (0 <= Main.backoff_penalty n <= 300)%Z)
    by (unfold Main.backoff_penalty; lia).
  split; [exact Hrange |]. split; [| split].
  - unfold Main.backoff_penalty. rewrite Hstep. lia.
  - split; intros H.
    + destruct (Nat.le_gt_cases n 8) as [H8 | H9]; [| lia].
      rewrite Hlow in H by exact H8.
      assert (2 ^ Z.of_nat n <= 2 ^ 8)%Z by (apply Z.pow_le_mono_r; lia).
      change (2 ^ 8)%Z with 256%Z in *. lia.
    + apply Hhigh. exact H.
  - intros H7. rewrite Hlow' by lia. rewrite Hlow by lia. rewrite Hstep. lia.
Qed.

Lemma backoff_penalty_schedule_witness :
  Main.backoff_penalty 4 = (2 * Main.backoff_penalty 3 + 1)%Z /\
  (Main.backoff_penalty 9 = 300%Z).
Proof.
  split.
  - apply (backoff_penalty_schedule 3). lia.
  - apply (backoff_penalty_schedule 9). lia.
Defined.

(** X3.  [RateLimiter.wait] never computes a negative wait; when the clock
    has not gone back since the last recorded request and the interval is
    not negative, the wait is at most the interval plus the cap of 300
    seconds, and at most the interval when no failure is recorded. *)
Theorem wait_time_bounded (now : Q) (rl : Main.RateLimiter) :
  (0 <= Main.wait_time now rl)%Q /\
  ((0 <= Main.min_interval rl)%Q ->
   (forall last, deque_last (Main.last_request_times rl) = Some last ->
                 (last <= now)%Q) ->
   (Main.wait_time now rl <= Main.min_interval rl + 300)%Q /\
   (Main.failed_attempts rl = 0 ->
    (Main.wait_time now rl <= Main.min_interval rl)%Q)).
Proof.
  unfold Main.wait_time.
  set (base := match deque_last (Main.last_request_times rl) with
               | Some last => Qmax 0 (Main.min_interval rl - (now - last))
               | None => 0%Q
               end).
  assert (Hbase0 : (0 <= base)%Q).
  { unfold base. destruct (deque_last (Main.last_request_times rl)).
    - apply Q.le_max_l.
    - apply Qle_refl. }
  assert (Hpen : (0 <= inject_Z (Main.backoff_penalty (Main.failed_attempts rl))
                  <= 300)%Q).
  { destruct (backoff_penalty_range (Main.failed_attempts rl)) as [H0 H300].
    split.
    - change 0%Q with (inject_Z 0). rewrite <- Zle_Qle. exact H0.
    - change 300%Q with (inject_Z 300). rewrite <- Zle_Qle. exact H300. }
  split.
  - destruct (0 <? Main.failed_attempts rl); [| exact Hbase0].
    destruct Hpen as [Hp0 _]. lra.
  - intros Hmi Hclock.
    assert (Hbase : (base <= Main.min_interval rl)%Q).
    { unfold base. destruct (deque_last (Main.last_request_times rl)) as [last |].
      - specialize (Hclock last eq_refl).
        apply Q.max_lub; [exact Hmi | lra].
      - exact Hmi. }
    split.
    + destruct (0 <? Main.failed_attempts rl); destruct Hpen as [Hp0 Hp300]; lra.
    + intros Hf. rewrite Hf. simpl. exact Hbase.
Qed.

Lemma wait_time_bounded_witness :
  let rl := {| Main.rate := (20 # 1)%Q; Main.min_interval := (1 / (20 # 1))%Q;
               Main.last_request_times := [(10 # 1)%Q];
               Main.failed_attempts := 0 |} in
  (Main.wait_time (501 # 50) rl <= Main.min_interval rl)%Q.
Proof.
  intros rl.
  apply (wait_time_bounded (501 # 50) rl).
  - vm_compute. discriminate.
  - intros last H. injection H as <-. vm_compute. discriminate.
  - reflexivity.
Defined.

(* ------------------------------------------------------------------ *)
(** ** Further properties: how a fetch of the pattern-based variant ends *)

Section MainOutcome.

Variable html_parser : string -> list node.
Variable site : server.
Variable cfg : Config.
Variable url : string.

Local Abbreviation loop := (Main.retry_loop html_parser site cfg url).
Local Abbreviation fails :=
  (fun k => main_attempt_fails html_parser cfg url (snd (site k url))).

(** The loop ends with a chapter at the first attempt that does not raise,
    and with nothing once the attempts are used up or the last allowed one
    has failed; all the attempts before have raised. *)
Lemma retry_loop_outcome (attempts : list nat) (st : Main.state) :
  exists new,
    Main.trace (snd (loop attempts st)) = Main.trace st ++ new /\
    match fst (loop attempts st) with
    | Some ch =>
        Main.failed_attempts (Main.rate_limiter (snd (loop attempts st))) = 0 /\
        exists j,
          j < List.length attempts /\
          count_gets new = S j /\
          backoff_sleeps new = map backoff_delay (firstn j attempts) /\
          Main.attempt_body html_parser cfg url (snd (site (Main.gets st + j) url))
            = inr ch /\
          (forall i, i < j -> fails (Main.gets st + i) = true)
    | None =>
        Main.failed_attempts (Main.rate_limiter (snd (loop attempts st)))
          = Main.failed_attempts (Main.rate_limiter st) + count_gets new /\
        (forall i, i < count_gets new -> fails (Main.gets st + i) = true) /\
        (count_gets new = List.length attempts \/
         exists j a, nth_error attempts j = Some a /\ Main.MAX_RETRIES - 1 <= a /\
                     count_gets new = S j)
    end.
Proof.
  revert st. induction attempts as [| attempt rest IH]; intros st.
  - exists []. simpl. rewrite app_nil_r. repeat split; auto. intros i Hi. lia.
  - destruct (Main.attempt_body html_parser cfg url (snd (site (Main.gets st) url)))
      as [e | ch] eqn:Hbody.
    + assert (Hfail : fails (Main.gets st) = true)
        by (unfold main_attempt_fails; now rewrite Hbody).
      rewrite (retry_failed html_parser site cfg url attempt rest st Hfail).
      destruct (failed_state_frame site url st) as (Hg & Hf & Ht).
      destruct (limiter_events_quiet st) as (Hb & Hc & _).
      destruct (Nat.ltb_spec attempt (Main.MAX_RETRIES - 1)) as [Hlt | Hge].
      * set (st1 := Main.sleep BackoffSleep (backoff_delay attempt)
                      (main_failed_state site url st)).
        destruct (IH st1) as (new & IHt & IHcase).
        assert (Hg1 : Main.gets st1 = S (Main.gets st)) by exact Hg.
        assert (Hf1 : Main.failed_attempts (Main.rate_limiter st1)
                      = Main.failed_attempts (Main.rate_limiter st) + 1) by exact Hf.
        assert (Ht1 : Main.trace st1
                      = Main.trace st ++ main_limiter_events st ++ [Get url]
                        ++ [BackoffSleep (backoff_delay attempt)]).
        { unfold st1.
          destruct (sleep_frame BackoffSleep (backoff_delay attempt)
                      (main_failed_state site url st)) as (_ & _ & Hs).
          rewrite Hs, Ht, <- !app_assoc. reflexivity. }
        exists (main_limiter_events st ++ [Get url]
                ++ [BackoffSleep (backoff_delay attempt)] ++ new).
        split.
        { rewrite IHt, Ht1, <- !app_assoc. reflexivity. }
        assert (Hcount : count_gets (main_limiter_events st ++ [Get url]
                           ++ [BackoffSleep (backoff_delay attempt)] ++ new)
                         = S (count_gets new)).
        { rewrite !count_gets_app, Hc. reflexivity. }
        assert (Hsleeps : backoff_sleeps (main_limiter_events st ++ [Get url]
                            ++ [BackoffSleep (backoff_delay attempt)] ++ new)
                          = backoff_delay attempt :: backoff_sleeps new).
        { rewrite !backoff_sleeps_app, Hb. reflexivity. }
        destruct (fst (loop rest st1)) as [ch |].
        -- destruct IHcase as (Hzero & j & Hj & Hcj & Hbj & Hok & Hbefore).
           split; [exact Hzero |].
           exists (S j). rewrite Hcount, Hsleeps, Hcj, Hbj. simpl.
           repeat split; try lia.
           ++ rewrite Hg1 in Hok.
              replace (Main.gets st + S j) with (S (Main.gets st) + j) by lia.
              exact Hok.
           ++ intros i Hi. destruct i as [| i'].
              ** rewrite Nat.add_0_r. exact Hfail.
              ** replace (Main.gets st + S i') with (Main.gets st1 + i')
                   by (rewrite Hg1; lia).
                 apply Hbefore. lia.
        -- destruct IHcase as (Hfailed & Hall & Hend).
           rewrite Hcount. repeat split.
           ++ rewrite Hfailed, Hf1. lia.
           ++ intros i Hi. destruct i as [| i'].
              ** rewrite Nat.add_0_r. exact Hfail.
              ** replace (Main.gets st + S i') with (Main.gets st1 + i')
                   by (rewrite Hg1; lia).
                 apply Hall. lia.
           ++ destruct Hend as [Hlen | (j & a & Hnth & Ha & Hcj)].
              ** left. simpl. lia.
              ** right. exists (S j), a. simpl. repeat split; auto.
      * exists (main_limiter_events st ++ [Get url]).
        cbn [fst snd]. split; [exact Ht |].
        assert (Hone : count_gets (main_limiter_events st ++ [Get url]) = 1)
          by (rewrite count_gets_app, Hc; reflexivity).
        rewrite Hone.
        repeat split.
        -- rewrite Hf. reflexivity.
        -- intros i Hi. replace i with 0 by lia. rewrite Nat.add_0_r. exact Hfail.
        -- right. exists 0, attempt. simpl. auto.
    + rewrite (retry_succeeded html_parser site cfg url attempt rest st ch Hbody).
      cbn [fst snd].
      destruct (http_get_frame site url (Main.limiter_wait st)) as (_ & Hg & _ & Ht).
      destruct (limiter_wait_frame st) as (Hg' & _ & Ht').
      destruct (limiter_events_quiet st) as (Hb & Hc & _).
      exists (main_limiter_events st ++ [Get url]).
      change (Main.trace (Main.with_limiter Main.record_success ?s))
        with (Main.trace s).
      rewrite Ht, Ht', <- app_assoc. split; [reflexivity |].
      split; [reflexivity |].
      exists 0. rewrite !backoff_sleeps_app, !count_gets_app, Hb, Hc, Nat.add_0_r.
      simpl. repeat split; auto; try lia.
Qed.

End MainOutcome.

(** X4.  For a valid URL, [get_chapter_content] ends in one of two ways.  It
    returns a chapter made from the response to the first GET whose
    processing raised nothing: so many GETs as attempts, the sleeps of 5 and
    10 seconds after the failed ones, and the limiter's failure counter back
    at zero.  Or it returns nothing, and then exactly three GETs were made,
    all three attempts raised, the loop slept 5 and 10 seconds, and the
    failure counter has grown by three.  It raises nothing. *)
Theorem main_fetch_outcomes
    (html_parser : string -> list node) (site : server) (cfg : Config)
    (url : string) (st : Main.state) :
  validate_url url = true ->
  let run := Main.get_chapter_content html_parser site cfg url st in
  let new := events_since (Main.trace st) (Main.trace (snd run)) in
  match fst run with
  | Return (Some ch) =>
      Main.failed_attempts (Main.rate_limiter (snd run)) = 0 /\
      exists j,
        j <= 2 /\
        count_gets new = S j /\
        backoff_sleeps new = map backoff_delay (seq 0 j) /\
        Main.attempt_body html_parser cfg url (snd (site (Main.gets st + j) url))
          = inr ch /\
        (forall i, i < j ->
           main_attempt_fails html_parser cfg url (snd (site (Main.gets st + i) url))
           = true)
  | Return None =>
      count_gets new = 3 /\
      backoff_sleeps new = [(5 # 1)%Q; (10 # 1)%Q] /\
      Main.failed_attempts (Main.rate_limiter (snd run))
        = Main.failed_attempts (Main.rate_limiter st) + 3 /\
      (forall i, i < 3 ->
         main_attempt_fails html_parser cfg url (snd (site (Main.gets st + i) url))
         = true)
  | Raise _ => False
  end.
Proof.
  intros Hvalid run new.
  assert (Hrun : run = (Return (fst (Main.retry_loop html_parser site cfg url
                                       (seq 0 Main.MAX_RETRIES) st)),
                        snd (Main.retry_loop html_parser site cfg url
                               (seq 0 Main.MAX_RETRIES) st)))
    by (apply get_chapter_content_returns; exact Hvalid).
  destruct (retry_loop_outcome html_parser site cfg url (seq 0 Main.MAX_RETRIES) st)
    as (ev & Ht & Hcase).
  assert (Hnew : new = ev).
  { unfold new. rewrite Hrun. cbn [snd]. rewrite Ht. apply events_since_app. }
  destruct (fst (Main.retry_loop html_parser site cfg url (seq 0 Main.MAX_RETRIES) st))
    as [ch |] eqn:Hfst.
  - rewrite Hrun. cbn [fst snd].
    destruct Hcase as (Hzero & j & Hj & Hcj & Hbj & Hok & Hbefore).
    split; [exact Hzero |].
    exists j. rewrite Hnew. simpl in Hj.
    repeat split; auto; try lia.
    rewrite Hbj. f_equal.
    destruct j as [| [| [| j']]]; try reflexivity. lia.
  - destruct Hcase as (Hfailed & Hall & Hend).
    assert (Hthree : count_gets ev = 3).
    { destruct Hend as [Hlen | (j & a & Hnth & Ha & Hcj)]; [exact Hlen |].
      destruct j as [| [| [| j']]]; simpl in Hnth.
      - injection Hnth as <-. unfold Main.MAX_RETRIES in Ha. lia.
      - injection Hnth as <-. unfold Main.MAX_RETRIES in Ha. lia.
      - exact Hcj.
      - destruct j'; discriminate. }
    rewrite Hthree in Hall.
    destruct (main_three_failures html_parser site cfg url st Hvalid Hall)
      as (_ & _ & Hsleeps & _ & Hf3).
    fold run in Hsleeps, Hf3. fold new in Hsleeps.
    rewrite Hrun. cbn [fst snd].
    rewrite Hrun in Hf3. cbn [snd] in Hf3.
    rewrite Hnew. repeat split; auto.
    rewrite <- Hnew. exact Hsleeps.
Qed.

Lemma main_fetch_outcomes_witness :
  validate_url good_url = true /\
  Main.failed_attempts
    (Main.rate_limiter
       (snd (Main.get_chapter_content Parser.parse_html (site_of story_page)
               (flags false false) good_url main_start))) = 0.
Proof.
  split; [reflexivity |].
  pose proof (main_fetch_outcomes Parser.parse_html (site_of story_page)
                (flags false false) good_url main_start eq_refl) as H.
  cbv zeta in H.
  destruct (fst (Main.get_chapter_content Parser.parse_html (site_of story_page)
                   (flags false false) good_url main_start)) as [[ch |] | e] eqn:Hfst.
  - exact (proj1 H).
  - vm_compute in Hfst. discriminate.
  - contradiction.
Defined.



(* ------------------------------------------------------------------ *)
(** ** Further properties: the clean-up of the content container *)

Section Cleaning.

Variable sel : selector.

Local Abbreviation below := (fun k : node => k :: descendants k).
Local Abbreviation keep :=
  (fun k : node => if sel_matches sel k then [] else [decompose_in sel k]).

(** Whether a selector matches depends on the tag and the attributes of an
    element only, which the removal below it leaves alone. *)
Lemma sel_matches_decompose (s : selector) (k : node) :
  sel_matches s (decompose_in sel k) = sel_matches s k.
Proof. destruct k; destruct s; reflexivity. Qed.

Lemma in_keep (l : list node) (x : node) :
  In x (flat_map keep l) <->
  exists y, In y l /\ sel_matches sel y = false /\ x = decompose_in sel y.
Proof.
  rewrite in_flat_map. split.
  - intros (y & Hy & Hx). exists y.
    destruct (sel_matches sel y); simpl in Hx; [contradiction |].
    destruct Hx as [<- | []]. auto.
  - intros (y & Hy & Hm & ->). exists y. rewrite Hm. simpl. auto.
Qed.

Lemma forest_comes_from_before (l : list node) :
  Forall (comes_from_before sel) l ->
  forall k, In k (flat_map below (flat_map keep l)) ->
  exists d, In d (flat_map below l) /\ sel_matches sel d = false
            /\ k = decompose_in sel d.
Proof.
  intros Hall k Hk.
  apply in_flat_map in Hk. destruct Hk as (x & Hx & Hk).
  apply in_keep in Hx. destruct Hx as (y & Hy & Hm & ->).
  destruct Hk as [<- | Hk].
  - exists y. repeat split; auto. apply in_flat_map. exists y. simpl. auto.
  - rewrite Forall_forall in Hall.
    destruct (Hall y Hy k Hk) as (d & Hd & Hdm & ->).
    exists d. repeat split; auto. apply in_flat_map. exists y. simpl. auto.
Qed.

Lemma node_comes_from_before (n : node) : comes_from_before sel n.
Proof.
  induction n as [s | s | tag a kids IH] using node_ind';
    try (intros k Hk; simpl in Hk; contradiction).
  intros k Hk. simpl in Hk. simpl.
  apply forest_comes_from_before; assumption.
Qed.

Lemma soup_comes_from_before (doc : list node) (k : node) :
  In k (soup_nodes (decompose_soup sel doc)) ->
  exists d, In d (soup_nodes doc) /\ sel_matches sel d = false
            /\ k = decompose_in sel d.
Proof.
  apply forest_comes_from_before.
  apply Forall_forall. intros n _. apply node_comes_from_before.
Qed.

(** Where nothing matches, nothing changes. *)
Lemma forest_unchanged (l : list node) :
  Forall (fun n => (forall k, In k (descendants n) -> sel_matches sel k = false) ->
                   decompose_in sel n = n) l ->
  (forall k, In k (flat_map below l) -> sel_matches sel k = false) ->
  flat_map keep l = l.
Proof.
  induction 1 as [| n l Hn Hl IH]; intros Hfree; [reflexivity |].
  simpl. rewrite (Hfree n) by (simpl; auto). simpl.
  rewrite Hn, IH; [reflexivity | |].
  - intros k Hk. apply Hfree. simpl. right. apply in_or_app. auto.
  - intros k Hk. apply Hfree. simpl. right. apply in_or_app. auto.
Qed.

Lemma decompose_unchanged (n : node) :
  (forall k, In k (descendants n) -> sel_matches sel k = false) ->
  decompose_in sel n = n.
Proof.
  induction n as [s | s | tag a kids IH] using node_ind'; try reflexivity.
  intros Hfree. simpl. f_equal. apply forest_unchanged; assumption.
Qed.

Lemma decompose_soup_unchanged (doc : list node) :
  (forall k, In k (soup_nodes doc) -> sel_matches sel k = false) ->
  decompose_soup sel doc = doc.
Proof.
  apply forest_unchanged. apply Forall_forall. intros n _. apply decompose_unchanged.
Qed.

End Cleaning.

(** The removal of a list of selectors, one after the other. *)
Lemma clean_fold_comes_from_before (sels : list selector) (n k : node) :
  In k (descendants (fold_left (fun n sel => decompose_in sel n) sels n)) ->
  exists d, In d (descendants n) /\
            (forall sel, In sel sels -> sel_matches sel d = false) /\
            k = fold_left (fun n sel => decompose_in sel n) sels d.
Proof.
  revert n k. induction sels as [| s rest IH]; intros n k Hk.
  - exists k. simpl in *. repeat split; auto. intros sel [].
  - simpl in Hk. destruct (IH _ _ Hk) as (d1 & Hd1 & Hfree & ->).
    destruct (node_comes_from_before s n d1 Hd1) as (d & Hd & Hm & ->).
    exists d. repeat split; auto.
    intros sel [<- | Hin]; [exact Hm |].
    rewrite <- (sel_matches_decompose s sel d). apply Hfree. exact Hin.
Qed.

Lemma clean_fold_matches (sels : list selector) (s : selector) (d : node) :
  sel_matches s (fold_left (fun n sel => decompose_in sel n) sels d) = sel_matches s d.
Proof.
  revert d. induction sels as [| s' rest IH]; intros d; [reflexivity |].
  simpl. rewrite IH. apply sel_matches_decompose.
Qed.

Lemma clean_fold_unchanged (sels : list selector) (n : node) :
  (forall k sel, In k (descendants n) -> In sel sels -> sel_matches sel k = false) ->
  fold_left (fun n sel => decompose_in sel n) sels n = n.
Proof.
  revert n. induction sels as [| s rest IH]; intros n Hfree; [reflexivity |].
  simpl. rewrite decompose_unchanged.
  - apply IH. intros k sel Hk Hsel. apply Hfree; simpl; auto.
  - intros k Hk. apply Hfree; simpl; auto.
Qed.

Lemma soup_fold_comes_from_before (sels : list selector) (doc : list node) (k : node) :
  In k (soup_nodes (fold_left (fun doc sel => decompose_soup sel doc) sels doc)) ->
  exists d, In d (soup_nodes doc) /\
            (forall sel, In sel sels -> sel_matches sel d = false) /\
            k = fold_left (fun n sel => decompose_in sel n) sels d.
Proof.
  revert doc k. induction sels as [| s rest IH]; intros doc k Hk.
  - exists k. simpl in *. repeat split; auto. intros sel [].
  - simpl in Hk. destruct (IH _ _ Hk) as (d1 & Hd1 & Hfree & ->).
    destruct (soup_comes_from_before s doc d1 Hd1) as (d & Hd & Hm & ->).
    exists d. repeat split; auto.
    intros sel [<- | Hin]; [exact Hm |].
    rewrite <- (sel_matches_decompose s sel d). apply Hfree. exact Hin.
Qed.

Lemma unmatched_spec (sels : list selector) (k : node) :
  unmatched sels k = true <-> forall sel, In sel sels -> sel_matches sel k = false.
Proof.
  unfold unmatched. rewrite negb_true_iff. split.
  - intros H sel Hsel. destruct (sel_matches sel k) eqn:Hm; [| reflexivity].
    assert (existsb (fun sel0 => sel_matches sel0 k) sels = true)
      by (apply existsb_exists; exists sel; auto).
    congruence.
  - intros H. destruct (existsb (fun sel => sel_matches sel k) sels) eqn:He;
      [| reflexivity].
    apply existsb_exists in He. destruct He as (sel & Hsel & Hm).
    rewrite (H sel Hsel) in Hm. discriminate.
Qed.

(** X6.  After the clean-up of the separator-based variant, no element
    below the content container matches any of the selectors of the list
    (scripts, [ins], [iframe], the advertisement classes and
    [div[data-defid]]); every element left is the cleaned form of an element
    that was there and matched none of them; the paragraphs the loop then
    scans are among these; and cleaning a second time, or cleaning a
    container that holds no such element, changes nothing. *)
Theorem simple_clean_removes_ads (content_div : node) :
  ad_free Simple.ad_selectors (Simple.clean content_div) = true /\
  (forall k, In k (descendants (Simple.clean content_div)) ->
     exists d, In d (descendants content_div) /\
               unmatched Simple.ad_selectors d = true /\
               k = Simple.clean d) /\
  (forall p, In p (find_all ["p"] (Simple.clean content_div)) ->
     unmatched Simple.ad_selectors p = true) /\
  Simple.clean (Simple.clean content_div) = Simple.clean content_div /\
  (ad_free Simple.ad_selectors content_div = true ->
   Simple.clean content_div = content_div).
Proof.
  assert (Hfrom : forall k, In k (descendants (Simple.clean content_div)) ->
            exists d, In d (descendants content_div) /\
                      unmatched Simple.ad_selectors d = true /\
                      k = Simple.clean d).
  { intros k Hk. unfold Simple.clean in Hk.
    destruct (clean_fold_comes_from_before _ _ _ Hk) as (d & Hd & Hfree & ->).
    exists d. repeat split; auto. apply unmatched_spec. exact Hfree. }
  assert (Hfree : forall k, In k (descendants (Simple.clean content_div)) ->
            unmatched Simple.ad_selectors k = true).
  { intros k Hk. destruct (Hfrom k Hk) as (d & _ & Hd & ->).
    apply unmatched_spec. intros sel Hsel. unfold Simple.clean.
    rewrite clean_fold_matches.
    rewrite unmatched_spec in Hd. apply Hd. exact Hsel. }
  assert (Hid : forall n, ad_free Simple.ad_selectors n = true -> Simple.clean n = n).
  { intros n Hn. unfold Simple.clean. apply clean_fold_unchanged.
    intros k sel Hk Hsel. unfold ad_free in Hn. rewrite forallb_forall in Hn.
    specialize (Hn k Hk). rewrite unmatched_spec in Hn. apply Hn. exact Hsel. }
  assert (Hclean : ad_free Simple.ad_selectors (Simple.clean content_div) = true).
  { unfold ad_free. apply forallb_forall. exact Hfree. }
  repeat split; auto.
  intros p Hp. apply Hfree. unfold find_all in Hp.
  apply filter_In in Hp. apply Hp.
Qed.

Lemma simple_clean_removes_ads_witness :
  Simple.clean page_separators = page_separators.
Proof.
  apply (simple_clean_removes_ads page_separators). reflexivity.
Defined.

(** X7.  After [_clean_html_content], whatever the parser made of the
    container's markup, no element of the document matches any of the
    selectors removed (scripts, the three advertisement classes,
    [div[data-defid]] and [div[data-mobid]]); so no paragraph the loop scans
    is one of them, and every element left is the cleaned form of an element
    the parser gave. *)
Theorem main_clean_removes_ads
    (html_parser : string -> list node) (content_div : node) :
  let cleaned := Main.clean_html_content html_parser content_div in
  let parsed :=
    html_parser (re_sub_delete true "<!--sse-->" "<!--/sse-->" (render content_div)) in
  soup_ad_free Main.ad_selectors cleaned = true /\
  (forall p, In p (soup_find_all ["p"] cleaned) ->
     unmatched Main.ad_selectors p = true) /\
  (forall k, In k (soup_nodes cleaned) ->
     exists d, In d (soup_nodes parsed) /\
               unmatched Main.ad_selectors d = true /\
               k = fold_left (fun n sel => decompose_in sel n) Main.ad_selectors d) /\
  (soup_ad_free Main.ad_selectors parsed = true -> cleaned = parsed).
Proof.
  intros cleaned parsed.
  assert (Hfrom : forall k, In k (soup_nodes cleaned) ->
            exists d, In d (soup_nodes parsed) /\
                      unmatched Main.ad_selectors d = true /\
                      k = fold_left (fun n sel => decompose_in sel n)
                            Main.ad_selectors d).
  { intros k Hk. unfold cleaned, Main.clean_html_content in Hk.
    destruct (soup_fold_comes_from_before _ _ _ Hk) as (d & Hd & Hfree & ->).
    exists d. repeat split; auto. apply unmatched_spec. exact Hfree. }
  assert (Hfree : forall k, In k (soup_nodes cleaned) ->
            unmatched Main.ad_selectors k = true).
  { intros k Hk. destruct (Hfrom k Hk) as (d & _ & Hd & ->).
    apply unmatched_spec. intros sel Hsel.
    rewrite clean_fold_matches.
    rewrite unmatched_spec in Hd. apply Hd. exact Hsel. }
  repeat split; auto.
  - unfold soup_ad_free. apply forallb_forall. exact Hfree.
  - intros p Hp. apply Hfree. unfold soup_find_all in Hp.
    apply filter_In in Hp. apply Hp.
  - intros Hclean. unfold cleaned, Main.clean_html_content. fold parsed.
    unfold soup_ad_free in Hclean. rewrite forallb_forall in Hclean.
    assert (Hgen : forall sels doc,
              (forall k sel, In k (soup_nodes doc) -> In sel sels ->
                             sel_matches sel k = false) ->
              fold_left (fun doc sel => decompose_soup sel doc) sels doc = doc).
    { induction sels as [| s rest IH]; intros doc Hdoc; [reflexivity |].
      simpl. rewrite decompose_soup_unchanged.
      - apply IH. intros k sel Hk Hsel. apply Hdoc; simpl; auto.
      - intros k Hk. apply Hdoc; simpl; auto. }
    apply Hgen. intros k sel Hk Hsel.
    specialize (Hclean k Hk). rewrite unmatched_spec in Hclean.
    apply Hclean. exact Hsel.
Qed.

Lemma main_clean_removes_ads_witness :
  Main.clean_html_content Parser.parse_html page_notes
  = Parser.parse_html
      (re_sub_delete true "<!--sse-->" "<!--/sse-->" (render page_notes)).
Proof.
  apply (main_clean_removes_ads Parser.parse_html page_notes). reflexivity.
Defined.

(* ------------------------------------------------------------------ *)
(** ** Further properties: stripping the markers *)

Lemma contains_eqn (needle hay : string) :
  contains needle hay =
  if prefix needle hay then true
  else match hay with
       | EmptyString => false
       | String _ t => contains needle t
       end.
Proof. destruct hay; reflexivity. Qed.

Lemma contains_false_here (needle hay : string) :
  contains needle hay = false -> prefix needle hay = false.
Proof.
  rewrite contains_eqn. destruct (prefix needle hay); auto.
Qed.

Lemma contains_false_tail (needle : string) (c : ascii) (t : string) :
  contains needle (String c t) = false -> contains needle t = false.
Proof.
  rewrite contains_eqn. destruct (prefix needle (String c t)); auto. discriminate.
Qed.

Lemma sub_skip_unmarked (dotall : bool) (open close s : string) :
  contains open s = false -> sub_skip dotall open close 0 s = s.
Proof.
  induction s as [| c t IH]; intros H; [reflexivity |].
  cbn [sub_skip]. unfold match_here.
  rewrite (contains_false_here _ _ H).
  rewrite IH by (eapply contains_false_tail; exact H). reflexivity.
Qed.

Lemma sub_skip_shorter (dotall : bool) (open close : string) (s : string) (k : nat) :
  String.length (sub_skip dotall open close k s) <= String.length s.
Proof.
  revert k. induction s as [| c t IH]; intros k; [simpl; lia |].
  cbn [sub_skip]. destruct k as [| k'].
  - destruct (match_here dotall open close (String c t)) as [[| m] |]; simpl.
    + specialize (IH 0). lia.
    + specialize (IH m). lia.
    + specialize (IH 0). lia.
  - simpl. specialize (IH k'). lia.
Qed.

(** X8.  With footnotes off, formatting a paragraph only deletes text: the
    result is never longer than the markup it was given, and markup that
    does not hold the literal text [<sup>] comes back as it is (so a marker
    written with an attribute, as [<sup class="r">], is not stripped); a
    chapter of such paragraphs is their markup joined by newlines.  The
    footnote table and the parser play no part. *)
Theorem strip_only_plain_markers
    (html_parser : string -> list node) (cfg : Config) (footnotes : Dict.dict) :
  INCLUDE_FOOTNOTES cfg = false ->
  (forall p, String.length (format_paragraph html_parser cfg footnotes p)
             <= String.length p) /\
  (forall p, contains "<sup>" p = false ->
             format_paragraph html_parser cfg footnotes p = p) /\
  (forall ps, Forall (fun p => contains "<sup>" p = false) ps ->
              format_chapter_content html_parser cfg ps footnotes
              = join (String newline "") ps) /\
  (forall p parser' footnotes',
     format_paragraph html_parser cfg footnotes p
     = format_paragraph parser' cfg footnotes' p).
Proof.
  intros Hoff. unfold format_chapter_content, format_paragraph. rewrite Hoff.
  repeat split.
  - intros p. apply sub_skip_shorter.
  - intros p Hp. apply sub_skip_unmarked. exact Hp.
  - intros ps Hps. f_equal.
    induction Hps as [| p ps Hp Hps IH]; [reflexivity |].
    simpl. rewrite IH. f_equal. apply sub_skip_unmarked. exact Hp.
Qed.

Lemma strip_only_plain_markers_witness :
  let p := "<p>a<sup class=" +++ dquote +++ "r" +++ dquote +++ ">1</sup></p>" in
  format_paragraph Parser.parse_html (flags false false) [("1", "one")] p = p.
Proof.
  intros p.
  apply (strip_only_plain_markers Parser.parse_html (flags false false) [("1", "one")]);
    reflexivity.
Defined.

(* ------------------------------------------------------------------ *)
(** ** Further properties: the footnote tables *)

Lemma dict_mem_keys (k : string) (d : Dict.dict) :
  Dict.mem k d = true <-> In k (Dict.keys d).
Proof.
  unfold Dict.mem, Dict.keys. rewrite existsb_exists, in_map_iff. split.
  - intros (kv & Hin & Heq). apply String.eqb_eq in Heq. exists kv. auto.
  - intros (kv & Heq & Hin). exists kv. split; [exact Hin |].
    apply String.eqb_eq. exact Heq.
Qed.

Lemma dict_keys_set (k v : string) (d : Dict.dict) :
  Dict.keys (Dict.set k v d) =
  if Dict.mem k d then Dict.keys d else Dict.keys d ++ [k].
Proof.
  induction d as [| [k' v'] rest IH]; [reflexivity |].
  simpl. unfold Dict.mem in *. simpl.
  destruct (String.eqb k' k) eqn:Heq; simpl; [reflexivity |].
  fold (Dict.keys (Dict.set k v rest)). rewrite IH.
  destruct (existsb (fun kv => String.eqb (fst kv) k) rest); reflexivity.
Qed.

Lemma dict_set_nodup (k v : string) (d : Dict.dict) :
  NoDup (Dict.keys d) -> NoDup (Dict.keys (Dict.set k v d)).
Proof.
  intros Hd. rewrite dict_keys_set.
  destruct (Dict.mem k d) eqn:Hmem; [exact Hd |].
  apply NoDup_app; [exact Hd | repeat constructor; intros [] |].
  intros x Hx [<- | []].
  apply dict_mem_keys in Hx. congruence.
Qed.

Lemma dict_set_entries (k v : string) (d : Dict.dict) (kv : string * string) :
  In kv (Dict.set k v d) -> kv = (k, v) \/ In kv d.
Proof.
  induction d as [| [k' v'] rest IH]; simpl.
  - intros [<- | []]. auto.
  - destruct (String.eqb k' k) eqn:Heq.
    + apply String.eqb_eq in Heq. subst k'. simpl. intros [<- | H]; auto.
    + simpl. intros [<- | H]; auto. destruct (IH H); auto.
Qed.

Lemma dict_get_set_same (k v : string) (d : Dict.dict) :
  dict_get k (Dict.set k v d) = Some v.
Proof.
  induction d as [| [k' v'] rest IH]; simpl.
  - rewrite String.eqb_refl. reflexivity.
  - destruct (String.eqb k' k) eqn:Heq; simpl; rewrite Heq; auto.
Qed.

Lemma dict_get_set_other (k k' v : string) (d : Dict.dict) :
  k' <> k -> dict_get k' (Dict.set k v d) = dict_get k' d.
Proof.
  intros Hne. induction d as [| [k0 v0] rest IH]; simpl.
  - destruct (String.eqb_spec k k'); [congruence | reflexivity].
  - destruct (String.eqb_spec k0 k) as [-> | Hk0]; simpl.
    + destruct (String.eqb_spec k k'); [congruence | reflexivity].
    + rewrite IH. reflexivity.
Qed.

Lemma dict_get_mem (k v : string) (d : Dict.dict) :
  dict_get k d = Some v -> Dict.mem k d = true.
Proof.
  unfold Dict.mem. induction d as [| [k0 v0] rest IH]; simpl; [discriminate |].
  destruct (String.eqb k0 k); simpl; auto.
Qed.

Lemma prefix_two (a b : ascii) (text : string) :
  prefix (String a (String b "")) text = true ->
  exists t, text = String a (String b t).
Proof.
  destruct text as [| c [| c2 t]]; simpl; try discriminate.
  - destruct (ascii_dec a c); discriminate.
  - destruct (ascii_dec a c); [| discriminate].
    destruct (ascii_dec b c2); [| discriminate].
    subst. intros _. exists t. reflexivity.
Qed.

(** The key of a footnote definition is the digit it starts with. *)
Lemma footnote_key_digit (text : string) :
  existsb (startswith text)
    ["1."; "2."; "3."; "4."; "5."; "6."; "7."; "8."; "9."] = true ->
  In (before_char "." text) ["1"; "2"; "3"; "4"; "5"; "6"; "7"; "8"; "9"].
Proof.
  intros H. apply existsb_exists in H. destruct H as (p & Hin & Hp).
  unfold startswith in Hp. simpl in Hin.
  repeat (destruct Hin as [<- | Hin];
          [apply prefix_two in Hp; destruct Hp as (t & ->); simpl; tauto |]).
  contradiction.
Qed.

Lemma main_footnote_classified (p : node) :
  main_is_footnote p = true ->
  In (before_char "." (ptext p)) ["1"; "2"; "3"; "4"; "5"; "6"; "7"; "8"; "9"] /\
  contains ":" (ptext p) = true.
Proof.
  unfold main_is_footnote, Main.classify. intros H.
  apply andb_true_iff in H. destruct H as [_ H].
  destruct (startswith (ptext p) "T/L:" || startswith (ptext p) "T/N:");
    [discriminate |].
  destruct (existsb (startswith (ptext p))
              ["1."; "2."; "3."; "4."; "5."; "6."; "7."; "8."; "9."]) eqn:Hd;
    simpl in H.
  - destruct (contains ":" (ptext p)) eqn:Hc.
    + split; [apply footnote_key_digit; exact Hd | reflexivity].
    + destruct (contains "T/N:" (ptext p) || contains "Chapter Note:" (ptext p)
                || contains "Thanks for playing" (ptext p)
                || contains "As always" (ptext p)
                || Main.is_note_or_message (ptext p) p); discriminate.
  - destruct (contains "T/N:" (ptext p) || contains "Chapter Note:" (ptext p)
              || contains "Thanks for playing" (ptext p)
              || contains "As always" (ptext p)
              || Main.is_note_or_message (ptext p) p); discriminate.
Qed.

Lemma main_footnote_table_spec (ps : list node) (d0 : Dict.dict) :
  let table :=
    fold_left (fun d p => Dict.set (before_char "." (ptext p)) (ptext p) d)
      (filter main_is_footnote ps) d0 in
  (NoDup (Dict.keys d0) -> NoDup (Dict.keys table)) /\
  (forall kv, In kv table ->
     In kv d0 \/
     exists p, In p ps /\ main_is_footnote p = true /\
               kv = (before_char "." (ptext p), ptext p)).
Proof.
  revert d0. induction ps as [| p ps IH]; intros d0; simpl.
  - auto.
  - destruct (main_is_footnote p) eqn:Hp; simpl.
    + destruct (IH (Dict.set (before_char "." (ptext p)) (ptext p) d0)) as [H1 H2].
      split.
      * intros Hd. apply H1. apply dict_set_nodup. exact Hd.
      * intros kv Hkv. destruct (H2 kv Hkv) as [Hset | (q & Hq & Hfq & ->)].
        -- apply dict_set_entries in Hset. destruct Hset as [-> | Hin]; auto.
           right. exists p. auto.
        -- right. exists q. auto.
    + destruct (IH d0) as [H1 H2]. split; [exact H1 |].
      intros kv Hkv. destruct (H2 kv Hkv) as [Hin | (q & Hq & Hfq & ->)]; auto.
      right. exists q. auto.
Qed.

(** X9.  The footnote table of the pattern-based variant has at most nine
    entries: its keys are distinct and each is one of the digits 1 to 9.
    Each value is the trimmed text of a scanned paragraph that starts with
    its key and a full stop and holds a colon. *)
Theorem main_footnote_keys
    (html_parser : string -> list node) (cfg : Config) (content_div : node) :
  let ps := soup_find_all ["p"] (Main.clean_html_content html_parser content_div) in
  let table := Main.footnotes (Main.process_content html_parser cfg content_div) in
  NoDup (Dict.keys table) /\
  incl (Dict.keys table) ["1"; "2"; "3"; "4"; "5"; "6"; "7"; "8"; "9"] /\
  List.length table <= 9 /\
  (forall k v, In (k, v) table ->
     exists p, In p ps /\ v = ptext p /\ k = before_char "." v /\
               startswith v (k +++ ".") = true /\ contains ":" v = true).
Proof.
  intros ps table.
  assert (Htable : table = if INCLUDE_FOOTNOTES cfg then main_footnote_table ps else []).
  { unfold table, Main.process_content. rewrite main_scan_footnotes. reflexivity. }
  destruct (main_footnote_table_spec ps []) as [Hnodup Hentries].
  fold (main_footnote_table ps) in Hnodup, Hentries.
  assert (Hfrom : forall k v, In (k, v) table ->
            exists p, In p ps /\ main_is_footnote p = true /\
                      k = before_char "." (ptext p) /\ v = ptext p).
  { intros k v Hin. rewrite Htable in Hin.
    destruct (INCLUDE_FOOTNOTES cfg); [| contradiction].
    destruct (Hentries _ Hin) as [[] | (p & Hp & Hfp & Heq)].
    injection Heq as -> ->. exists p. auto. }
  assert (Hnd : NoDup (Dict.keys table)).
  { rewrite Htable. destruct (INCLUDE_FOOTNOTES cfg); [| constructor].
    apply Hnodup. constructor. }
  assert (Hincl : incl (Dict.keys table)
                    ["1"; "2"; "3"; "4"; "5"; "6"; "7"; "8"; "9"]).
  { intros k Hk. unfold Dict.keys in Hk. apply in_map_iff in Hk.
    destruct Hk as ([k' v] & <- & Hin). simpl.
    destruct (Hfrom k' v Hin) as (p & _ & Hfp & -> & _).
    apply main_footnote_classified. exact Hfp. }
  repeat split; auto.
  - replace (List.length table) with (List.length (Dict.keys table))
      by (unfold Dict.keys; apply length_map).
    apply (NoDup_incl_length Hnd Hincl).
  - intros k v Hin. destruct (Hfrom k v Hin) as (p & Hp & Hfp & -> & ->).
    destruct (main_footnote_classified p Hfp) as [Hkey Hcolon].
    exists p. repeat split; auto.
    unfold main_is_footnote, Main.classify in Hfp.
    apply andb_true_iff in Hfp. destruct Hfp as [_ Hfp].
    destruct (startswith (ptext p) "T/L:" || startswith (ptext p) "T/N:");
      [discriminate |].
    destruct (existsb (startswith (ptext p))
                ["1."; "2."; "3."; "4."; "5."; "6."; "7."; "8."; "9."]) eqn:Hd.
    + apply existsb_exists in Hd. destruct Hd as (pre & Hin' & Hpre).
      unfold startswith in *. simpl in Hin'.
      repeat (destruct Hin' as [<- | Hin'];
              [pose proof Hpre as Hpre';
               apply prefix_two in Hpre'; destruct Hpre' as (t & Ht);
               rewrite Ht in *; simpl; exact Hpre |]).
      contradiction.
    + simpl in Hfp.
      destruct (contains "T/N:" (ptext p) || contains "Chapter Note:" (ptext p)
                || contains "Thanks for playing" (ptext p)
                || contains "As always" (ptext p)
                || Main.is_note_or_message (ptext p) p); discriminate.
Qed.

Lemma main_footnote_keys_witness :
  exists p,
    In p (soup_find_all ["p"] (Main.clean_html_content Parser.parse_html page_notes)) /\
    "1. word: meaning" = ptext p.
Proof.
  destruct (main_footnote_keys Parser.parse_html (flags true true) page_notes)
    as (_ & _ & _ & H).
  destruct (H "1" "1. word: meaning") as (p & Hp & Hv & _).
  - vm_compute. auto.
  - exists p. auto.
Defined.

Lemma add_refs_keeps (text : string) (refs : list node) (d : Dict.dict)
    (k v : string) :
  dict_get k d = Some v -> dict_get k (Simple.add_refs text refs d) = Some v.
Proof.
  unfold Simple.add_refs. revert d.
  induction refs as [| ref refs IH]; intros d Hd; [exact Hd |].
  simpl. apply IH.
  destruct (Dict.mem (strip (node_text ref)) d) eqn:Hmem; simpl; [exact Hd |].
  rewrite dict_get_set_other; [exact Hd |].
  intros ->. apply dict_get_mem in Hd. congruence.
Qed.

Lemma add_refs_nodup (text : string) (refs : list node) (d : Dict.dict) :
  NoDup (Dict.keys d) -> NoDup (Dict.keys (Simple.add_refs text refs d)).
Proof.
  unfold Simple.add_refs. revert d.
  induction refs as [| ref refs IH]; intros d Hd; [exact Hd |].
  simpl. apply IH.
  destruct (Dict.mem (strip (node_text ref)) d); simpl; [exact Hd |].
  apply dict_set_nodup. exact Hd.
Qed.

Lemma simple_step_footnotes_cases (cfg : Config) (st : Simple.scan) (p : node) :
  Simple.footnotes (Simple.scan_step cfg st p) = Simple.footnotes st \/
  Simple.footnotes (Simple.scan_step cfg st p)
  = Simple.add_refs (ptext p) (find_all ["sup"] p) (Simple.footnotes st).
Proof.
  unfold Simple.scan_step, ptext.
  destruct (nonempty (strip (node_text p))); simpl; auto.
  destruct (String.eqb (strip (node_text p)) "||").
  - destruct (Simple.found_first_separator st); simpl; auto.
  - destruct (Simple.in_main_content st); simpl; auto.
    destruct (contains Simple.return_marker (strip (node_text p))
              && INCLUDE_FOOTNOTES cfg); simpl; auto.
    destruct (INCLUDE_CHAPTER_NOTES cfg); simpl; auto.
Qed.

(** X10.  When a footnote number is defined more than once, the
    separator-based loop keeps the first definition (an entry of its table
    is never overwritten, through any number of paragraphs), while the
    pattern-based loop keeps the last (a definition read replaces the entry
    of its key).  In both the keys stay distinct. *)
Theorem duplicate_footnote_numbers (cfg : Config) :
  (forall (ps : list node) (st : Simple.scan) (k v : string),
     dict_get k (Simple.footnotes st) = Some v ->
     dict_get k (Simple.footnotes (fold_left (Simple.scan_step cfg) ps st)) = Some v) /\
  (forall (ps : list node) (st : Simple.scan),
     NoDup (Dict.keys (Simple.footnotes st)) ->
     NoDup (Dict.keys (Simple.footnotes (fold_left (Simple.scan_step cfg) ps st)))) /\
  (forall (st : Main.scan) (p : node),
     INCLUDE_FOOTNOTES cfg = true ->
     main_is_footnote p = true ->
     dict_get (before_char "." (ptext p)) (Main.footnotes (Main.scan_step cfg st p))
     = Some (ptext p)) /\
  (forall (st : Main.scan) (p : node),
     NoDup (Dict.keys (Main.footnotes st)) ->
     NoDup (Dict.keys (Main.footnotes (Main.scan_step cfg st p)))).
Proof.
  repeat split.
  - induction ps as [| p ps IH]; intros st k v Hk; [exact Hk |].
    simpl. apply IH.
    destruct (simple_step_footnotes_cases cfg st p) as [-> | ->]; [exact Hk |].
    apply add_refs_keeps. exact Hk.
  - induction ps as [| p ps IH]; intros st Hnd; [exact Hnd |].
    simpl. apply IH.
    destruct (simple_step_footnotes_cases cfg st p) as [-> | ->]; [exact Hnd |].
    apply add_refs_nodup. exact Hnd.
  - intros st p Hon Hp. rewrite main_step_footnotes, Hon, Hp. simpl.
    apply dict_get_set_same.
  - intros st p Hnd. rewrite main_step_footnotes.
    destruct (INCLUDE_FOOTNOTES cfg && main_is_footnote p); [| exact Hnd].
    apply dict_set_nodup. exact Hnd.
Qed.

Lemma duplicate_footnote_numbers_witness :
  let first := para "1. word: one" in
  let second := para "1. word: two" in
  Main.footnotes
    (fold_left (Main.scan_step (flags true false)) [first; second] Main.scan0)
  = [("1", "1. word: two")] /\
  dict_get "1"
    (Main.footnotes (Main.scan_step (flags true false)
                       (Main.scan_step (flags true false) Main.scan0 first) second))
  = Some "1. word: two".
Proof.
  intros first second. split; [reflexivity |].
  destruct (duplicate_footnote_numbers (flags true false)) as (_ & _ & H & _).
  exact (H (Main.scan_step (flags true false) Main.scan0 first) second
           eq_refl eq_refl).
Defined.

(* ------------------------------------------------------------------ *)
(** ** Further properties: the pattern-based classifier as a partition *)







(** X12.  A paragraph that [_is_note_or_message] accepts is never kept as
    narrative: in particular one with a bold or strong element whose trimmed
    text holds the word note in any letter case, and one whose text holds, in
    any letter case, one of the phrases of the detector. *)
Theorem note_markers_never_narrative (p : node) :
  (Main.is_note_or_message (ptext p) p = true -> main_is_narrative p = false) /\
  (forall s, In s (find_all ["strong"; "b"] p) ->
     contains "note" (lower (strip (node_text s))) = true ->
     main_is_narrative p = false) /\
  (forall phrase,
     In phrase ["t/n:"; "tn:"; "t/l:"; "tl:"; "translator's note:";
                "translator note:"; "chapter note:"; "chapter note by";
                "thanks for playing"; "as always"] ->
     contains phrase (lower (ptext p)) = true ->
     main_is_narrative p = false).
Proof.
  assert (Hnote : Main.is_note_or_message (ptext p) p = true ->
                  main_is_narrative p = false).
  { intros H. unfold main_is_narrative.
    destruct (nonblank p); [| reflexivity]. cbn [andb].
    assert (Hc : Main.classify (ptext p) p <> Main.Other).
    { unfold Main.classify. rewrite H, !orb_true_r.
      destruct (startswith (ptext p) "T/L:" || startswith (ptext p) "T/N:");
        [discriminate |].
      destruct (existsb (startswith (ptext p))
                  ["1."; "2."; "3."; "4."; "5."; "6."; "7."; "8."; "9."]
                && contains ":" (ptext p)); discriminate. }
    destruct (Main.classify (ptext p) p); try reflexivity. congruence. }
  split; [exact Hnote |]. split.
  - intros s Hs Hc. apply Hnote. unfold Main.is_note_or_message.
    apply orb_true_iff. left. apply existsb_exists. exists s. split; [exact Hs |].
    apply existsb_exists. exists "note". split; [simpl; tauto | exact Hc].
  - intros phrase Hin Hc. apply Hnote. unfold Main.is_note_or_message.
    apply orb_true_iff. right. apply existsb_exists. exists phrase. auto.
Qed.

Lemma note_markers_never_narrative_witness :
  main_is_narrative (Elem "p" [] [Elem "b" [] [Text "Notebook"]; Text " found."])
  = false.
Proof.
  apply (note_markers_never_narrative
           (Elem "p" [] [Elem "b" [] [Text "Notebook"]; Text " found."])).
  vm_compute. reflexivity.
Defined.

(* ------------------------------------------------------------------ *)
(** ** Further properties: chapter numbers in URLs, titles and file names *)

Lemma append_inj_l (p a b : string) : p +++ a = p +++ b -> a = b.
Proof.
  induction p as [| c p IH]; simpl; intros H; [exact H |].
  injection H as H. auto.
Qed.

Lemma length_append (a b : string) :
  String.length (a +++ b) = String.length a + String.length b.
Proof. induction a as [| c a IH]; simpl; [reflexivity | now rewrite IH]. Qed.

Lemma append_inj_r (a b s : string) : a +++ s = b +++ s -> a = b.
Proof.
  intros H.
  assert (Hlen : String.length a = String.length b).
  { apply (f_equal String.length) in H. rewrite !length_append in H. lia. }
  revert b H Hlen. induction a as [| c a IH]; intros [| c' b] H Hlen;
    simpl in *; try discriminate; [reflexivity |].
  injection H as -> H. f_equal. apply IH; [exact H | lia].
Qed.

Lemma to_int_proper (z : Z) :
  Z.to_int z <> Decimal.Pos Decimal.Nil /\ Z.to_int z <> Decimal.Neg Decimal.Nil.
Proof.
  destruct z as [| p | p]; simpl; split; try discriminate;
    intros H; injection H as H;
    exact (DecimalPos.Unsigned.to_uint_nonnil p H).
Qed.

(** [str] gives different text for different integers. *)
Lemma string_of_Z_inj (a b : Z) : Main.string_of_Z a = Main.string_of_Z b -> a = b.
Proof.
  unfold Main.string_of_Z. intros H.
  apply DecimalZ.to_int_inj.
  destruct (to_int_proper a) as [Ha1 Ha2]. destruct (to_int_proper b) as [Hb1 Hb2].
  pose proof (NilZero.isi (Z.to_int a) Ha1 Ha2) as Ia.
  pose proof (NilZero.isi (Z.to_int b) Hb1 Hb2) as Ib.
  rewrite H in Ia. rewrite Ia in Ib. injection Ib as Ib. exact Ib.
Qed.

Lemma digits_value_acc (d : Decimal.uint) (acc : positive) :
  Main.digits_value (Zpos acc) (NilEmpty.string_of_uint d)
  = Zpos (Pos.of_uint_acc d acc).
Proof.
  revert acc. induction d as [| d IH | d IH | d IH | d IH | d IH | d IH | d IH
                              | d IH | d IH | d IH]; intros acc;
    [reflexivity | ..];
    cbn [NilEmpty.string_of_uint Main.digits_value Pos.of_uint_acc];
    rewrite <- IH; f_equal;
    set (k := Z.of_nat _); vm_compute in k; subst k; lia.
Qed.

Lemma digits_value_uint (d : Decimal.uint) :
  Main.digits_value 0 (NilEmpty.string_of_uint d) = Z.of_N (Pos.of_uint d).
Proof.
  induction d as [| d IH | d IH | d IH | d IH | d IH | d IH | d IH
                  | d IH | d IH | d IH];
    [reflexivity | exact IH | ..];
    cbn [NilEmpty.string_of_uint Main.digits_value Pos.of_uint Z.of_N];
    set (k := (10 * 0 + _)%Z); vm_compute in k; subst k;
    apply digits_value_acc.
Qed.

(** The decimal text of an integer that is not negative: digits only, at
    least one, and their value is the integer. *)
Lemma string_of_uint_digits (d : Decimal.uint) :
  all_digits (NilEmpty.string_of_uint d) = true.
Proof.
  induction d; simpl; auto.
Qed.

Lemma string_of_Z_digits (z : Z) :
  (0 <= z)%Z ->
  all_digits (Main.string_of_Z z) = true /\
  nonempty (Main.string_of_Z z) = true /\
  Main.digits_value 0 (Main.string_of_Z z) = z.
Proof.
  intros Hz. unfold Main.string_of_Z.
  destruct z as [| p | p]; [repeat split | | lia].
  simpl. unfold NilZero.string_of_uint.
  pose proof (DecimalPos.Unsigned.to_uint_nonnil p) as Hnil.
  assert (Heq : match Pos.to_uint p with
                | Decimal.Nil => "0"
                | _ => NilEmpty.string_of_uint (Pos.to_uint p)
                end = NilEmpty.string_of_uint (Pos.to_uint p))
    by (destruct (Pos.to_uint p); [congruence | reflexivity ..]).
  rewrite Heq. repeat split.
  - apply string_of_uint_digits.
  - destruct (Pos.to_uint p); [congruence | reflexivity ..].
  - rewrite digits_value_uint, DecimalPos.Unsigned.of_to. reflexivity.
Qed.

Lemma zfill3_value (s : string) :
  Main.digits_value 0 (zfill3 s) = Main.digits_value 0 s.
Proof.
  unfold zfill3. destruct (String.length s) as [| [| [| n]]]; reflexivity.
Qed.

Lemma chapter_file_inj (i j : nat) : Epub.chapter_file i = Epub.chapter_file j -> i = j.
Proof.
  unfold Epub.chapter_file. intros H.
  apply append_inj_l in H. apply append_inj_r in H.
  apply (f_equal (Main.digits_value 0)) in H.
  rewrite !zfill3_value in H.
  destruct (string_of_Z_digits (Z.of_nat i)) as (_ & _ & Hi); [lia |].
  destruct (string_of_Z_digits (Z.of_nat j)) as (_ & _ & Hj); [lia |].
  rewrite Hi, Hj in H. lia.
Qed.

Lemma nodup_map_inj (A B : Type) (f : A -> B) (l : list A) :
  (forall x y, f x = f y -> x = y) -> NoDup l -> NoDup (map f l).
Proof.
  intros Hinj Hl. induction Hl as [| x l Hx Hl IH]; simpl; constructor; auto.
  intros Hin. apply in_map_iff in Hin. destruct Hin as (y & Hy & Hin).
  apply Hinj in Hy. subst y. contradiction.
Qed.

Lemma map_fst_combine_seq (A : Type) (l : list A) (start : nat) :
  map fst (combine (seq start (List.length l)) l) = seq start (List.length l) /\
  map snd (combine (seq start (List.length l)) l) = l.
Proof.
  revert start. induction l as [| x l IH]; intros start; [auto |].
  simpl. destruct (IH (S start)) as [H1 H2]. rewrite H1, H2. auto.
Qed.

(** X13.  Different chapter numbers give different chapter URLs, in both
    programs, and different positions in the book give different file
    names.  So the chapter documents of a book carry distinct file names,
    their titles are those of the chapters kept, in order, and the spine is
    the navigation document followed by one entry for each chapter. *)
Theorem chapter_names_distinct :
  (forall inputs a b,
     Main.chapter_url inputs a = Main.chapter_url inputs b -> a = b) /\
  (forall novel a b,
     SimpleMain.chapter_url novel a = SimpleMain.chapter_url novel b -> a = b) /\
  (forall i j, Epub.chapter_file i = Epub.chapter_file j -> i = j) /\
  (forall cfg chapters_data,
     let docs := Epub.add_chapters cfg chapters_data in
     NoDup (map Epub.file_name docs) /\
     map Epub.title docs = map ch_title chapters_data /\
     Epub.spine docs = Epub.Nav :: map Epub.Chapter docs /\
     List.length (Epub.spine docs) = S (List.length chapters_data)) /\
  (forall cfg chapters_data,
     let docs := Epub.create_epub cfg chapters_data in
     NoDup (map Epub.file_name docs) /\
     map Epub.title docs = map ch_title chapters_data /\
     List.length (Epub.spine docs) = S (List.length chapters_data)).
Proof.
  split; [| split; [| split; [exact chapter_file_inj | split]]].
  - intros inputs a b H. unfold Main.chapter_url in H.
    do 3 apply append_inj_l in H. apply string_of_Z_inj. exact H.
  - intros novel a b H. unfold SimpleMain.chapter_url in H.
    do 3 apply append_inj_l in H. apply string_of_Z_inj. exact H.
  - intros cfg chapters_data docs.
    destruct (map_fst_combine_seq chapter chapters_data 1) as [Hfst Hsnd].
    assert (Hnames : map Epub.file_name docs
                     = map Epub.chapter_file (seq 1 (List.length chapters_data))).
    { transitivity (map Epub.chapter_file
                      (map fst (combine (seq 1 (List.length chapters_data))
                                  chapters_data))).
      - unfold docs, Epub.add_chapters. rewrite !map_map. reflexivity.
      - rewrite Hfst. reflexivity. }
    assert (Htitles : map Epub.title docs = map ch_title chapters_data).
    { transitivity (map ch_title
                      (map snd (combine (seq 1 (List.length chapters_data))
                                  chapters_data))).
      - unfold docs, Epub.add_chapters. rewrite !map_map. reflexivity.
      - rewrite Hsnd. reflexivity. }
    repeat split; auto.
    + rewrite Hnames. apply nodup_map_inj; [exact chapter_file_inj | apply seq_NoDup].
    + unfold Epub.spine. simpl. rewrite length_map.
      rewrite <- (length_map Epub.title), Htitles, length_map. reflexivity.
  - intros cfg chapters_data docs.
    destruct (map_fst_combine_seq chapter chapters_data 1) as [Hfst Hsnd].
    assert (Hnames : map Epub.file_name docs
                     = map Epub.chapter_file (seq 1 (List.length chapters_data))).
    { transitivity (map Epub.chapter_file
                      (map fst (combine (seq 1 (List.length chapters_data))
                                  chapters_data))).
      - unfold docs, Epub.create_epub. rewrite !map_map. reflexivity.
      - rewrite Hfst. reflexivity. }
    assert (Htitles : map Epub.title docs = map ch_title chapters_data).
    { transitivity (map ch_title
                      (map snd (combine (seq 1 (List.length chapters_data))
                                  chapters_data))).
      - unfold docs, Epub.create_epub. rewrite !map_map. reflexivity.
      - rewrite Hsnd. reflexivity. }
    repeat split; auto.
    + rewrite Hnames. apply nodup_map_inj; [exact chapter_file_inj | apply seq_NoDup].
    + unfold Epub.spine. simpl. rewrite length_map.
      rewrite <- (length_map Epub.title), Htitles, length_map. reflexivity.
Qed.

Lemma chapter_names_distinct_witness :
  Epub.chapter_file 7 = "chap_007.xhtml" /\
  Epub.chapter_file 7 <> Epub.chapter_file 12.
Proof.
  split; [reflexivity |].
  destruct chapter_names_distinct as (_ & _ & H & _).
  intros Heq. apply H in Heq. discriminate.
Defined.











(* ------------------------------------------------------------------ *)
(** ** Further properties: the prompts and the driver *)

Lemma bind_return (A B : Type) (c : Main.Console A) (k : A -> Main.Console B)
    (stdin rest : list string) (b : B) :
  Main.bind c k stdin = (Return b, rest) ->
  exists a mid, c stdin = (Return a, mid) /\ k a mid = (Return b, rest).
Proof.
  unfold Main.bind. destruct (c stdin) as [[a | e] mid]; intros H.
  - exists a, mid. auto.
  - discriminate.
Qed.

Lemma ret_return (A : Type) (a b : A) (stdin rest : list string) :
  Main.ret a stdin = (Return b, rest) -> a = b /\ stdin = rest.
Proof. unfold Main.ret. intros H. injection H as -> ->. auto. Qed.

Lemma drop_length_append (s t : string) : drop (String.length s) (s +++ t) = t.
Proof. induction s as [| c s IH]; [reflexivity | exact IH]. Qed.

(** The base URL as [get_user_input] leaves it ends with a slash. *)
Lemma slash_added (base : string) :
  let base' := if String.eqb (drop (pred (String.length base)) base) "/"
               then base else base +++ "/" in
  drop (pred (String.length base')) base' = "/".
Proof.
  simpl. destruct (String.eqb_spec (drop (pred (String.length base)) base) "/")
    as [Heq | Hne]; [exact Heq |].
  rewrite length_append. simpl.
  replace (pred (String.length base + 1)) with (String.length base) by lia.
  apply drop_length_append.
Qed.

Lemma nonempty_append_l (a b : string) : nonempty a = true -> nonempty (a +++ b) = true.
Proof. destruct a; [discriminate | reflexivity]. Qed.

Lemma get_user_input_checked
    (args : Main.Args) (cfg : Config) (stdin rest : list string)
    (inputs : Main.Inputs) (cfg' : Config) :
  Main.get_user_input args cfg stdin = (Return (inputs, cfg'), rest) ->
  nonempty (Main.base_url inputs) = true /\
  drop (pred (String.length (Main.base_url inputs))) (Main.base_url inputs) = "/" /\
  nonempty (Main.novel_id inputs) = true /\
  nonempty (Main.novel_title inputs) = true /\
  DEBUG_MODE cfg' = DEBUG_MODE cfg /\
  (if Main.truthy_int (Main.arg_start args) && Main.truthy_int (Main.arg_end args)
   then Main.arg_start args = Some (Main.start_chapter inputs) /\
        Main.arg_end args = Some (Main.end_chapter inputs)
   else (Main.start_chapter inputs <= Main.end_chapter inputs)%Z).
Proof.
  unfold Main.get_user_input. intros H.
  apply bind_return in H. destruct H as (base & s1 & _ & H).
  destruct (nonempty base) eqn:Hbase; simpl in H; [| discriminate].
  apply bind_return in H. destruct H as (novel & s2 & _ & H).
  destruct (nonempty novel) eqn:Hnovel; simpl in H; [| discriminate].
  apply bind_return in H. destruct H as (bounds & s3 & Hbounds & H).
  apply bind_return in H. destruct H as (title & s4 & _ & H).
  destruct (nonempty title) eqn:Htitle; simpl in H; [| discriminate].
  apply bind_return in H. destruct H as (opt & s5 & _ & H).
  apply bind_return in H. destruct H as (flags' & s6 & Hflags & H).
  destruct opt as [[[cover auth] trans] creator].
  apply ret_return in H. destruct H as [H _]. injection H as <- <-. simpl.
  repeat split.
  - destruct (String.eqb (drop (pred (String.length base)) base) "/");
      [exact Hbase | apply nonempty_append_l; exact Hbase].
  - apply slash_added.
  - exact Hnovel.
  - exact Htitle.
  - destruct (negb (Main.arg_simple_chapters args || Main.arg_include_footnotes args
                    || Main.arg_include_notes args)).
    + apply bind_return in Hflags. destruct Hflags as (simple & t1 & _ & Hflags).
      apply bind_return in Hflags. destruct Hflags as (foot & t2 & _ & Hflags).
      apply bind_return in Hflags. destruct Hflags as (notes & t3 & _ & Hflags).
      apply ret_return in Hflags. destruct Hflags as [<- _]. reflexivity.
    + apply ret_return in Hflags. destruct Hflags as [<- _]. reflexivity.
  - destruct (Main.truthy_int (Main.arg_start args)
              && Main.truthy_int (Main.arg_end args)) eqn:Hgiven.
    + apply ret_return in Hbounds. destruct Hbounds as [<- _]. simpl.
      apply andb_true_iff in Hgiven. destruct Hgiven as [Hs He].
      destruct (Main.arg_start args); [| discriminate].
      destruct (Main.arg_end args); [| discriminate]. auto.
    + apply bind_return in Hbounds. destruct Hbounds as (line1 & t1 & _ & Hbounds).
      destruct (Main.parse_int line1) as [start |]; [| discriminate].
      apply bind_return in Hbounds. destruct Hbounds as (line2 & t2 & _ & Hbounds).
      destruct (Main.parse_int line2) as [stop |]; [| discriminate].
      destruct (Z.ltb_spec stop start) as [Hlt | Hle]; [discriminate |].
      apply ret_return in Hbounds. destruct Hbounds as [<- _]. exact Hle.
Qed.

(** X15.  When [get_user_input] returns, the base URL is not empty and
    ends with a slash, the novel identifier and the title are not empty, the
    debug flag is as it was, and chapter bounds that were typed at the
    prompts are in order (bounds taken from the command line are passed on
    as they are). *)
Theorem user_input_guarantees
    (args : Main.Args) (cfg : Config) (stdin rest : list string)
    (inputs : Main.Inputs) (cfg' : Config) :
  Main.get_user_input args cfg stdin = (Return (inputs, cfg'), rest) ->
  nonempty (Main.base_url inputs) = true /\
  drop (pred (String.length (Main.base_url inputs))) (Main.base_url inputs) = "/" /\
  nonempty (Main.novel_id inputs) = true /\
  nonempty (Main.novel_title inputs) = true /\
  DEBUG_MODE cfg' = DEBUG_MODE cfg /\
  (if Main.truthy_int (Main.arg_start args) && Main.truthy_int (Main.arg_end args)
   then Main.arg_start args = Some (Main.start_chapter inputs) /\
        Main.arg_end args = Some (Main.end_chapter inputs)
   else (Main.start_chapter inputs <= Main.end_chapter inputs)%Z).
Proof. apply get_user_input_checked. Qed.

Lemma user_input_guarantees_witness :
  exists inputs cfg' rest,
    Main.get_user_input (args_without_bounds "https://example.com/novel")
      config_at_start ("2" :: "4" :: decline_and_confirm)
    = (Return (inputs, cfg'), rest) /\
    Main.base_url inputs = "https://example.com/novel/" /\
    (Main.start_chapter inputs <= Main.end_chapter inputs)%Z.
Proof.
  eexists. eexists. eexists. split; [vm_compute; reflexivity |].
  split; [reflexivity |].
  exact (proj2 (proj2 (proj2 (proj2 (proj2
    (user_input_guarantees (args_without_bounds "https://example.com/novel")
       config_at_start ("2" :: "4" :: decline_and_confirm) _ _ _ eq_refl)))))).
Defined.

(** X16.  [main] asks before it fetches.  When [get_user_input] raises,
    when the confirmation cannot be read, or when the settings are not
    confirmed, [main] ends with no GET issued and the limiter untouched; so
    a run that issued a GET had inputs that passed the checks and a
    confirmation. *)
Theorem main_fetches_only_when_confirmed
    (html_parser : string -> list node) (site : server) (args : Main.Args)
    (stdin : list string) (st : Main.state) :
  let cfg0 := {| INCLUDE_FOOTNOTES := false; INCLUDE_CHAPTER_NOTES := false;
                 SIMPLE_CHAPTER_NAMES := false;
                 DEBUG_MODE := Main.arg_debug args |} in
  let run := Main.main html_parser site args stdin st in
  (forall e rest,
     Main.get_user_input args cfg0 stdin = (Raise e, rest) ->
     run = (Main.Failed e, st)) /\
  (forall got rest e rest',
     Main.get_user_input args cfg0 stdin = (Return got, rest) ->
     Main.get_yes_no_input true rest = (Raise e, rest') ->
     run = (Main.Failed e, st)) /\
  (forall got rest rest',
     Main.get_user_input args cfg0 stdin = (Return got, rest) ->
     Main.get_yes_no_input true rest = (Return false, rest') ->
     run = (Main.AbortedByUser, st)) /\
  (snd run <> st ->
   exists inputs cfg rest rest',
     Main.get_user_input args cfg0 stdin = (Return (inputs, cfg), rest) /\
     Main.get_yes_no_input true rest = (Return true, rest') /\
     nonempty (Main.base_url inputs) = true /\
     nonempty (Main.novel_id inputs) = true /\
     nonempty (Main.novel_title inputs) = true).
Proof.
  intros cfg0 run. subst run. unfold Main.main. fold cfg0.
  unfold Main.bind, Main.ret.
  split; [| split; [| split]].
  - intros e rest Hin. rewrite Hin. reflexivity.
  - intros [inputs cfg] rest e rest' Hin Hgo. rewrite Hin, Hgo. reflexivity.
  - intros [inputs cfg] rest rest' Hin Hgo. rewrite Hin, Hgo. reflexivity.
  - intros Hne.
    destruct (Main.get_user_input args cfg0 stdin) as [[[inputs cfg] | e] rest] eqn:Hin;
      [| exfalso; apply Hne; reflexivity].
    destruct (Main.get_yes_no_input true rest) as [[[|] | e] rest'] eqn:Hgo;
      [| exfalso; apply Hne; reflexivity ..].
    exists inputs, cfg, rest, rest'.
    destruct (get_user_input_checked args cfg0 stdin rest inputs cfg Hin)
      as (Hb & _ & Hn & Ht & _).
    auto.
Qed.

Lemma main_fetches_only_when_confirmed_witness :
  Main.main Parser.parse_html (site_of story_page)
    (args_for "https://example.com/novel" 1 3) ["n"; "n"; "n"; "n"; "no"] main_start
  = (Main.AbortedByUser, main_start).
Proof.
  destruct (main_fetches_only_when_confirmed Parser.parse_html (site_of story_page)
              (args_for "https://example.com/novel" 1 3)
              ["n"; "n"; "n"; "n"; "no"] main_start) as (_ & _ & H & _).
  eapply H; vm_compute; reflexivity.
Defined.

Lemma chapter_loop_kept
    (html_parser : string -> list node) (site : server) (cfg : Config)
    (inputs : Main.Inputs) (nums : list Z) (acc r : Main.run) (st st' : Main.state) :
  Main.chapter_loop html_parser site cfg inputs nums acc st = (Return r, st') ->
  Main.total (Main.progress r) = Main.total (Main.progress acc) /\
  Main.current (Main.progress r) = Main.current (Main.progress acc) + List.length nums /\
  (exists new skipped,
     Main.chapters_data r = Main.chapters_data acc ++ new /\
     Main.warnings r = Main.warnings acc ++ skipped /\
     Forall (fun ch => kept_chapter ch = true) new /\
     Main.success (Main.progress r) = Main.success (Main.progress acc) + List.length new /\
     Main.failures (Main.progress r)
       = Main.failures (Main.progress acc) + List.length skipped /\
     List.length new + List.length skipped = List.length nums) /\
  Main.gets st <= Main.gets st' <= Main.gets st + 3 * List.length nums /\
  Forall (fun n => validate_url (Main.chapter_url inputs n) = true) nums.
Proof.
  revert acc st. induction nums as [| n rest IH]; intros acc st H.
  - simpl in H. injection H as <- <-. repeat split; auto; try lia.
    exists [], []. rewrite !app_nil_r. simpl. repeat split; auto.
  - cbn [Main.chapter_loop] in H.
    destruct (validate_url (Main.chapter_url inputs n)) eqn:Hvalid.
    + rewrite get_chapter_content_returns in H by exact Hvalid.
      destruct (retry_loop_events html_parser site cfg (Main.chapter_url inputs n)
                  (seq 0 Main.MAX_RETRIES) st) as (ev & k & _ & Hgets & Hcount & _).
      set (loop := Main.retry_loop html_parser site cfg
                     (Main.chapter_url inputs n) (seq 0 Main.MAX_RETRIES) st) in *.
      simpl in Hcount.
      destruct (match fst loop with
                | Some ch =>
                    if nonempty (ch_title ch) && nonempty (ch_content ch)
                    then Some ch else None
                | None => None
                end) as [ch |] eqn:Hkept.
      * assert (Hch : kept_chapter ch = true).
        { unfold kept_chapter. destruct (fst loop) as [ch' |]; [| discriminate].
          destruct (nonempty (ch_title ch') && nonempty (ch_content ch')) eqn:Hk;
            [| discriminate].
          injection Hkept as <-. exact Hk. }
        apply IH in H. simpl in H.
        destruct H as (Htot & Hcur & (new & skipped & Hc & Hw & Hall & Hs & Hf & Hlen)
                       & Hg & Hv).
        repeat split; auto; simpl; try lia.
        exists (ch :: new), skipped. rewrite <- app_assoc in Hc. simpl in *.
        repeat split; auto; lia.
      * apply IH in H. simpl in H.
        destruct H as (Htot & Hcur & (new & skipped & Hc & Hw & Hall & Hs & Hf & Hlen)
                       & Hg & Hv).
        repeat split; auto; simpl; try lia.
        exists new, (n :: skipped). rewrite <- app_assoc in Hw. simpl in *.
        repeat split; auto; lia.
    + rewrite get_chapter_content_raises in H by exact Hvalid. discriminate.
Qed.

Lemma concat_empty_cons (x : string) (l : list string) :
  String.concat "" (x :: l) = x +++ String.concat "" l.
Proof.
  destruct l; simpl; [rewrite append_empty_r |]; reflexivity.
Qed.

Lemma str_times_length (s : string) (n : Z) :
  String.length (str_times s n) = Z.to_nat n * String.length s.
Proof.
  unfold str_times. induction (Z.to_nat n) as [| k IH]; [reflexivity |].
  cbn [repeat]. rewrite concat_empty_cons, length_append, IH. simpl. lia.
Qed.

(** X17.  The bar that [ProgressTracker] draws cannot be computed for a
    total of 0.  For a positive total and a count of processed chapters
    within it, the bar is 50 characters long, [50 * current // total] of
    them filled, and it is full exactly when every chapter is processed. *)
Theorem progress_bar_shape (p : Main.Progress) :
  (Main.total p = 0%Z -> progress_bar p = None) /\
  ((0 < Main.total p)%Z ->
   (Z.of_nat (Main.current p) <= Main.total p)%Z ->
   let filled := (50 * Z.of_nat (Main.current p) / Main.total p)%Z in
   progress_bar p = Some (str_times "=" filled +++ str_times "-" (50 - filled)) /\
   (0 <= filled <= 50)%Z /\
   String.length (str_times "=" filled +++ str_times "-" (50 - filled)) = 50 /\
   (filled = 50%Z <-> Z.of_nat (Main.current p) = Main.total p)).
Proof.
  unfold progress_bar. split.
  - intros H. rewrite H. reflexivity.
  - intros Hpos Hcur. cbv zeta.
    set (filled := (50 * Z.of_nat (Main.current p) / Main.total p)%Z).
    destruct (Z.eqb_spec (Main.total p) 0) as [H0 | _]; [lia |].
    assert (Hlow : (0 <= filled)%Z) by (apply Z.div_pos; lia).
    assert (Hhigh : (filled <= 50)%Z) by (apply Z.div_le_upper_bound; nia).
    repeat split; auto.
    + rewrite length_append, !str_times_length.
      change (String.length "=") with 1. change (String.length "-") with 1.
      clearbody filled. lia.
    + intros Hfull.
      destruct (Z.eq_dec (Z.of_nat (Main.current p)) (Main.total p)) as [Heq | Hne];
        [exact Heq |].
      assert (filled < 50)%Z by (apply Z.div_lt_upper_bound; nia). lia.
    + intros Heq. unfold filled. rewrite Heq. apply Z.div_mul. lia.
Qed.

Lemma progress_bar_shape_witness :
  progress_bar {| Main.total := 4; Main.current := 1; Main.success := 1;
                  Main.failures := 0 |}
  = Some ("============" +++ "--------------------------------------").
Proof.
  destruct (progress_bar_shape {| Main.total := 4; Main.current := 1;
                                  Main.success := 1; Main.failures := 0 |})
    as (_ & H).
  destruct H as (Hbar & _); [simpl; lia | simpl; lia |].
  exact Hbar.
Defined.

Lemma zrange_length (start stop : Z) :
  List.length (Main.zrange start stop) = Z.to_nat (stop - start).
Proof. unfold Main.zrange. rewrite length_map, length_seq. reflexivity. Qed.

(** X18.  When [main] gets as far as assembling a book, the book holds at
    least one chapter and every chapter in it has a title and a content that
    are not empty; the tracker counts one success for each chapter kept and
    one failure for each warning; every chapter of the range was visited, so
    the bar last drawn is full; and at most one GET for the cover and three
    for each chapter of the range were issued. *)
Theorem main_book_invariants
    (html_parser : string -> list node) (site : server) (args : Main.Args)
    (stdin : list string) (st st' : Main.state) (r : Main.run) :
  Main.main html_parser site args stdin st = (Main.Book r, st') ->
  Main.chapters_data r <> [] /\
  Forall (fun ch => kept_chapter ch = true) (Main.chapters_data r) /\
  Main.success (Main.progress r) = List.length (Main.chapters_data r) /\
  Main.failures (Main.progress r) = List.length (Main.warnings r) /\
  Main.current (Main.progress r)
    = Main.success (Main.progress r) + Main.failures (Main.progress r) /\
  Z.of_nat (Main.current (Main.progress r)) = Main.total (Main.progress r) /\
  progress_bar (Main.progress r) = Some (str_times "=" 50) /\
  Main.gets st <= Main.gets st' <= Main.gets st + 1 + 3 * Main.current (Main.progress r).
Proof.
  unfold Main.main, Main.bind, Main.ret. intros H.
  destruct (Main.get_user_input _ _ stdin) as [[[inputs cfg] | e] rest];
    [| discriminate].
  destruct (Main.get_yes_no_input true rest) as [[[|] | e] rest'];
    [| discriminate ..].
  set (tracker := {| Main.total := (Main.end_chapter inputs
                                    - Main.start_chapter inputs + 1)%Z;
                     Main.current := 0; Main.success := 0; Main.failures := 0 |}) in *.
  set (nums := Main.zrange (Main.start_chapter inputs) (Main.end_chapter inputs + 1))
    in *.
  assert (Hcover : exists st1,
            Main.gets st <= Main.gets st1 <= Main.gets st + 1 /\
            Main.chapter_loop html_parser site cfg inputs nums
              {| Main.chapters_data := []; Main.progress := tracker;
                 Main.warnings := [] |} st1
            = (Return r, st') /\ Main.chapters_data r <> []).
  { destruct (nonempty (Main.cover_url inputs)).
    - destruct (negb (validate_url (Main.cover_url inputs))); [discriminate |].
      destruct (http_get_frame site (Main.cover_url inputs) st) as (_ & Hg & _).
      exists (snd (Main.http_get site (Main.cover_url inputs) st)).
      split; [lia |].
      destruct (Main.chapter_loop html_parser site cfg inputs nums _ _)
        as [[r0 | e] st2]; [| discriminate].
      destruct (Main.chapters_data r0) eqn:Hdata; [discriminate |].
      injection H as <- <-. split; [reflexivity | congruence].
    - exists st. split; [lia |].
      destruct (Main.chapter_loop html_parser site cfg inputs nums _ _)
        as [[r0 | e] st2]; [| discriminate].
      destruct (Main.chapters_data r0) eqn:Hdata; [discriminate |].
      injection H as <- <-. split; [reflexivity | congruence]. }
  destruct Hcover as (st1 & Hg1 & Hloop & Hdata).
  apply chapter_loop_kept in Hloop. simpl in Hloop.
  destruct Hloop as (Htot & Hcur & (new & skipped & Hc & Hw & Hall & Hs & Hf & Hlen)
                     & Hg & _).
  subst new skipped.
  assert (Hnums : List.length nums = Z.to_nat (Main.end_chapter inputs + 1
                                               - Main.start_chapter inputs))
    by apply zrange_length.
  assert (Hsome : 0 < List.length (Main.chapters_data r))
    by (destruct (Main.chapters_data r); [congruence | simpl; lia]).
  assert (Hfull : Z.of_nat (Main.current (Main.progress r))
                  = Main.total (Main.progress r)).
  { rewrite Htot, Hcur. subst tracker. simpl. lia. }
  repeat split; auto; try lia.
  unfold progress_bar. rewrite <- Hfull.
  destruct (Z.eqb_spec (Z.of_nat (Main.current (Main.progress r))) 0) as [H0 | Hn0];
    [lia |].
  rewrite Z.div_mul by exact Hn0. reflexivity.
Qed.

Lemma main_book_invariants_witness :
  exists r st',
    Main.main Parser.parse_html site_with_gap
      (args_for "https://example.com/novel" 1 3) decline_and_confirm main_start
    = (Main.Book r, st') /\
    Main.success (Main.progress r) = List.length (Main.chapters_data r) /\
    Z.of_nat (Main.current (Main.progress r)) = Main.total (Main.progress r).
Proof.
  eexists. eexists. split; [vm_compute; reflexivity |].
  match goal with
  | |- context [Main.progress ?r] =>
      destruct (main_book_invariants Parser.parse_html site_with_gap
                  (args_for "https://example.com/novel" 1 3) decline_and_confirm
                  main_start
                  (snd (Main.main Parser.parse_html site_with_gap
                          (args_for "https://example.com/novel" 1 3)
                          decline_and_confirm main_start)) r)
        as (_ & _ & Hs & _ & _ & Hc & _)
  end.
  - vm_compute. reflexivity.
  - auto.
Defined.

(* ------------------------------------------------------------------ *)
(** ** Further properties: how a fetch of the separator-based variant ends *)

Section SimpleOutcome.

Variable html_parser : string -> list node.
Variable site : server.
Variable cfg : Config.
Variable url : string.

Local Abbreviation sloop := (Simple.retry_loop html_parser site cfg url).
Local Abbreviation body :=
  (fun k => Simple.attempt_body html_parser cfg url (snd (site k url))).
Local Abbreviation fetched :=
  (fun st => snd (Simple.http_get site url (Simple.limiter_wait st))).

Lemma simple_fetched_frame (st : Simple.state) :
  Simple.gets (fetched st) = S (Simple.gets st) /\
  exists w, Simple.trace (fetched st) = Simple.trace st ++ w ++ [Get url] /\
            backoff_sleeps w = [] /\ count_gets w = 0.
Proof.
  destruct (simple_limiter_wait_frame st) as (Hg & w & Ht & Hb & Hc).
  unfold Simple.http_get.
  destruct (site (Simple.gets (Simple.limiter_wait st)) url) as [latency got].
  simpl. rewrite Hg. split; [reflexivity |].
  exists w. rewrite Ht, <- app_assoc. auto.
Qed.

(** One turn of the loop. *)
Lemma simple_retry_step (attempt : nat) (rest : list nat) (st : Simple.state) :
  sloop (attempt :: rest) st =
  match body (Simple.gets st) with
  | Simple.Returned ch => (Some ch, fetched st)
  | Simple.ReturnedNone => (None, fetched st)
  | Simple.Raised _ =>
      if attempt <? Simple.max_retries - 1
      then sloop rest (Simple.sleep BackoffSleep (backoff_delay attempt) (fetched st))
      else (None, fetched st)
  end.
Proof.
  cbn [Simple.retry_loop].
  destruct (simple_limiter_wait_frame st) as (Hg & _).
  unfold Simple.http_get. rewrite Hg.
  destruct (site (Simple.gets st) url) as [latency got]. simpl.
  destruct (Simple.attempt_body html_parser cfg url got); reflexivity.
Qed.

(** The loop makes its attempts in turn while they raise and an attempt
    below the last is at hand; the first attempt that does not raise
    decides. *)
Lemma simple_retry_outcome (attempts : list nat) (st : Simple.state) :
  exists new j,
    Simple.trace (snd (sloop attempts st)) = Simple.trace st ++ new /\
    Simple.gets (snd (sloop attempts st)) = Simple.gets st + count_gets new /\
    backoff_sleeps new = map backoff_delay (firstn j attempts) /\
    (forall i, i < j ->
       simple_attempt_raises html_parser cfg url
         (snd (site (Simple.gets st + i) url)) = true) /\
    ((j = List.length attempts /\ count_gets new = j /\
      fst (sloop attempts st) = None /\
      Forall (fun a => a < Simple.max_retries - 1) attempts)
     \/
     (j < List.length attempts /\ count_gets new = S j /\
      match body (Simple.gets st + j) with
      | Simple.Returned ch => fst (sloop attempts st) = Some ch
      | Simple.ReturnedNone => fst (sloop attempts st) = None
      | Simple.Raised _ =>
          fst (sloop attempts st) = None /\
          Simple.max_retries - 1 <= nth j attempts 0
      end)).
Proof.
  revert st. induction attempts as [| attempt rest IH]; intros st.
  - exists [], 0. simpl. rewrite app_nil_r. repeat split; auto.
    all: try (intros i Hi; lia).
    all: try (left; auto).
  - rewrite simple_retry_step.
    destruct (simple_fetched_frame st) as (Hg & w & Ht & Hb & Hc).
    assert (Hone : count_gets (w ++ [Get url]) = 1)
      by (rewrite count_gets_app, Hc; reflexivity).
    assert (Hquiet : backoff_sleeps (w ++ [Get url]) = [])
      by (rewrite backoff_sleeps_app, Hb; reflexivity).
    destruct (body (Simple.gets st)) as [e | | ch] eqn:Hbody.
    + destruct (Nat.ltb_spec attempt (Simple.max_retries - 1)) as [Hlt | Hge].
      * set (st1 := Simple.sleep BackoffSleep (backoff_delay attempt) (fetched st)).
        assert (Hg1 : Simple.gets st1 = S (Simple.gets st)) by exact Hg.
        assert (Ht1 : Simple.trace st1
                      = Simple.trace st ++ (w ++ [Get url])
                        ++ [BackoffSleep (backoff_delay attempt)]).
        { unfold st1. simpl. rewrite Ht, <- !app_assoc. reflexivity. }
        destruct (IH st1) as (new & j & IHt & IHg & IHb & IHr & IHcase).
        exists ((w ++ [Get url]) ++ [BackoffSleep (backoff_delay attempt)] ++ new),
               (S j).
        assert (Hcount : count_gets ((w ++ [Get url])
                           ++ [BackoffSleep (backoff_delay attempt)] ++ new)
                         = S (count_gets new)).
        { rewrite !count_gets_app, Hc. reflexivity. }
        rewrite Hcount.
        split; [rewrite IHt, Ht1, <- !app_assoc; reflexivity |].
        split; [rewrite IHg, Hg1; lia |].
        split.
        { rewrite !backoff_sleeps_app, Hb, IHb. reflexivity. }
        split.
        { intros i Hi. destruct i as [| i'].
          - rewrite Nat.add_0_r. unfold simple_attempt_raises. now rewrite Hbody.
          - replace (Simple.gets st + S i') with (Simple.gets st1 + i')
              by (rewrite Hg1; lia).
            apply IHr. lia. }
        destruct IHcase as [(Hj & Hcj & Hnone & Hall) | (Hj & Hcj & Hdec)].
        -- left. simpl. repeat split; auto; try lia.
        -- right. simpl List.length. split; [lia |]. split; [lia |].
           replace (Simple.gets st + S j) with (Simple.gets st1 + j)
             by (rewrite Hg1; lia).
           exact Hdec.
      * exists (w ++ [Get url]), 0. cbn [fst snd]. rewrite Hone, Hquiet.
        repeat split; auto; try lia.
        right. simpl List.length. split; [lia |]. split; [reflexivity |].
        rewrite Nat.add_0_r, Hbody. simpl. auto.
    + exists (w ++ [Get url]), 0. cbn [fst snd]. rewrite Hone, Hquiet.
      repeat split; auto; try lia.
      right. simpl List.length. split; [lia |]. split; [reflexivity |].
      rewrite Nat.add_0_r, Hbody. reflexivity.
    + exists (w ++ [Get url]), 0. cbn [fst snd]. rewrite Hone, Hquiet.
      repeat split; auto; try lia.
      right. simpl List.length. split; [lia |]. split; [reflexivity |].
      rewrite Nat.add_0_r, Hbody. reflexivity.
Qed.

End SimpleOutcome.

(** X19.  The separator-based [get_chapter_content] makes between one and
    three GETs: attempts that raise are followed by sleeps of 5 and then 10
    seconds and another attempt, and the first attempt that does not raise
    decides, with its chapter or, when title, container or narrative is
    missing, with nothing and at once.  A third attempt that raises ends the
    call with nothing.  Nothing is ever raised to the caller. *)
Theorem simple_fetch_outcomes
    (html_parser : string -> list node) (site : server) (cfg : Config)
    (url : string) (st : Simple.state) :
  let run := Simple.get_chapter_content html_parser site cfg url st in
  let new := events_since (Simple.trace st) (Simple.trace (snd run)) in
  exists j,
    j <= 2 /\
    count_gets new = S j /\
    Simple.gets (snd run) = Simple.gets st + S j /\
    backoff_sleeps new = map backoff_delay (seq 0 j) /\
    (forall i, i < j ->
       simple_attempt_raises html_parser cfg url
         (snd (site (Simple.gets st + i) url)) = true) /\
    match Simple.attempt_body html_parser cfg url
            (snd (site (Simple.gets st + j) url)) with
    | Simple.Returned ch => fst run = Some ch
    | Simple.ReturnedNone => fst run = None
    | Simple.Raised _ => fst run = None /\ j = 2
    end.
Proof.
  intros run new.
  destruct (simple_retry_outcome html_parser site cfg url (seq 0 Simple.max_retries) st)
    as (ev & j & Ht & Hg & Hb & Hr & Hcase).
  assert (Hnew : new = ev).
  { unfold new, run, Simple.get_chapter_content. rewrite Ht. apply events_since_app. }
  fold (Simple.get_chapter_content html_parser site cfg url st) in Hg, Hcase.
  fold run in Hg, Hcase.
  destruct Hcase as [(Hj & _ & _ & Hall) | (Hj & Hcj & Hdec)].
  - exfalso. simpl in Hall.
    inversion Hall as [| ? ? _ Hall1]; subst.
    inversion Hall1 as [| ? ? _ Hall2]; subst.
    inversion Hall2 as [| ? ? H2 _]; subst.
    unfold Simple.max_retries in H2. lia.
  - simpl in Hj. exists j. rewrite Hnew, Hg, Hcj.
    assert (Hseq : firstn j (seq 0 Simple.max_retries) = seq 0 j)
      by (destruct j as [| [| [| j']]]; try reflexivity; lia).
    rewrite Hseq in Hb.
    repeat split; auto; try lia.
    destruct (Simple.attempt_body html_parser cfg url
                (snd (site (Simple.gets st + j) url))) as [e | | ch]; auto.
    destruct Hdec as [Hnone Hnth]. split; [exact Hnone |].
    destruct j as [| [| [| j']]]; simpl in Hnth; unfold Simple.max_retries in Hnth;
      lia.
Qed.

(* ------------------------------------------------------------------ *)
(** ** Further properties: [main] of the separator-based program *)

Lemma int_input_cases (stdin : list string) :
  match stdin with
  | [] => SimpleMain.int_input stdin = (Raise EOFError, [])
  | line :: rest =>
      match Main.parse_int line with
      | Some z => SimpleMain.int_input stdin = (Return z, rest)
      | None =>
          SimpleMain.int_input stdin
          = (Raise (ValueError "invalid literal for int() with base 10"), rest)
      end
  end.
Proof.
  unfold SimpleMain.int_input, Main.bind, Main.input.
  destruct stdin as [| line rest]; [reflexivity |].
  destruct (Main.parse_int line); reflexivity.
Qed.

(** The two bounds, as the inner [try] of [main] reads them. *)
Lemma simple_bounds_cases (stdin : list string) :
  let block :=
    SimpleMain.except_value_error
      (Main.bind SimpleMain.int_input (fun start =>
         Main.bind SimpleMain.int_input (fun stop =>
           if (stop <? start)%Z then
             Main.raise (ValueError "Start chapter cannot be greater than end chapter")
           else Main.ret (start, stop))))
      (Main.raise (ValueError "Please enter valid chapter numbers")) in
  match block stdin with
  | (Return (start, stop), _) => (start <= stop)%Z
  | (Raise e, _) =>
      e = EOFError \/ e = ValueError "Please enter valid chapter numbers"
  end.
Proof.
  intros block. unfold block, SimpleMain.except_value_error, Main.bind.
  pose proof (int_input_cases stdin) as H1.
  destruct stdin as [| line1 rest1].
  - rewrite H1. simpl. auto.
  - destruct (Main.parse_int line1) as [start |]; rewrite H1.
    + pose proof (int_input_cases rest1) as H2.
      destruct rest1 as [| line2 rest2].
      * rewrite H2. simpl. auto.
      * destruct (Main.parse_int line2) as [stop |]; rewrite H2.
        -- destruct (Z.ltb_spec stop start); simpl; [auto | lia].
        -- simpl. auto.
    + simpl. auto.
Qed.

Lemma simple_read_inputs_shape (stdin0 : list string) :
  match SimpleMain.read_inputs stdin0 with
  | (Return inputs, _) =>
      nonempty (SimpleMain.novel_id inputs) = true /\
      nonempty (SimpleMain.novel_title inputs) = true /\
      (SimpleMain.start_chapter inputs <= SimpleMain.end_chapter inputs)%Z
  | (Raise e, _) =>
      e <> ValueError "Start chapter cannot be greater than end chapter"
  end.
Proof.
  unfold SimpleMain.read_inputs.
  unfold Main.bind at 1. unfold Main.input at 1.
  destruct stdin0 as [| line0 rest0]; [discriminate |].
  destruct (nonempty (strip line0)) eqn:Hnovel; simpl; [| discriminate].
  unfold Main.bind at 1.
  pose proof (simple_bounds_cases rest0) as Hb. cbv zeta in Hb.
  destruct (SimpleMain.except_value_error _ _ rest0) as [[[start stop] | e] rest1].
  - unfold Main.bind, Main.input.
    destruct rest1 as [| line3 rest3]; [discriminate |].
    destruct (nonempty (strip line3)) eqn:Htitle; simpl; [| discriminate].
    auto.
  - destruct Hb as [-> | ->]; discriminate.
Qed.

(** X20.  The separator-based [main] fetches nothing unless all four
    answers pass its checks.  When they do, the novel identifier and the
    title are not empty and the bounds are in order.  When they do not, the
    run ends with the exception and without a GET; for bounds that are not
    numbers or are out of order the message is always the one asking for
    valid chapter numbers, so the message that names the order of the bounds
    is never the one reported. *)
Theorem simple_main_checks_inputs
    (html_parser : string -> list node) (site : server)
    (argv stdin : list string) (st : Simple.state) :
  (forall e rest,
     SimpleMain.read_inputs stdin = (Raise e, rest) ->
     SimpleMain.main html_parser site argv stdin st = (SimpleMain.Failed e, st) /\
     e <> ValueError "Start chapter cannot be greater than end chapter") /\
  (forall inputs rest,
     SimpleMain.read_inputs stdin = (Return inputs, rest) ->
     nonempty (SimpleMain.novel_id inputs) = true /\
     nonempty (SimpleMain.novel_title inputs) = true /\
     (SimpleMain.start_chapter inputs <= SimpleMain.end_chapter inputs)%Z) /\
  (forall novel first last more a b,
     stdin = novel :: first :: last :: more ->
     nonempty (strip novel) = true ->
     Main.parse_int first = Some a ->
     Main.parse_int last = Some b ->
     (b < a)%Z ->
     SimpleMain.main html_parser site argv stdin st
     = (SimpleMain.Failed (ValueError "Please enter valid chapter numbers"), st)).
Proof.
  pose proof simple_read_inputs_shape as Hshape.
  split; [| split].
  - intros e rest Hin. pose proof (Hshape stdin) as H. rewrite Hin in H.
    split; [| exact H].
    unfold SimpleMain.main. rewrite Hin. reflexivity.
  - intros inputs rest Hin. pose proof (Hshape stdin) as H. rewrite Hin in H.
    exact H.
  - intros novel first last more a b -> Hnovel Ha Hb Hlt.
    assert (Hread : SimpleMain.read_inputs (novel :: first :: last :: more)
                    = (Raise (ValueError "Please enter valid chapter numbers"), more)).
    { unfold SimpleMain.read_inputs, SimpleMain.except_value_error,
        SimpleMain.int_input, Main.bind, Main.input, Main.ret, Main.raise.
      cbv beta iota. rewrite Hnovel. cbv beta iota delta [negb].
      rewrite Ha. cbv beta iota. rewrite Hb. cbv beta iota.
      destruct (Z.ltb_spec b a) as [_ | Hge]; [reflexivity | lia]. }
    unfold SimpleMain.main. rewrite Hread. reflexivity.
Qed.

Lemma simple_main_checks_inputs_witness :
  SimpleMain.main Parser.parse_html (site_of story_page) [] ["abc"; "5"; "3"; "A Novel"]
    simple_start
  = (SimpleMain.Failed (ValueError "Please enter valid chapter numbers"), simple_start).
Proof.
  destruct (simple_main_checks_inputs Parser.parse_html (site_of story_page) []
              ["abc"; "5"; "3"; "A Novel"] simple_start) as (_ & _ & H).
  apply (H "abc" "5" "3" ["A Novel"] 5%Z 3%Z); reflexivity.
Defined.

Lemma simple_chapter_loop_kept
    (html_parser : string -> list node) (site : server) (cfg : Config)
    (novel : string) (nums : list Z) (acc r : SimpleMain.run)
    (st st' : Simple.state) :
  SimpleMain.chapter_loop html_parser site cfg novel nums acc st = (r, st') ->
  SimpleMain.total_requests r = SimpleMain.total_requests acc + List.length nums /\
  (exists new skipped,
     SimpleMain.chapters_data r = SimpleMain.chapters_data acc ++ new /\
     SimpleMain.failed r = SimpleMain.failed acc ++ skipped /\
     Forall (fun ch => kept_chapter ch = true) new /\
     SimpleMain.successful_requests r
       = SimpleMain.successful_requests acc + List.length new /\
     List.length new + List.length skipped = List.length nums) /\
  Simple.gets st + List.length nums <= Simple.gets st'
    <= Simple.gets st + 3 * List.length nums.
Proof.
  revert acc st. induction nums as [| n rest IH]; intros acc st H.
  - simpl in H. injection H as <- <-. repeat split; auto; try (simpl; lia).
    exists [], []. rewrite !app_nil_r. simpl. repeat split; auto.
  - cbn [SimpleMain.chapter_loop] in H.
    destruct (simple_retry_outcome html_parser site cfg
                (SimpleMain.chapter_url novel n) (seq 0 Simple.max_retries) st)
      as (ev & j & _ & Hgets & _ & _ & Hcase).
    assert (Hcount : 1 <= count_gets ev <= 3).
    { destruct Hcase as [(Hj & Hc & _ & Hall) | (Hj & Hc & _)]; simpl in Hj.
      - exfalso. simpl in Hall.
        inversion Hall as [| ? ? _ Hall1]; subst.
        inversion Hall1 as [| ? ? _ Hall2]; subst.
        inversion Hall2 as [| ? ? H2 _]; subst.
        unfold Simple.max_retries in H2. lia.
      - lia. }
    fold (Simple.get_chapter_content html_parser site cfg
            (SimpleMain.chapter_url novel n) st) in Hgets.
    destruct (Simple.get_chapter_content html_parser site cfg
                (SimpleMain.chapter_url novel n) st) as [got st1].
    simpl in Hgets.
    destruct (match got with
              | Some ch =>
                  if nonempty (ch_title ch) && nonempty (ch_content ch)
                  then Some ch else None
              | None => None
              end) as [ch |] eqn:Hkept.
    + assert (Hch : kept_chapter ch = true).
      { unfold kept_chapter. destruct got as [ch' |]; [| discriminate].
        destruct (nonempty (ch_title ch') && nonempty (ch_content ch')) eqn:Hk;
          [| discriminate].
        injection Hkept as <-. exact Hk. }
      apply IH in H. simpl in H.
      destruct H as (Htot & (new & skipped & Hc & Hf & Hall & Hs & Hlen) & Hg).
      repeat split; auto; simpl; try lia.
      exists (ch :: new), skipped. rewrite <- app_assoc in Hc. simpl in *.
      repeat split; auto; lia.
    + apply IH in H. simpl in H.
      destruct H as (Htot & (new & skipped & Hc & Hf & Hall & Hs & Hlen) & Hg).
      repeat split; auto; simpl; try lia.
      exists new, (n :: skipped). rewrite <- app_assoc in Hf. simpl in *.
      repeat split; auto; lia.
Qed.

(** X21.  A run of the separator-based [main] ends in one of three ways.
    With an exception, which then came from the prompts, and nothing was
    fetched.  Or the chapter loop ran over the whole range, which holds at
    least one chapter: it asked for each chapter once, with at least one and
    at most three GETs, kept the chapters whose title and content are not
    empty and reported the others as failed; a book is then made exactly
    when a chapter was kept, its spine the navigation document followed by
    one document for each chapter kept, and its file named after the
    title. *)
Theorem simple_main_run
    (html_parser : string -> list node) (site : server)
    (argv stdin : list string) (st : Simple.state) :
  let run := SimpleMain.main html_parser site argv stdin st in
  let looped (r : SimpleMain.run) : Prop :=
    exists inputs rest,
      SimpleMain.read_inputs stdin = (Return inputs, rest) /\
      Z.of_nat (SimpleMain.total_requests r)
        = (SimpleMain.end_chapter inputs - SimpleMain.start_chapter inputs + 1)%Z /\
      1 <= SimpleMain.total_requests r /\
      SimpleMain.total_requests r
        = SimpleMain.successful_requests r + List.length (SimpleMain.failed r) /\
      SimpleMain.successful_requests r = List.length (SimpleMain.chapters_data r) /\
      Forall (fun ch => kept_chapter ch = true) (SimpleMain.chapters_data r) /\
      Simple.gets st + SimpleMain.total_requests r <= Simple.gets (snd run)
        <= Simple.gets st + 3 * SimpleMain.total_requests r in
  match fst run with
  | SimpleMain.Failed e =>
      snd run = st /\ exists rest, SimpleMain.read_inputs stdin = (Raise e, rest)
  | SimpleMain.NoChapters r => looped r /\ SimpleMain.chapters_data r = []
  | SimpleMain.Created epub_filename book r =>
      looped r /\
      SimpleMain.chapters_data r <> [] /\
      book = Epub.spine (Epub.create_epub (SimpleMain.config_of_argv argv)
                           (SimpleMain.chapters_data r)) /\
      List.length book = S (List.length (SimpleMain.chapters_data r)) /\
      exists inputs rest,
        SimpleMain.read_inputs stdin = (Return inputs, rest) /\
        epub_filename = slug (SimpleMain.novel_title inputs) +++ ".epub"
  end.
Proof.
  intros run looped.
  assert (Hrun : run = SimpleMain.main html_parser site argv stdin st) by reflexivity.
  clearbody run. unfold SimpleMain.main in Hrun.
  pose proof (simple_read_inputs_shape stdin) as Hshape.
  destruct (SimpleMain.read_inputs stdin) as [[inputs | e] rest] eqn:Hread.
  - destruct Hshape as (_ & _ & Horder).
    destruct (SimpleMain.chapter_loop html_parser site
                (SimpleMain.config_of_argv argv) (SimpleMain.novel_id inputs)
                (Main.zrange (SimpleMain.start_chapter inputs)
                   (SimpleMain.end_chapter inputs + 1))
                SimpleMain.run0 st) as [r st'] eqn:Hloop.
    apply simple_chapter_loop_kept in Hloop. simpl in Hloop.
    destruct Hloop as (Htot & (new & skipped & Hc & Hf & Hall & Hs & Hlen) & Hg).
    rewrite zrange_length in *. subst new skipped.
    assert (Hlooped : snd run = st' -> looped r).
    { intros Hst. unfold looped. exists inputs, rest. rewrite Hst.
      repeat split; auto; lia. }
    destruct (SimpleMain.chapters_data r) as [| ch chs] eqn:Hdata;
      subst run; cbn [fst snd] in *.
    + split; [| exact Hdata]. apply Hlooped. reflexivity.
    + split; [apply Hlooped; reflexivity |].
      rewrite Hdata.
      split; [discriminate |]. split; [reflexivity |]. split.
      * unfold Epub.spine, Epub.create_epub. cbn [List.length].
        rewrite !length_map, length_combine, length_seq. cbn [List.length]. lia.
      * exists inputs, rest. auto.
  - subst run. cbn [fst snd]. split; [reflexivity |]. exists rest. reflexivity.
Qed.

(* ------------------------------------------------------------------ *)
(** ** Further properties: the chapter documents of the book *)

Lemma prefix_empty (s : string) : prefix "" s = true.
Proof. destruct s; reflexivity. Qed.

Lemma prefix_append_self (n t : string) : prefix n (n +++ t) = true.
Proof.
  induction n as [| c n IH]; simpl; [apply prefix_empty |].
  destruct (ascii_dec c c); [exact IH | congruence].
Qed.

Lemma prefix_append_more (n h t : string) :
  prefix n h = true -> prefix n (h +++ t) = true.
Proof.
  revert h. induction n as [| c n IH]; intros h H; [apply prefix_empty |].
  destruct h as [| c' h]; simpl in *; [discriminate |].
  destruct (ascii_dec c c'); [apply IH; exact H | discriminate].
Qed.

Lemma contains_here (n h : string) : prefix n h = true -> contains n h = true.
Proof. intros H. rewrite contains_eqn, H. reflexivity. Qed.

Lemma contains_append_r (n p h : string) :
  contains n h = true -> contains n (p +++ h) = true.
Proof.
  intros H. induction p as [| c p IH]; [exact H |].
  change (String c p +++ h) with (String c (p +++ h)).
  rewrite contains_eqn, IH. destruct (prefix n (String c (p +++ h))); reflexivity.
Qed.

Lemma contains_append_l (n h t : string) :
  contains n h = true -> contains n (h +++ t) = true.
Proof.
  induction h as [| c h IH]; intros H.
  - rewrite contains_eqn in H.
    destruct (prefix n "") eqn:Hp; [| discriminate].
    apply contains_here. apply (prefix_append_more n "" t Hp).
  - rewrite contains_eqn in H.
    change (String c h +++ t) with (String c (h +++ t)).
    rewrite contains_eqn.
    destruct (prefix n (String c h)) eqn:Hp.
    + change (String c (h +++ t)) with (String c h +++ t).
      rewrite (prefix_append_more _ _ t Hp). reflexivity.
    + rewrite (IH H). destruct (prefix n (String c (h +++ t))); reflexivity.
Qed.

Lemma contains_join (n sep x : string) (l : list string) :
  In x l -> contains n x = true -> contains n (join sep l) = true.
Proof.
  unfold join. intros Hin Hx. induction l as [| y l IH]; [contradiction |].
  destruct Hin as [-> | Hin].
  - destruct l as [| z l]; [exact Hx |].
    change (String.concat sep (x :: z :: l))
      with (x +++ sep +++ String.concat sep (z :: l)).
    apply contains_append_l. exact Hx.
  - destruct l as [| z l]; [contradiction |].
    change (String.concat sep (y :: z :: l))
      with (y +++ sep +++ String.concat sep (z :: l)).
    apply contains_append_r. apply contains_append_r. apply IH. exact Hin.
Qed.

Lemma dict_mem_entry (k : string) (d : Dict.dict) :
  Dict.mem k d = true -> exists v, In (k, v) d.
Proof.
  unfold Dict.mem. intros H. apply existsb_exists in H.
  destruct H as ([k' v] & Hin & Heq). simpl in Heq.
  apply String.eqb_eq in Heq. subst k'. exists v. exact Hin.
Qed.

Lemma footnote_line_target (arrow k v : string) :
  prefix ("<p id=" +++ Epub.quoted ("footnote-" +++ k))
    (Epub.footnote_line arrow (k, v)) = true.
Proof.
  unfold Epub.footnote_line. cbn [fst snd].
  rewrite <- append_assoc. apply prefix_append_self.
Qed.

(** X22.  With footnotes on, the document written for a chapter holds a
    paragraph with the identifier [footnote-k] for every key [k] of the
    chapter's footnote table, in both programs.  So the link that the
    formatter puts around a marker, whose [href] is [#footnote-k] for the
    key [k] the marker shows, has its target in the same document. *)
Theorem footnote_links_have_targets (cfg : Config) (ch : chapter) (index : nat) :
  INCLUDE_FOOTNOTES cfg = true ->
  let target k := "<p id=" +++ Epub.quoted ("footnote-" +++ k) in
  (forall k, Dict.mem k (ch_footnotes ch) = true ->
     contains (target k) (Epub.content (Epub.add_chapter cfg ch index)) = true /\
     contains (target k)
       (join (String newline "") (Epub.simple_chapter_lines cfg ch)) = true) /\
  (forall tag a kids,
     known_sup (ch_footnotes ch) (Elem tag a kids) = true ->
     let k := ptext (Elem tag a kids) in
     link_sups (ch_footnotes ch) (Elem tag a kids)
     = Elem "a" [("href", "#footnote-" +++ k)]
         [Elem tag a (map (link_sups (ch_footnotes ch)) kids)] /\
     contains (target k) (Epub.content (Epub.add_chapter cfg ch index)) = true).
Proof.
  intros Hon target.
  assert (Hkeys : forall k, Dict.mem k (ch_footnotes ch) = true ->
            contains (target k) (Epub.content (Epub.add_chapter cfg ch index)) = true /\
            contains (target k)
              (join (String newline "") (Epub.simple_chapter_lines cfg ch)) = true).
  { intros k Hk.
    destruct (dict_mem_entry k _ Hk) as (v & Hin).
    assert (Hne : Dict.nonempty (ch_footnotes ch) = true)
      by (destruct (ch_footnotes ch); [contradiction | reflexivity]).
    split.
    - unfold Epub.add_chapter, Epub.content, Epub.chapter_lines.
      rewrite Hon, Hne. cbn [andb].
      apply (contains_join _ _ (Epub.footnote_line "â†©" (k, v))).
      + apply in_or_app. right. apply in_or_app. left.
        unfold Epub.format_footnotes.
        apply in_or_app. right. apply in_or_app. left.
        apply in_map. exact Hin.
      + apply contains_here. apply footnote_line_target.
    - unfold Epub.simple_chapter_lines. rewrite Hon, Hne. cbn [andb].
      apply (contains_join _ _ (Epub.footnote_line Simple.return_marker (k, v))).
      + apply in_or_app. right. apply in_or_app. left.
        apply in_or_app. right. apply in_or_app. left.
        apply in_map. exact Hin.
      + apply contains_here. apply footnote_line_target. }
  split; [exact Hkeys |].
  intros tag a kids Hknown k.
  split.
  - rewrite link_elem, Hknown. reflexivity.
  - apply Hkeys. unfold known_sup in Hknown.
    apply andb_true_iff in Hknown. apply Hknown.
Qed.

Lemma footnote_links_have_targets_witness :
  let ch := {| ch_title := "Chapter 1";
               ch_content := "<p>text" +++ linked_marker +++ "</p>";
               ch_notes := [];
               ch_footnotes := [("1", "1. word: meaning")] |} in
  contains ("<p id=" +++ Epub.quoted "footnote-1")
    (Epub.content (Epub.add_chapter (flags true false) ch 1)) = true.
Proof.
  intros ch.
  destruct (footnote_links_have_targets (flags true false) ch 1 eq_refl) as (H & _).
  apply (H "1"). reflexivity.
Defined.

(* ------------------------------------------------------------------ *)
(** ** Further properties: pages with fewer than two separators *)



(* ------------------------------------------------------------------ *)
(** ** Further properties: the validity of the chapter URLs *)

Lemma span_all (f : ascii -> bool) (s : string) :
  all_chars f s = true -> span f s = (s, "").
Proof.
  induction s as [| c s IH]; intros H; [reflexivity |].
  simpl in *. apply andb_true_iff in H. destruct H as [Hc Hs].
  rewrite Hc, (IH Hs). reflexivity.
Qed.

Lemma span_app_rest (f : ascii -> bool) (x y : string) :
  snd (span f x) <> "" ->
  span f (x +++ y) = (fst (span f x), snd (span f x) +++ y).
Proof.
  induction x as [| c x IH]; intros H; [simpl in H; congruence |].
  simpl in *. destruct (f c); [| reflexivity].
  destruct (span f x) as [a b] eqn:Hx. simpl in *.
  rewrite (IH H). reflexivity.
Qed.

Lemma span_app_all (f : ascii -> bool) (x y : string) :
  snd (span f x) = "" ->
  span f (x +++ y) = (x +++ fst (span f y), snd (span f y)).
Proof.
  induction x as [| c x IH]; intros H.
  - simpl. destruct (span f y); reflexivity.
  - simpl in *. destruct (f c); [| simpl in H; discriminate].
    destruct (span f x) as [a b] eqn:Hx. simpl in *.
    rewrite (IH H). reflexivity.
Qed.

Lemma span_fst_stop (f : ascii -> bool) (x : string) (c : ascii) (y : string) :
  f c = false -> fst (span f (x +++ String c y)) = fst (span f x).
Proof.
  intros Hc. induction x as [| d x IH]; simpl.
  - rewrite Hc. reflexivity.
  - destruct (f d); [| reflexivity].
    destruct (span f (x +++ String c y)) as [a b].
    destruct (span f x) as [a' b']. simpl in *. now rewrite IH.
Qed.

Lemma lstrip_c0_segment (stem tail : string) :
  lstrip_c0 (stem +++ String "/" tail) = lstrip_c0 stem +++ String "/" tail.
Proof.
  induction stem as [| c stem IH]; [reflexivity |].
  simpl. destruct (c0_or_space c); [exact IH | reflexivity].
Qed.

Lemma remove_chars_app (f : ascii -> bool) (x y : string) :
  remove_chars f (x +++ y) = remove_chars f x +++ remove_chars f y.
Proof.
  induction x as [| c x IH]; [reflexivity |].
  simpl. destruct (f c); rewrite IH; reflexivity.
Qed.

Lemma plain_safe (c : ascii) : url_plain c = true -> unsafe_url_char c = false.
Proof.
  unfold url_plain, c0_or_space, unsafe_url_char. intros H.
  apply andb_true_iff in H. destruct H as [H _].
  apply negb_true_iff in H. apply Nat.leb_gt in H.
  destruct (Nat.eqb_spec (nat_of_ascii c) 9); [lia |].
  destruct (Nat.eqb_spec (nat_of_ascii c) 10); [lia |].
  destruct (Nat.eqb_spec (nat_of_ascii c) 13); [lia |]. reflexivity.
Qed.

Lemma plain_not_delimiter (c : ascii) :
  url_plain c = true ->
  Ascii.eqb c ":" = false /\ Ascii.eqb c "/" = false /\ Ascii.eqb c "?" = false /\
  Ascii.eqb c "#" = false /\ Ascii.eqb c "[" = false /\ Ascii.eqb c "]" = false.
Proof.
  unfold url_plain. intros H. apply andb_true_iff in H. destruct H as [_ H].
  apply negb_true_iff in H.
  repeat (apply orb_false_iff in H; destruct H as [H ?]). auto 10.
Qed.

Lemma remove_chars_plain (s : string) :
  all_chars url_plain s = true -> remove_chars unsafe_url_char s = s.
Proof.
  induction s as [| c s IH]; intros H; [reflexivity |].
  simpl in *. apply andb_true_iff in H. destruct H as [Hc Hs].
  rewrite (plain_safe c Hc), (IH Hs). reflexivity.
Qed.

Lemma all_chars_weaken (f g : ascii -> bool) (s : string) :
  (forall c, f c = true -> g c = true) -> all_chars f s = true -> all_chars g s = true.
Proof.
  intros Hfg. induction s as [| c s IH]; intros H; [reflexivity |].
  simpl in *. apply andb_true_iff in H. destruct H as [Hc Hs].
  rewrite (Hfg c Hc), (IH Hs). reflexivity.
Qed.

Lemma contains_plain (needle s : string) (c : ascii) :
  needle = String c "" -> url_plain c = false ->
  all_chars url_plain s = true -> contains needle s = false.
Proof.
  intros -> Hc. induction s as [| d s IH]; intros H; [reflexivity |].
  simpl in H. apply andb_true_iff in H. destruct H as [Hd Hs].
  rewrite contains_eqn. simpl.
  destruct (ascii_dec c d) as [-> | _]; [congruence |].
  apply IH. exact Hs.
Qed.

Lemma prefix_cons (a : ascii) (p : string) (b : ascii) (s : string) :
  prefix (String a p) (String b s) = if ascii_dec a b then prefix p s else false.
Proof. reflexivity. Qed.

Lemma prefix_slashes (c : ascii) (x : string) :
  prefix "//" (String c x) =
  Ascii.eqb c "/" && match x with
                     | EmptyString => false
                     | String d _ => Ascii.eqb d "/"
                     end.
Proof.
  rewrite prefix_cons. destruct (ascii_dec "/" c) as [<- | Hne].
  - rewrite Ascii.eqb_refl. cbn [andb]. destruct x as [| d y]; [reflexivity |].
    rewrite prefix_cons. destruct (ascii_dec "/" d) as [<- | Hd].
    + rewrite prefix_empty, Ascii.eqb_refl. reflexivity.
    + destruct (Ascii.eqb_spec d "/"); [congruence | reflexivity].
  - destruct (Ascii.eqb_spec c "/"); [congruence | reflexivity].
Qed.

(** A URL that ends with a slash and one plain segment is valid or not
    according to what precedes the slash. *)
Lemma validate_url_segment (stem tail : string) :
  all_chars url_plain tail = true ->
  nonempty tail = true ->
  validate_url (stem +++ String "/" tail) = valid_before_segment stem.
Proof.
  intros Hplain Hne.
  unfold validate_url, urlparse, valid_before_segment.
  rewrite lstrip_c0_segment, remove_chars_app.
  change (remove_chars unsafe_url_char (String "/" tail))
    with (String "/" (remove_chars unsafe_url_char tail)).
  rewrite (remove_chars_plain tail Hplain).
  set (u := remove_chars unsafe_url_char (lstrip_c0 stem)).
  set (nocolon := fun c : ascii => negb (Ascii.eqb c ":")).
  set (inloc := fun c : ascii =>
                  negb (Ascii.eqb c "/" || Ascii.eqb c "?" || Ascii.eqb c "#")).
  assert (Htail_nocolon : all_chars nocolon (String "/" tail) = true).
  { simpl. apply (all_chars_weaken url_plain); [| exact Hplain].
    intros c Hc. unfold nocolon.
    destruct (plain_not_delimiter c Hc) as (-> & _). reflexivity. }
  assert (Htail_inloc : all_chars inloc tail = true).
  { apply (all_chars_weaken url_plain); [| exact Hplain].
    intros c Hc. unfold inloc.
    destruct (plain_not_delimiter c Hc) as (_ & -> & -> & -> & _). reflexivity. }
  assert (Hfirst : prefix "//" (String "/" tail) = false).
  { rewrite prefix_slashes. destruct tail as [| t tail']; [discriminate |].
    simpl in Hplain. apply andb_true_iff in Hplain. destruct Hplain as [Ht _].
    destruct (plain_not_delimiter t Ht) as (_ & -> & _). reflexivity. }
  assert (Hfalse : forall url,
            match
              (if prefix "//" url
               then
                 if xorb (contains "[" (fst (span inloc (drop 2 url))))
                      (contains "]" (fst (span inloc (drop 2 url))))
                 then None
                 else Some ("", fst (span inloc (drop 2 url)))
               else Some ("", ""))
            with
            | Some (scheme, netloc) => nonempty scheme && nonempty netloc
            | None => false
            end = false).
  { intros url. destruct (prefix "//" url); [| reflexivity].
    destruct (xorb _ _); reflexivity. }
  destruct (span nocolon u) as [before after] eqn:Hspan.
  destruct after as [| c after'].
  - (* no colon before the segment: no scheme *)
    rewrite span_app_all by (rewrite Hspan; reflexivity).
    rewrite (span_all nocolon _ Htail_nocolon). cbn [fst snd].
    destruct (u +++ String "/" tail) as [| c0 rest0]; destruct before; apply Hfalse.
  - rewrite span_app_rest by (rewrite Hspan; discriminate).
    rewrite Hspan. cbn [fst snd].
    change (String c after' +++ String "/" tail)
      with (String c (after' +++ String "/" tail)).
    destruct before as [| c0 before']; [apply Hfalse |].
    destruct (is_alpha c0
              && String.eqb (snd (span scheme_char (String c0 before'))) "")
      eqn:Hscheme; [| apply Hfalse].
    cbn [andb].
    destruct after' as [| c1 after''].
    + (* the colon is the last character of the stem *)
      change ("" +++ String "/" tail) with (String "/" tail).
      rewrite Hfirst. reflexivity.
    + change (String c1 after'' +++ String "/" tail)
        with (String c1 (after'' +++ String "/" tail)).
      rewrite prefix_slashes.
      destruct (Ascii.eqb c1 "/") eqn:Hc1; cbn [andb]; [| reflexivity].
      destruct after'' as [| c2 after3].
      * (* one slash after the colon: the segment is the location *)
        change ("" +++ String "/" tail) with (String "/" tail).
        rewrite ?Ascii.eqb_refl. cbv beta iota.
        change (drop 2 (String c1 (String "/" tail))) with tail.
        rewrite (span_all inloc tail Htail_inloc). cbn [fst].
        rewrite (contains_plain "[" tail "[" eq_refl eq_refl Hplain).
        rewrite (contains_plain "]" tail "]" eq_refl eq_refl Hplain).
        cbn [xorb]. change (Ascii.eqb "/" "/") with true. cbv beta iota.
        rewrite Hne.
        destruct (lower (String c0 before')) eqn:Hl; [discriminate | reflexivity].
      * change (String c2 after3 +++ String "/" tail)
          with (String c2 (after3 +++ String "/" tail)).
        destruct (Ascii.eqb c2 "/") eqn:Hc2; cbn [andb]; [| reflexivity].
        change (drop 2 (String c1 (String c2 (after3 +++ String "/" tail))))
          with (after3 +++ String "/" tail).
        rewrite (span_fst_stop inloc after3 "/" tail eq_refl).
        destruct (xorb (contains "[" (fst (span inloc after3)))
                    (contains "]" (fst (span inloc after3)))); [reflexivity |].
        cbn [negb andb].
        destruct (lower (String c0 before')) eqn:Hl; [discriminate | reflexivity].
Qed.

Lemma all_chars_app (f : ascii -> bool) (a b : string) :
  all_chars f (a +++ b) = all_chars f a && all_chars f b.
Proof.
  induction a as [| c a IH]; [reflexivity |].
  simpl. rewrite IH. apply andb_assoc.
Qed.

Lemma string_of_uint_plain (d : Decimal.uint) :
  all_chars url_plain (NilEmpty.string_of_uint d) = true.
Proof.
  induction d; [reflexivity | ..];
    cbn [NilEmpty.string_of_uint all_chars]; rewrite IHd; reflexivity.
Qed.

Lemma string_of_Z_plain (z : Z) : all_chars url_plain (Main.string_of_Z z) = true.
Proof.
  assert (Hu : forall d, all_chars url_plain (NilZero.string_of_uint d) = true).
  { intros d. unfold NilZero.string_of_uint.
    destruct d; try reflexivity; apply string_of_uint_plain. }
  unfold Main.string_of_Z, NilZero.string_of_int.
  destruct (Z.to_int z) as [d | d]; [apply Hu |].
  cbn [all_chars]. rewrite Hu. reflexivity.
Qed.

Lemma chapter_url_valid (inputs : Main.Inputs) (n : Z) :
  validate_url (Main.chapter_url inputs n)
  = valid_before_segment (Main.base_url inputs +++ Main.novel_id inputs).
Proof.
  unfold Main.chapter_url. rewrite <- append_assoc.
  change ("/chapter-" +++ Main.string_of_Z n)
    with (String "/" ("chapter-" +++ Main.string_of_Z n)).
  apply validate_url_segment.
  - rewrite all_chars_app, string_of_Z_plain. reflexivity.
  - reflexivity.
Qed.

Lemma chapter_loop_raises_at_once
    (html_parser : string -> list node) (site : server) (cfg : Config)
    (inputs : Main.Inputs) (nums : list Z) (acc : Main.run)
    (st st' : Main.state) (e : exn) :
  Main.chapter_loop html_parser site cfg inputs nums acc st = (Raise e, st') ->
  e = ValidationError "Invalid chapter URL" /\ st' = st /\ nums <> [] /\
  valid_before_segment (Main.base_url inputs +++ Main.novel_id inputs) = false.
Proof.
  revert acc st. induction nums as [| n rest IH]; intros acc st H.
  - simpl in H. discriminate.
  - cbn [Main.chapter_loop] in H.
    destruct (validate_url (Main.chapter_url inputs n)) eqn:Hvalid.
    + exfalso.
      rewrite get_chapter_content_returns in H by exact Hvalid.
      destruct (match fst (Main.retry_loop html_parser site cfg
                             (Main.chapter_url inputs n) (seq 0 Main.MAX_RETRIES) st) with
                | Some ch =>
                    if nonempty (ch_title ch) && nonempty (ch_content ch)
                    then Some ch else None
                | None => None
                end) as [ch |];
        apply IH in H; destruct H as (_ & _ & _ & Hbad);
        rewrite chapter_url_valid in Hvalid; congruence.
    + rewrite get_chapter_content_raises in H by exact Hvalid.
      injection H as <- <-. rewrite chapter_url_valid in Hvalid.
      repeat split; auto. discriminate.
Qed.

(** X24.  Whether a chapter URL is valid does not depend on the chapter
    number: the base URL and the novel identifier decide for the whole
    range.  So the chapter loop of [main] can raise only at its first
    chapter and before any GET, and a run of [main] that ends with an
    exception has fetched no chapter: its trace holds at most the GET of the
    cover image. *)
Theorem chapter_url_validity_uniform
    (html_parser : string -> list node) (site : server) :
  (forall inputs n m,
     validate_url (Main.chapter_url inputs n)
     = validate_url (Main.chapter_url inputs m)) /\
  (forall cfg inputs nums acc st e st',
     Main.chapter_loop html_parser site cfg inputs nums acc st = (Raise e, st') ->
     e = ValidationError "Invalid chapter URL" /\ st' = st /\
     forall n, validate_url (Main.chapter_url inputs n) = false) /\
  (forall args stdin st e st',
     Main.main html_parser site args stdin st = (Main.Failed e, st') ->
     Main.trace st' = Main.trace st \/
     exists cover, Main.trace st' = Main.trace st ++ [Get cover]).
Proof.
  split; [| split].
  - intros inputs n m. rewrite !chapter_url_valid. reflexivity.
  - intros cfg inputs nums acc st e st' H.
    apply chapter_loop_raises_at_once in H. destruct H as (He & Hst & _ & Hbad).
    repeat split; auto. intros n. rewrite chapter_url_valid. exact Hbad.
  - intros args stdin st e st'. unfold Main.main, Main.bind, Main.ret. intros H.
    destruct (Main.get_user_input _ _ stdin) as [[[inputs cfg] | e0] rest];
      [| injection H as _ <-; left; reflexivity].
    destruct (Main.get_yes_no_input true rest) as [[[|] | e0] rest'];
      [| discriminate | injection H as _ <-; left; reflexivity].
    destruct (nonempty (Main.cover_url inputs)).
    + destruct (negb (validate_url (Main.cover_url inputs)));
        [injection H as _ <-; left; reflexivity |].
      destruct (http_get_frame site (Main.cover_url inputs) st) as (_ & _ & _ & Ht).
      destruct (Main.chapter_loop html_parser site cfg inputs _ _ _)
        as [[r0 | e0] st2] eqn:Hloop.
      * destruct (Main.chapters_data r0); discriminate.
      * injection H as _ <-.
        apply chapter_loop_raises_at_once in Hloop.
        destruct Hloop as (_ & -> & _). right.
        exists (Main.cover_url inputs). exact Ht.
    + destruct (Main.chapter_loop html_parser site cfg inputs _ _ _)
        as [[r0 | e0] st2] eqn:Hloop.
      * destruct (Main.chapters_data r0); discriminate.
      * injection H as _ <-.
        apply chapter_loop_raises_at_once in Hloop.
        destruct Hloop as (_ & -> & _). left. reflexivity.
Qed.

Lemma chapter_url_validity_uniform_witness :
  Main.trace
    (snd (Main.main Parser.parse_html (site_of story_page)
            (args_for "example.com" 1 3) decline_and_confirm main_start))
  = [].
Proof.
  destruct (chapter_url_validity_uniform Parser.parse_html (site_of story_page))
    as (_ & _ & H).
  destruct (H (args_for "example.com" 1 3) decline_and_confirm main_start
              (ValidationError "Invalid chapter URL")
              (snd (Main.main Parser.parse_html (site_of story_page)
                      (args_for "example.com" 1 3) decline_and_confirm main_start)))
    as [Ht | (cover & Ht)].
  - vm_compute. reflexivity.
  - exact Ht.
  - vm_compute in Ht. destruct cover; discriminate.
Defined.

(* ------------------------------------------------------------------ *)
(** ** Further properties: the limiter of the separator-based variant *)

(** X25.  The limiter of the separator-based variant sleeps only when less
    than the interval has passed since the last recorded call, and then for
    what is left of the interval, so that the request goes out no earlier
    than one interval after that call; it never sleeps at the first call.
    What it records is the time of the call, before the sleep, and it keeps
    at most ten times. *)
Theorem simple_wait_contract (now : Q) (rl : Simple.RateLimiter) :
  let after := snd (Simple.wait now rl) in
  deque_last (Simple.last_request_times after) = Some now /\
  Simple.min_interval after = Simple.min_interval rl /\
  (List.length (Simple.last_request_times rl) <= 10 ->
   List.length (Simple.last_request_times after) <= 10) /\
  match deque_last (Simple.last_request_times rl), fst (Simple.wait now rl) with
  | None, slept => slept = None
  | Some last, Some d =>
      (now - last < Simple.min_interval rl)%Q /\
      (0 < d)%Q /\
      (now + d == last + Simple.min_interval rl)%Q
  | Some last, None => (Simple.min_interval rl <= now - last)%Q
  end.
Proof.
  unfold Simple.wait. cbn [fst snd Simple.last_request_times Simple.min_interval].
  split; [apply deque_last_append |]. split; [reflexivity |].
  split; [apply deque_append_bounded |].
  destruct (deque_last (Simple.last_request_times rl)) as [last |]; [| reflexivity].
  destruct (Qlt_le_dec (now - last) (Simple.min_interval rl)) as [Hlt | Hge];
    [| exact Hge].
  split; [exact Hlt |].
  assert (Hpos : (0 < Simple.min_interval rl - (now - last))%Q) by lra.
  assert (Hmax : (Qmax 0 (Simple.min_interval rl - (now - last))
                  == Simple.min_interval rl - (now - last))%Q)
    by (apply Q.max_r; lra).
  split; [rewrite Hmax; exact Hpos |].
  rewrite Hmax. lra.
Qed.

Lemma simple_wait_contract_witness :
  let rl := {| Simple.rate := (2 # 1)%Q; Simple.min_interval := (1 # 2)%Q;
               Simple.last_request_times := [0%Q] |} in
  exists d, fst (Simple.wait (1 # 10) rl) = Some d /\
            ((1 # 10) + d == 0 + (1 # 2))%Q.
Proof.
  intros rl. eexists. split; [reflexivity |].
  pose proof (simple_wait_contract (1 # 10) rl) as H.
  cbv zeta in H. destruct H as (_ & _ & _ & H).
  exact (proj2 (proj2 H)).
Defined.

(* ------------------------------------------------------------------ *)
(** ** Further properties: one attempt of the separator-based variant *)


(* ------------------------------------------------------------------ *)
(** ** Further properties: the lines dropped as chapter numbers *)











(* ------------------------------------------------------------------ *)
(** ** Further properties: the name of the file *)



